(** * s3_manager: a prefix-scoped virtual file system over an object store

    Shallow embedding of [app.py] ([S3Manager]) and [utils/s3_advanced.py]
    ([S3AdvancedManager]), and the properties of the path formatter, the
    size formatter, and the delete, rename, search, preview and metadata
    operations.

    A Python [str] is modelled by its UTF-8 encoding, a [string] of 8-bit
    characters, and a decoded text whose characters are counted by its
    list of code points; [str.lower()] is taken as given. The object
    store behind [boto3] is modelled as a finite map from keys to objects
    together with the log of the requests it has received. *)

From Stdlib Require Import ZArith Ascii String List Lia.
From stdpp Require Import base tactics option list sorting gmap strings pretty.

Local Open Scope Z_scope.
Local Open Scope stdpp_scope.

(* The set and map solvers clear hypotheses that may already be gone. *)
#[local] Set Warnings "-clear-no-such-hyp".

(** ** Python string methods

    A Python [str] is represented by its UTF-8 encoding. The methods below
    are used with ASCII or whole-string arguments ([split('/')],
    [strip('/')], [startswith], [endswith], [join], [replace], [in]); on
    encodings they yield the encoding of what Python yields, UTF-8 being
    self-synchronising. Where the program counts or cuts characters of a
    text ([len], slices of a decoded content) the text is a list of code
    points instead. *)

Module PyStr.

Definition slash : ascii := "/"%char.
Definition dot : ascii := "."%char.

(** [bool(s)]: a string is truthy when it is not empty. *)
Definition truthy (s : string) : bool :=
  match s with "" => false | String _ _ => true end.

(** [s.startswith(p)] *)
Fixpoint startswith (s p : string) : bool :=
  match p, s with
  | "", _ => true
  | String _ _, "" => false
  | String a p', String b s' => Ascii.eqb a b && startswith s' p'
  end.

(** [s.endswith(suf)] *)
Fixpoint endswith (s suf : string) : bool :=
  String.eqb s suf ||
  match s with
  | "" => false
  | String _ s' => endswith s' suf
  end.

(** [s.lstrip(c)], [s.rstrip(c)] and [s.strip(c)] for a one-character
    argument, the only use in the program. *)
Fixpoint lstrip (c : ascii) (s : string) : string :=
  match s with
  | "" => ""
  | String a s' => if Ascii.eqb a c then lstrip c s' else s
  end.

Fixpoint rstrip (c : ascii) (s : string) : string :=
  match s with
  | "" => ""
  | String a s' =>
      let r := rstrip c s' in
      if Ascii.eqb a c && negb (truthy r) then "" else String a r
  end.

Definition strip (c : ascii) (s : string) : string := rstrip c (lstrip c s).

(** [s.split(c)]: never empty, one more piece than occurrences of [c]. *)
Fixpoint split (c : ascii) (s : string) : list string :=
  match s with
  | "" => [""]
  | String a s' =>
      match split c s' with
      | [] => [String a ""]
      | h :: t => if Ascii.eqb a c then "" :: h :: t else String a h :: t
      end
  end.

(** [sep.join(l)] *)
Definition join (sep : string) (l : list string) : string :=
  String.concat sep l.

(** [l[-1]] on the result of a split *)
Definition last_piece (l : list string) : string := List.last l "".

(** [l[:-1]] *)
Definition but_last (l : list string) : list string := removelast l.

(** [s[n:]] *)
Fixpoint slice_from (n : nat) (s : string) : string :=
  match n, s with
  | O, _ => s
  | S _, "" => ""
  | S n', String _ s' => slice_from n' s'
  end.

(** [s.replace(old, new, 1)]: the leftmost occurrence only. *)
Fixpoint replace1 (old new s : string) : string :=
  if startswith s old then new +:+ slice_from (String.length old) s
  else match s with
       | "" => ""
       | String a s' => String a (replace1 old new s')
       end.

(** [sub in s] *)
Fixpoint contains (sub s : string) : bool :=
  startswith s sub ||
  match s with
  | "" => false
  | String _ s' => contains sub s'
  end.

(** [s.lower()] itself follows the Unicode tables: it is not defined here
    but taken as given (see [Externals]). What it does to a string of
    ASCII characters is to lower the letters A-Z; that part stands in
    for it in the sample inputs. *)
Definition lower_char (a : ascii) : ascii :=
  let n := N_of_ascii a in
  if (65 <=? n)%N && (n <=? 90)%N then ascii_of_N (n + 32) else a.

Fixpoint ascii_lower (s : string) : string :=
  match s with
  | "" => ""
  | String a s' => String (lower_char a) (ascii_lower s')
  end.

(** [x in l] for a list of strings *)
Definition mem (x : string) (l : list string) : bool :=
  existsb (String.eqb x) l.

End PyStr.

Import PyStr.

(** ** The path formatter

    [S3Manager.format_path] (app.py) and [S3AdvancedManager._format_path]
    (utils/s3_advanced.py) have the same body. A missing path ([None]) and
    the empty string are both falsy. *)

Module S3Manager_paths.

Definition format_path (app_prefix : string) (path : option string) : string :=
  match path with
  | None => app_prefix +:+ "/"
  | Some path =>
      if negb (truthy path) then app_prefix +:+ "/"
      else
        let path := strip slash path in
        let path :=
          if negb (startswith path app_prefix)
          then app_prefix +:+ "/" +:+ path else path in
        let path :=
          if negb (endswith path "/") then path +:+ "/" else path in
        path
  end.

End S3Manager_paths.

Module S3AdvancedManager_paths.

Definition _format_path (app_prefix : string) (path : option string) : string :=
  match path with
  | None => app_prefix +:+ "/"
  | Some path =>
      if negb (truthy path) then app_prefix +:+ "/"
      else
        let path := strip slash path in
        let path :=
          if negb (startswith path app_prefix)
          then app_prefix +:+ "/" +:+ path else path in
        let path :=
          if negb (endswith path "/") then path +:+ "/" else path in
        path
  end.

End S3AdvancedManager_paths.

Export S3Manager_paths S3AdvancedManager_paths.

(** ** The size formatter

    [format_size] starts from a Python [int] and, once it has divided by
    [1024.0], continues on a [float]. A float is modelled exactly, as the
    dyadic rational [m * 2^e] it denotes: converting an [int] rounds to 53
    significant bits (ties to even), dividing by the power of two [1024.0]
    only lowers the exponent, and the [.1f] rendering rounds the exact
    value to one decimal (ties to even). *)

Module PyNum.

Inductive num : Type :=
| PyInt (n : Z)
| PyFloat (m e : Z).

(** [float(n)]; [None] is Python's [OverflowError]. *)
Definition float_of_int (n : Z) : option (Z * Z) :=
  let a := Z.abs n in
  if a <? 2 ^ 53 then Some (n, 0)
  else
    let e := Z.log2 a - 52 in
    let q := a / 2 ^ e in
    let r := a mod 2 ^ e in
    let half := 2 ^ (e - 1) in
    let m := if (half <? r) || ((r =? half) && Z.odd q) then q + 1 else q in
    if 2 ^ 1024 <=? m * 2 ^ e then None else Some (Z.sgn n * m, e).

(** [x < 1024.0]; comparing an [int] with a [float] is exact. *)
Definition lt_1024 (x : num) : bool :=
  match x with
  | PyInt n => n <? 1024
  | PyFloat m e =>
      if 0 <=? e then m * 2 ^ e <? 1024 else m <? 1024 * 2 ^ (- e)
  end.

(** [x / 1024.0] *)
Definition div_1024 (x : num) : option num :=
  match x with
  | PyInt n =>
      match float_of_int n with
      | Some (m, e) => Some (PyFloat m (e - 10))
      | None => None
      end
  | PyFloat m e => Some (PyFloat m (e - 10))
  end.

(** The integer nearest to [a / b], ties to even, for [0 <= a], [0 < b]. *)
Definition round_half_even (a b : Z) : Z :=
  let q := a / b in
  let r := a mod b in
  if (b <? 2 * r) || ((2 * r =? b) && Z.odd q) then q + 1 else q.

(** The number of tenths shown by [.1f] for the float [m * 2^e]. *)
Definition tenths (m e : Z) : Z :=
  let a := Z.abs m in
  if 0 <=? e then 10 * a * 2 ^ e else round_half_even (10 * a) (2 ^ (- e)).

Definition show_tenths (negative : bool) (t : Z) : string :=
  (if negative then "-" else "") +:+
  pretty (Z.to_N (t / 10)) +:+ "." +:+ pretty (Z.to_N (t mod 10)).

(** [f"{x:.1f}"]; an [int] is first converted to a [float]. *)
Definition format_1f (x : num) : option string :=
  match x with
  | PyInt n =>
      match float_of_int n with
      | Some (m, e) => Some (show_tenths (m <? 0) (tenths m e))
      | None => None
      end
  | PyFloat m e => Some (show_tenths (m <? 0) (tenths m e))
  end.

(** The body of the [for unit in [...]] loop and the code after it. *)
Fixpoint format_size_loop (units : list string) (size_bytes : num)
  : option string :=
  match units with
  | [] =>
      match format_1f size_bytes with
      | Some s => Some (s +:+ " PB")
      | None => None
      end
  | unit :: units' =>
      if lt_1024 size_bytes then
        match format_1f size_bytes with
        | Some s => Some (s +:+ " " +:+ unit)
        | None => None
        end
      else
        match div_1024 size_bytes with
        | Some size_bytes' => format_size_loop units' size_bytes'
        | None => None
        end
  end.

End PyNum.

Import PyNum.

Module S3Manager_sizes.

Definition format_size (size_bytes : Z) : option string :=
  format_size_loop ["B"; "KB"; "MB"; "GB"; "TB"] (PyInt size_bytes).

End S3Manager_sizes.

Module S3AdvancedManager_sizes.

Definition _format_size (size_bytes : Z) : option string :=
  format_size_loop ["B"; "KB"; "MB"; "GB"; "TB"] (PyInt size_bytes).

End S3AdvancedManager_sizes.

Export S3Manager_sizes S3AdvancedManager_sizes.

(** ** The object store behind [boto3]

    One bucket: a finite map from keys to objects. Every request the
    program sends is appended to [requests]. A listing returns at most
    [MaxKeys] entries in ascending key order (S3 uses 1000) and a
    continuation token that resumes after the last entry returned. *)

Module Boto3.

Record datetime : Type := {
  year : Z; month : Z; day : Z; hour : Z; minute : Z; second : Z }.

Definition pad2 (n : Z) : string :=
  if n <? 10 then "0" +:+ pretty (Z.to_N n) else pretty (Z.to_N n).

(** [d.strftime('%Y-%m-%d %H:%M:%S')] *)
Definition strftime (d : datetime) : string :=
  pretty (Z.to_N (year d)) +:+ "-" +:+ pad2 (month d) +:+ "-" +:+
  pad2 (day d) +:+ " " +:+ pad2 (hour d) +:+ ":" +:+ pad2 (minute d) +:+
  ":" +:+ pad2 (second d).

Record S3Object : Type := {
  Body : string;
  ContentLength : Z;
  ContentType : option string;
  LastModified : datetime;
  ETag : option string;
  StorageClass : option string;
  Metadata : option (list (string * string)) }.

Inductive Request : Type :=
| ListObjectsV2 (Prefix : string) (Delimiter : option ascii)
                (ContinuationToken : option string)
| UploadFileobj (Key : string)
| PutObject (Key : string)
| GetObject (Key : string)
| HeadObject (Key : string)
| DeleteObject (Key : string)
| DeleteObjects (Keys : list string)
| CopyObject (SourceKey Key : string)
| GeneratePresignedUrl (Key : string) (ExpiresIn : Z).

Record World : Type := {
  objects : gmap string S3Object;
  requests : list Request;
  MaxKeys : nat;
  now : datetime;
  sign : string → Z → option string }.

Definition with_objects (m : gmap string S3Object) (w : World) : World :=
  {| objects := m; requests := requests w; MaxKeys := MaxKeys w;
     now := now w; sign := sign w |}.

Definition with_request (r : Request) (w : World) : World :=
  {| objects := objects w; requests := requests w ++ [r];
     MaxKeys := MaxKeys w; now := now w; sign := sign w |}.

(** *** Computations that talk to the store

    A call returns, raises a Python exception (carried as its message),
    or exhausts the fuel of a pagination loop. The world is threaded
    through in all three cases: what a failed operation has already
    changed stays changed. *)

Inductive outcome (A : Type) : Type :=
| Return (a : A)
| Raise (e : string)
| OutOfFuel.
Arguments Return {A} a.
Arguments Raise {A} e.
Arguments OutOfFuel {A}.

Definition Gw (A : Type) : Type := World → outcome A * World.

Definition ret {A} (a : A) : Gw A := λ w, (Return a, w).

Definition raise {A} (e : string) : Gw A := λ w, (Raise e, w).

Definition bind {A B} (c : Gw A) (k : A → Gw B) : Gw B :=
  λ w, match c w with
       | (Return a, w') => k a w'
       | (Raise e, w') => (Raise e, w')
       | (OutOfFuel, w') => (OutOfFuel, w')
       end.

(** [try: c except Exception as e: h e] *)
Definition try_except {A} (c : Gw A) (h : string → Gw A) : Gw A :=
  λ w, match c w with
       | (Raise e, w') => h e w'
       | r => r
       end.

Definition of_option {A} (e : string) (o : option A) : Gw A :=
  match o with Some a => ret a | None => raise e end.

Definition send (r : Request) : Gw unit :=
  λ w, (Return tt, with_request r w).

Definition read_objects : Gw (gmap string S3Object) :=
  λ w, (Return (objects w), w).

Definition write_objects (m : gmap string S3Object) : Gw unit :=
  λ w, (Return tt, with_objects m w).

Definition read_world : Gw World := λ w, (Return w, w).

Declare Scope gw_scope.
Delimit Scope gw_scope with gw.
Notation "x <- c ;; k" := (bind c (λ x, k))
  (at level 90, c at next level, right associativity) : gw_scope.
Notation "c ;;; k" := (bind c (λ _, k))
  (at level 90, right associativity) : gw_scope.
Local Open Scope gw_scope.

(** [for x in l: acc = body acc x] *)
Fixpoint for_each {A B} (l : list B) (acc : A) (body : A → B → Gw A)
  : Gw A :=
  match l with
  | [] => ret acc
  | x :: l' => acc' <- body acc x ;; for_each l' acc' body
  end.

(** *** Listing *)

Definition after_token (token : option string) (k : string) : bool :=
  match token with
  | None => true
  | Some t => negb (String.leb k t)
  end.

Definition listed (Prefix : string) (token : option string) (k : string)
  : Prop :=
  startswith k Prefix && after_token token k = true.

Global Instance listed_dec Prefix token k : Decision (listed Prefix token k).
Proof. unfold listed. apply _. Defined.

(** The keys with the given prefix that come after the token, ascending. *)
Definition keys_under (m : gmap string S3Object) (Prefix : string)
    (token : option string) : list string :=
  merge_sort String.le (filter (listed Prefix token) (map_to_list m).*1).

Inductive ListItem : Type :=
| Object (k : string)
| CommonPrefix (p : string).

Global Instance ListItem_eq_dec : EqDecision ListItem.
Proof. solve_decision. Defined.

Definition item_name (it : ListItem) : string :=
  match it with Object k => k | CommonPrefix p => p end.

(** With a delimiter, a key whose remainder after the prefix contains
    the delimiter is rolled up into the common prefix that ends at its
    first occurrence. *)
Definition rollup (Prefix : string) (Delimiter : option ascii) (k : string)
  : ListItem :=
  match Delimiter with
  | None => Object k
  | Some d =>
      match split d (slice_from (String.length Prefix) k) with
      | seg :: _ :: _ => CommonPrefix (Prefix +:+ seg +:+ String d "")
      | _ => Object k
      end
  end.

Fixpoint dedup_adjacent (l : list ListItem) : list ListItem :=
  match l with
  | [] => []
  | x :: l' =>
      match l' with
      | y :: _ => if decide (x = y) then dedup_adjacent l'
                  else x :: dedup_adjacent l'
      | [] => [x]
      end
  end.

Record ObjectSummary : Type := {
  Key : string; Size : Z; SummaryLastModified : datetime }.

Definition summary (m : gmap string S3Object) (it : ListItem)
  : option ObjectSummary :=
  match it with
  | Object k =>
      match m !! k with
      | Some o => Some {| Key := k; Size := ContentLength o;
                          SummaryLastModified := LastModified o |}
      | None => None
      end
  | CommonPrefix _ => None
  end.

Definition common_prefix (it : ListItem) : option string :=
  match it with Object _ => None | CommonPrefix p => Some p end.

(** A response carries a ['Contents'] (['CommonPrefixes']) entry only
    when it has at least one. *)
Definition present {A} (l : list A) : option (list A) :=
  match l with [] => None | _ :: _ => Some l end.

Record ListResponse : Type := {
  Contents : option (list ObjectSummary);
  CommonPrefixes : option (list string);
  IsTruncated : bool;
  NextContinuationToken : option string }.

Definition list_page (w : World) (Prefix : string)
    (Delimiter : option ascii) (token : option string) : ListResponse :=
  let items :=
    dedup_adjacent
      (rollup Prefix Delimiter <$> keys_under (objects w) Prefix token) in
  let page := take (MaxKeys w) items in
  let truncated := bool_decide (MaxKeys w < length items)%nat in
  {| Contents := present (omap (summary (objects w)) page);
     CommonPrefixes := present (omap common_prefix page);
     IsTruncated := truncated;
     NextContinuationToken :=
       if truncated then item_name <$> last page else None |}.

(** [s3_client.list_objects_v2(Bucket=..., Prefix=..., ...)] *)
Definition list_objects_v2 (Prefix : string) (Delimiter : option ascii)
    (token : option string) : Gw ListResponse :=
  send (ListObjectsV2 Prefix Delimiter token) ;;;
  w <- read_world ;;
  ret (list_page w Prefix Delimiter token).

(** [for page in paginator.paginate(Bucket=..., Prefix=...): ...]: pages
    are requested one at a time, each after the body has run on the one
    before, until a response has no continuation token. *)
Fixpoint paginate {A} (fuel : nat) (Prefix : string)
    (token : option string) (acc : A) (body : A → ListResponse → Gw A)
  : Gw A :=
  match fuel with
  | O => λ w, (OutOfFuel, w)
  | S fuel' =>
      page <- list_objects_v2 Prefix None token ;;
      acc' <- body acc page ;;
      match NextContinuationToken page with
      | Some t => paginate fuel' Prefix (Some t) acc' body
      | None => ret acc'
      end
  end.

(** [if 'Contents' in page: for obj in page['Contents']: ...], the body
    of every pagination loop of the program. *)
Definition page_loop {A} (step : A → ObjectSummary → Gw A)
  : A → ListResponse → Gw A :=
  λ acc page,
    match Contents page with
    | Some contents => for_each contents acc step
    | None => ret acc
    end.

(** *** Requests on single objects *)

Definition new_object (w : World) (body : string) : S3Object :=
  {| Body := body; ContentLength := Z.of_nat (String.length body);
     ContentType := None; LastModified := now w; ETag := None;
     StorageClass := None; Metadata := None |}.

Definition upload_fileobj (content : string) (key : string) : Gw unit :=
  send (UploadFileobj key) ;;;
  w <- read_world ;;
  write_objects (<[key := new_object w content]> (objects w)).

Definition put_object (key : string) (body : string) : Gw unit :=
  send (PutObject key) ;;;
  w <- read_world ;;
  write_objects (<[key := new_object w body]> (objects w)).

Definition get_object (key : string) : Gw S3Object :=
  send (GetObject key) ;;;
  m <- read_objects ;;
  of_option "NoSuchKey" (m !! key).

Definition head_object (key : string) : Gw S3Object :=
  send (HeadObject key) ;;;
  m <- read_objects ;;
  of_option "Not Found" (m !! key).

(** The client refuses an empty key before anything reaches the store. *)
Definition delete_object (key : string) : Gw unit :=
  send (DeleteObject key) ;;;
  if truthy key then
    m <- read_objects ;;
    write_objects (delete key m)
  else raise "Parameter validation failed".

Definition delete_objects (keys : list string) : Gw unit :=
  send (DeleteObjects keys) ;;;
  m <- read_objects ;;
  write_objects (foldr delete m keys).

(** A copy keeps the content and the metadata of its source and is
    stamped with the time of the copy. *)
Definition restamp (t : datetime) (o : S3Object) : S3Object :=
  {| Body := Body o; ContentLength := ContentLength o;
     ContentType := ContentType o; LastModified := t; ETag := ETag o;
     StorageClass := StorageClass o; Metadata := Metadata o |}.

Definition copy_object (source key : string) : Gw unit :=
  send (CopyObject source key) ;;;
  w <- read_world ;;
  o <- of_option "NoSuchKey" (objects w !! source) ;;
  write_objects (<[key := restamp (now w) o]> (objects w)).

Definition generate_presigned_url (key : string) (expires : Z)
  : Gw string :=
  send (GeneratePresignedUrl key expires) ;;;
  w <- read_world ;;
  of_option "presign" (sign w key expires).

End Boto3.

Import Boto3.
Local Open Scope gw_scope.

(** ** Results shown to the user *)

Inductive EntryType : Type := Folder | File.

(** The dict built for a listing or search row. Folder rows of a listing
    carry ["-"] for size and modification time and no [size_bytes]. *)
Record Entry : Type := {
  name : string;
  path : string;
  type : EntryType;
  size : string;
  size_bytes : option Z;
  modified : string }.

(** An uploaded file: [file.name] and its content. *)
Record UploadedFile : Type := { file_name : string; file_content : string }.

(** ** [class S3Manager] (app.py) *)

Module S3Manager.

Record t : Type := {
  bucket_name : string;
  app_prefix : string;
  connected : bool }.

Definition format_path (self : t) (path : option string) : string :=
  S3Manager_paths.format_path (app_prefix self) path.

Definition format_size (size_bytes : Z) : Gw string :=
  of_option "OverflowError" (S3Manager_sizes.format_size size_bytes).

Definition folder_entry (folder_path : string) : Entry :=
  let folder_name := last_piece (split slash (rstrip slash folder_path)) in
  {| name := folder_name; path := folder_path; type := Folder;
     size := "-"; size_bytes := None; modified := "-" |}.

Definition list_objects (self : t) (prefix : string)
  : Gw (list Entry * list Entry) :=
  if negb (connected self) then ret ([], [])
  else
    try_except
      (let full_prefix :=
         if truthy prefix then format_path self (Some prefix)
         else app_prefix self +:+ "/" in
       response <- list_objects_v2 full_prefix (Some slash) None ;;
       let folders :=
         match CommonPrefixes response with
         | Some prefixes => folder_entry <$> prefixes
         | None => []
         end in
       files <-
         match Contents response with
         | Some contents =>
             for_each contents []
               (λ files obj,
                  if String.eqb (Key obj) full_prefix then ret files
                  else
                    let file_path := Key obj in
                    let file_name := last_piece (split slash file_path) in
                    if negb (truthy file_name) then ret files
                    else
                      sz <- format_size (Size obj) ;;
                      ret (files ++
                           [{| name := file_name; path := file_path;
                               type := File; size := sz;
                               size_bytes := Some (Size obj);
                               modified :=
                                 strftime (SummaryLastModified obj) |}]))
         | None => ret []
         end ;;
       ret (folders, files))
      (λ e, ret ([], [])).

Definition upload_file (self : t) (file : UploadedFile) (path : string)
  : Gw (bool * string) :=
  if negb (connected self) then ret (false, "Not connected to S3")
  else
    try_except
      (let full_path := format_path self (Some path) in
       let file_key := full_path +:+ file_name file in
       upload_fileobj (file_content file) file_key ;;;
       ret (true, "File '" +:+ file_name file +:+ "' uploaded successfully"))
      (λ e, ret (false, "Upload failed: " +:+ e)).

Definition download_file (self : t) (file_path : string)
  : Gw (option string * option string) :=
  if negb (connected self) then ret (None, Some "Not connected to S3")
  else
    try_except
      (response <- get_object file_path ;;
       let content := Body response in
       ret (Some content, None))
      (λ e, ret (None, Some ("Download failed: " +:+ e))).

Definition delete_object (self : t) (object_path : string)
  : Gw (bool * string) :=
  if negb (connected self) then ret (false, "Not connected to S3")
  else
    try_except
      (if endswith object_path "/" then
         objects <- list_objects_v2 object_path None None ;;
         match Contents objects with
         | Some contents =>
             let delete_objects := Key <$> contents in
             match delete_objects with
             | _ :: _ => Boto3.delete_objects delete_objects
             | [] => ret tt
             end
         | None => ret tt
         end ;;;
         ret (true, "Folder deleted successfully")
       else
         Boto3.delete_object object_path ;;;
         ret (true, "File deleted successfully"))
      (λ e, ret (false, "Delete failed: " +:+ e)).

Definition create_folder (self : t) (folder_name parent_path : string)
  : Gw (bool * string) :=
  if negb (connected self) then ret (false, "Not connected to S3")
  else
    try_except
      (let full_path :=
         if truthy parent_path then format_path self (Some parent_path)
         else app_prefix self +:+ "/" in
       let folder_key := full_path +:+ folder_name +:+ "/" in
       put_object folder_key "" ;;;
       ret (true, "Folder '" +:+ folder_name +:+ "' created successfully"))
      (λ e, ret (false, "Create folder failed: " +:+ e)).

End S3Manager.

(** ** Libraries the advanced manager calls

    [str.lower()] with its Unicode tables, [mimetypes], the UTF-8 decoder,
    [PIL] and [pandas] are not part of the program: their results are
    taken as given. *)

(** A decoded text: its code points. *)
Definition CodePoints : Type := list N.

Record DataFrame : Type := {
  df_columns : list string;
  df_rows : list (list string) }.

Definition df_head (n : nat) (df : DataFrame) : DataFrame :=
  {| df_columns := df_columns df; df_rows := take n (df_rows df) |}.

Definition df_shape (df : DataFrame) : nat * nat :=
  (length (df_rows df), length (df_columns df)).

Record Externals : Type := {
  (** [s.lower()] *)
  str_lower : string → string;
  (** [mimetypes.guess_type(path)[0]] *)
  guess_type : string → option string;
  (** [content.decode('utf-8')], [None] when it raises *)
  decode_utf8 : string → option CodePoints;
  (** [Image.open], [thumbnail((800, 600))] and [save]: the encoded
      thumbnail, its format and its size, [None] when one of them raises *)
  thumbnail : string → option (string * string * (Z * Z));
  (** [pd.read_csv] and [pd.read_excel], [None] when they raise *)
  read_csv : string → option DataFrame;
  read_excel : string → option DataFrame }.

Inductive Preview : Type :=
| PreviewError (message : string)
| PreviewText (content : CodePoints) (truncated : bool)
| PreviewSvg (content : CodePoints)
| PreviewImage (content : string) (format : string) (dims : Z * Z)
| PreviewCsv (content : DataFrame) (shape : nat * nat) (columns : list string)
| PreviewExcel (content : DataFrame) (shape : nat * nat)
               (columns : list string)
| PreviewPdf (message : string) (file_size : Z)
| PreviewUnknown (extension : string) (file_size : Z).

Record FolderSize : Type := {
  total_size : Z;
  file_count : Z;
  formatted_size : string;
  error : option string }.

(** The dict returned by [get_file_metadata] when the request succeeds;
    the key ['mime_type'] is present only when the local guess is. *)
Record FileMetadata : Type := {
  md_size : Z;
  md_formatted_size : string;
  md_content_type : string;
  md_last_modified : string;
  md_etag : string;
  md_storage_class : string;
  md_metadata : list (string * string);
  md_mime_type : option string }.

Inductive MetadataResult : Type :=
| MetadataOk (metadata : FileMetadata)
| MetadataError (e : string).

(** ** [class S3AdvancedManager] (utils/s3_advanced.py) *)

Module S3AdvancedManager.

Record t : Type := {
  bucket_name : string;
  app_prefix : string }.

Definition _format_path (self : t) (path : option string) : string :=
  S3AdvancedManager_paths._format_path (app_prefix self) path.

Definition _format_size (size_bytes : Z) : Gw string :=
  of_option "OverflowError" (S3AdvancedManager_sizes._format_size size_bytes).

(** The loop body of the folder case of [rename_object]. *)
Definition rename_one (old_path new_path : string) (obj : ObjectSummary)
  : Gw unit :=
  let old_key := Key obj in
  let new_key := replace1 old_path new_path old_key in
  copy_object old_key new_key ;;;
  Boto3.delete_object old_key.

Definition rename_object (fuel : nat) (self : t)
    (old_path new_name : string) : Gw (bool * string) :=
  try_except
    (let is_folder := endswith old_path "/" in
     let path_parts := split slash (rstrip slash old_path) in
     let parent_path := join "/" (but_last path_parts) in
     let new_path :=
       if truthy parent_path then parent_path +:+ "/" +:+ new_name
       else new_name in
     (if is_folder then
        let new_path := new_path +:+ "/" in
        paginate fuel old_path None tt
          (page_loop (λ _ obj, rename_one old_path new_path obj))
      else
        copy_object old_path new_path ;;;
        Boto3.delete_object old_path) ;;;
     ret (true, "Successfully renamed to '" +:+ new_name +:+ "'"))
    (λ e, ret (false, "Rename failed: " +:+ e)).

Definition text_extensions : list string :=
  ["txt"; "log"; "md"; "py"; "js"; "html"; "css"; "json"; "xml"; "yaml";
   "yml"].

Definition image_extensions : list string :=
  ["jpg"; "jpeg"; "png"; "gif"; "bmp"; "svg"].

Definition default_max_size : Z := 5 * 1024 * 1024.

(** The number of characters (code points) of a text preview. *)
Definition text_limit : nat := Z.to_nat 10000.

(** [f'File too large for preview (>{max_size/1024/1024:.1f}MB)'] *)
Definition too_large_message (max_size : Z) : Gw string :=
  x <- of_option "OverflowError" (div_1024 (PyInt max_size)) ;;
  y <- of_option "OverflowError" (div_1024 x) ;;
  s <- of_option "OverflowError" (format_1f y) ;;
  ret ("File too large for preview (>" +:+ s +:+ "MB)").

Definition get_file_preview (ext : Externals) (self : t)
    (file_path : string) (max_size : Z) : Gw Preview :=
  try_except
    (response <- head_object file_path ;;
     let file_size := ContentLength response in
     let content_type := default "" (ContentType response) in
     if max_size <? file_size then
       message <- too_large_message max_size ;;
       ret (PreviewError message)
     else
       obj_response <- get_object file_path ;;
       let content := Body obj_response in
       let file_extension :=
         str_lower ext (last_piece (split dot file_path)) in
       if mem file_extension text_extensions then
         match decode_utf8 ext content with
         | Some text_content =>
             ret (PreviewText
                    (take text_limit text_content)
                    (text_limit <? length text_content)%nat)
         | None => ret (PreviewError "Unable to decode text file")
         end
       else if mem file_extension image_extensions then
         if String.eqb file_extension "svg" then
           text <- of_option "UnicodeDecodeError" (decode_utf8 ext content) ;;
           ret (PreviewSvg text)
         else
           match thumbnail ext content with
           | Some (img_bytes, fmt, dims) =>
               ret (PreviewImage img_bytes fmt dims)
           | None => ret (PreviewError "Unable to process image")
           end
       else if String.eqb file_extension "csv" then
         match read_csv ext content with
         | Some df =>
             ret (PreviewCsv (df_head 100 df) (df_shape df) (df_columns df))
         | None => ret (PreviewError "Unable to parse CSV file")
         end
       else if mem file_extension ["xlsx"; "xls"] then
         match read_excel ext content with
         | Some df =>
             ret (PreviewExcel (df_head 100 df) (df_shape df)
                               (df_columns df))
         | None => ret (PreviewError "Unable to parse Excel file")
         end
       else if String.eqb file_extension "pdf" then
         ret (PreviewPdf "PDF preview not available" file_size)
       else
         ret (PreviewUnknown file_extension file_size))
    (λ e, ret (PreviewError ("Preview failed: " +:+ e))).

Definition generate_presigned_url (self : t) (file_path : string)
    (expiration : Z) : Gw (option string) :=
  try_except
    (url <- Boto3.generate_presigned_url file_path expiration ;;
     ret (Some url))
    (λ e, ret None).

Definition get_folder_size (fuel : nat) (self : t) (folder_path : string)
  : Gw FolderSize :=
  try_except
    (let total_size := 0 in
     let file_count := 0 in
     let folder_path :=
       if negb (endswith folder_path "/") then folder_path +:+ "/"
       else folder_path in
     totals <-
       paginate fuel folder_path None (total_size, file_count)
         (page_loop
            (λ '(total_size, file_count) obj,
               ret (total_size + Size obj, file_count + 1))) ;;
     let '(total_size, file_count) := totals in
     formatted <- _format_size total_size ;;
     ret {| total_size := total_size; file_count := file_count;
            formatted_size := formatted; error := None |})
    (λ e, ret {| total_size := 0; file_count := 0;
                 formatted_size := "0 B"; error := Some e |}).

(** The loop body of [search_files]. *)
Definition search_one (ext : Externals) (search_lower : string)
    (results : list Entry) (obj : ObjectSummary) : Gw (list Entry) :=
  let file_path := Key obj in
  let file_name := last_piece (split slash file_path) in
  if contains search_lower (str_lower ext file_name) then
    sz <- _format_size (Size obj) ;;
    ret (results ++
         [{| name := file_name; path := file_path;
             type := if endswith file_path "/" then Folder else File;
             size := sz; size_bytes := None;
             modified := strftime (SummaryLastModified obj) |}])
  else ret results.

Definition search_files (ext : Externals) (fuel : nat) (self : t)
    (search_term path : string) : Gw (list Entry) :=
  try_except
    (let results := [] in
     let search_prefix :=
       if truthy path then _format_path self (Some path)
       else app_prefix self +:+ "/" in
     let search_lower := str_lower ext search_term in
     paginate fuel search_prefix None results
       (page_loop (search_one ext search_lower)))
    (λ e, ret []).

Definition get_file_metadata (ext : Externals) (self : t)
    (file_path : string) : Gw MetadataResult :=
  try_except
    (response <- head_object file_path ;;
     formatted <- _format_size (ContentLength response) ;;
     let metadata :=
       {| md_size := ContentLength response;
          md_formatted_size := formatted;
          md_content_type := default "Unknown" (ContentType response);
          md_last_modified := strftime (LastModified response);
          md_etag := strip "034"%char (default "" (ETag response));
          md_storage_class := default "STANDARD" (StorageClass response);
          md_metadata := default [] (Metadata response);
          md_mime_type := None |} in
     let mime_type := guess_type ext file_path in
     let metadata :=
       match mime_type with
       | Some mt =>
           if truthy mt then
             {| md_size := md_size metadata;
                md_formatted_size := md_formatted_size metadata;
                md_content_type := md_content_type metadata;
                md_last_modified := md_last_modified metadata;
                md_etag := md_etag metadata;
                md_storage_class := md_storage_class metadata;
                md_metadata := md_metadata metadata;
                md_mime_type := Some mt |}
           else metadata
       | None => metadata
       end in
     ret (MetadataOk metadata))
    (λ e, ret (MetadataError e)).

End S3AdvancedManager.

(** ** The places of [show_main_app] (app.py) that the properties mention *)

Module App.

(** [metadata.get('mime_type', metadata['content_type'])], the value
    written after "Type:" in the information dialog. *)
Definition shown_type (metadata : FileMetadata) : string :=
  match md_mime_type metadata with
  | Some mt => mt
  | None => md_content_type metadata
  end.

(** [results[:10]], the search results that are displayed. *)
Definition shown_results (results : list Entry) : list Entry :=
  take 10 results.

(** The path without the root prefix in front, as the navigation code
    computes it: [path[len(app_prefix):].lstrip('/')] when the path starts
    with the root prefix, the path itself otherwise. *)
Definition relative (self : S3Manager.t) (path : string) : string :=
  if startswith path (S3Manager.app_prefix self) then
    lstrip slash
      (slice_from (String.length (S3Manager.app_prefix self)) path)
  else path.

(** The new [current_path] when a folder of the listing is opened (the
    folder cards and the "Open folder" button). *)
Definition open_folder (self : S3Manager.t) (folder_path : string) : string :=
  let folder_path := rstrip slash folder_path in
  relative self folder_path.

(** The folder of a search result, as "Go to" computes it. *)
Definition parent_path (self : S3Manager.t) (result_path : string) : string :=
  let parent_path := join "/" (but_last (split slash result_path)) in
  relative self parent_path.

(** The "Search Files" expander, which a run reaches only with a
    connected manager. [search_btn] and [goto_btn] are what [st.button]
    returns in this run for "Search" and for the "Go to" of the result
    with the given path. The search runs only when "Search" is pressed
    and the term is not empty; "Go to" is looked at only then, for the
    results shown, and the first one pressed sets the new [current_path],
    which is the result of the computation, and ends the run. *)
Definition search_panel (ext : Externals) (fuel : nat) (self : S3Manager.t)
    (adv : S3AdvancedManager.t) (search_btn : bool) (search_term : string)
    (goto_btn : string → bool) (current_path : string) : Gw string :=
  if negb (S3Manager.connected self) then ret current_path
  else if search_btn && truthy search_term then
    results <- S3AdvancedManager.search_files ext fuel adv search_term
                 current_path ;;
    match find (λ result, goto_btn (path result)) (shown_results results) with
    | Some result => ret (parent_path self (path result))
    | None => ret current_path
    end
  else ret current_path.

(** The breadcrumb buttons after "Home": the label of each and the
    [current_path] it sets. *)
Definition breadcrumbs (self : S3Manager.t) (current_path : string)
  : list (string * string) :=
  if truthy current_path then
    let path_parts := split slash (strip slash current_path) in
    omap (λ '(i, part),
            if truthy part && negb (String.eqb part (S3Manager.app_prefix self))
            then Some (part, join "/" (take (S i) path_parts))
            else None)
         (imap pair path_parts)
  else [].

End App.

(** ** Vocabulary of the properties *)

(** A string is clean when it neither starts nor ends with a slash. *)
Definition clean (s : string) : Prop :=
  startswith s "/" = false ∧ endswith s "/" = false.

(** The inputs on which the formatter's result continues the root prefix
    with a slash: a missing or empty path, and a path whose stripped form
    does not start with the root prefix, is the root prefix, or continues
    it with a slash. *)
Definition rooted_input (app_prefix : string) (path : option string) : Prop :=
  match path with
  | None => True
  | Some p =>
      p = "" ∨
      startswith (strip slash p) app_prefix = false ∨
      strip slash p = app_prefix ∨
      startswith (strip slash p) (app_prefix +:+ "/") = true
  end.

(** The summaries of the listed keys, as a response carries them. *)
Definition summaries (m : gmap string S3Object) (keys : list string)
  : list ObjectSummary :=
  omap (λ k, summary m (Object k)) keys.

(** The world after further requests. *)
Definition with_requests (reqs : list Request) (w : World) : World :=
  fold_left (λ w r, with_request r w) reqs w.

(** A loop body that only computes, and the loop over a list it gives. *)
Fixpoint fold_outcome {A} (g : A → ObjectSummary → outcome A)
    (l : list ObjectSummary) (acc : A) : outcome A :=
  match l with
  | [] => Return acc
  | x :: l' =>
      match g acc x with
      | Return acc' => fold_outcome g l' acc'
      | Raise e => Raise e
      | OutOfFuel => OutOfFuel
      end
  end.

(** The final ['/']-separated segment of a key. *)
Definition final_segment (k : string) : string :=
  last_piece (split slash k).


(** The prefix [search_files] lists under. *)
Definition search_root (self : S3AdvancedManager.t) (rel_path : string)
  : string :=
  if truthy rel_path then S3AdvancedManager._format_path self (Some rel_path)
  else S3AdvancedManager.app_prefix self +:+ "/".

(** Every stored object has a size a float can hold. *)
Definition sane_sizes (m : gmap string S3Object) : Prop :=
  map_Forall (λ _ o, 0 ≤ ContentLength o < 2 ^ 1023) m.

(** The row [search_files] builds for a matching key. *)
Definition search_entry (obj : ObjectSummary) (sz : string) : Entry :=
  {| name := final_segment (Key obj); path := Key obj;
     type := if endswith (Key obj) "/" then Folder else File;
     size := sz; size_bytes := None;
     modified := strftime (SummaryLastModified obj) |}.

(** What the loop body of [search_files] computes. *)
Definition search_step (ext : Externals) (search_lower : string)
    (results : list Entry) (obj : ObjectSummary) : outcome (list Entry) :=
  if contains search_lower (str_lower ext (final_segment (Key obj))) then
    match _format_size (Size obj) with
    | Some sz => Return (results ++ [search_entry obj sz])
    | None => Raise "OverflowError"
    end
  else Return results.

(** The test [search_files] applies to a key. *)
Definition search_match (ext : Externals) (term k : string) : Prop :=
  contains (str_lower ext term) (str_lower ext (final_segment k)) = true.

Global Instance search_match_dec ext term k :
  Decision (search_match ext term k).
Proof. unfold search_match. apply _. Defined.

(** A computation that sends nothing and comes to an end. *)
Definition quiet {A} (c : Gw A) : Prop :=
  ∀ w, ∃ r, c w = (r, w) ∧ r ≠ OutOfFuel.

(** A computation that leaves the world as it is. *)
Definition silent {A} (c : Gw A) : Prop := ∀ w, (c w).2 = w.

(** The requests a computation adds to the log. *)
Definition sends {A} (c : Gw A) (w : World) (reqs : list Request) : Prop :=
  requests (c w).2 = requests w ++ reqs.

(** The keys and prefixes a request names. *)
Definition request_keys (r : Request) : list string :=
  match r with
  | ListObjectsV2 p _ _ => [p]
  | UploadFileobj k | PutObject k | GetObject k | HeadObject k
  | DeleteObject k | GeneratePresignedUrl k _ => [k]
  | DeleteObjects ks => ks
  | CopyObject source k => [source; k]
  end.

Definition rooted (root k : string) : Prop := startswith k root = true.

Definition slash_terminated (k : string) : Prop := endswith k "/" = true.

(** Every key of every request begins with the root prefix. *)
Definition all_rooted (root : string) (reqs : list Request) : Prop :=
  Forall (λ r, Forall (rooted root) (request_keys r)) reqs.

(** Every request is a listing of a slash-terminated prefix. *)
Definition all_folder_listings (reqs : list Request) : Prop :=
  Forall (λ r, ∃ p d tok, r = ListObjectsV2 p d tok ∧ slash_terminated p)
         reqs.

(** Every request a computation adds to the log satisfies [Q]. *)
Definition logs {A} (Q : Request → Prop) (c : Gw A) : Prop :=
  ∀ w, ∃ reqs, sends c w reqs ∧ Forall Q reqs.

(** Every key of the request begins with one of the two prefixes. *)
Definition keys_under_either (P N : string) (r : Request) : Prop :=
  Forall (λ k, startswith k P = true ∨ startswith k N = true)
         (request_keys r).

(** The prefix under which [rename_object] puts the children of the
    folder [old_path]. *)
Definition new_prefix (old_path new_name : string) : string :=
  let path_parts := split slash (rstrip slash old_path) in
  let parent_path := join "/" (but_last path_parts) in
  (if truthy parent_path then parent_path +:+ "/" +:+ new_name
   else new_name) +:+ "/".

(** Neither prefix is a prefix of the other. *)
Definition apart (P N : string) : Prop :=
  startswith N P = false ∧ startswith P N = false.

(** The store [m] is the store [m0] with the keys of [D], all under [P],
    moved under [N] with their suffix kept, as copies made at time
    [stamp], and nothing else changed. *)
Record moved (P N : string) (stamp : datetime) (m0 : gmap string S3Object)
    (D : gset string) (m : gmap string S3Object) : Prop := {
  moved_dom : ∀ k, k ∈ D → is_Some (m0 !! k) ∧ startswith k P = true;
  moved_gone : ∀ k, k ∈ D → m !! k = None;
  moved_rest : ∀ k, startswith k P = true → k ∉ D → m !! k = m0 !! k;
  moved_copy :
    ∀ s, P +:+ s ∈ D → m !! (N +:+ s) = restamp stamp <$> m0 !! (P +:+ s);
  moved_frame :
    ∀ x, startswith x P = false → (∀ s, x = N +:+ s → P +:+ s ∉ D) →
         m !! x = m0 !! x }.

(** The size formatter as the specification words it, on exact numbers:
    divide by 1024 until the value is below 1024 in the current unit or
    the unit is PB, then show the value with one decimal. [d] is the
    divisor reached so far. *)
Fixpoint spec_unit (units : list string) (n d : Z) : string * Z :=
  match units with
  | [] => ("PB", d)
  | unit :: units' =>
      if n <? 1024 * d then (unit, d) else spec_unit units' n (1024 * d)
  end.

Definition spec_format_size (n : Z) : string :=
  let '(unit, d) := spec_unit ["B"; "KB"; "MB"; "GB"; "TB"] n 1 in
  show_tenths false (round_half_even (10 * n) d) +:+ " " +:+ unit.

(** The fact of [s.lower()] that one property relies on: a string is
    empty exactly when its lower-case form is. *)
Definition lower_keeps_empty (ext : Externals) : Prop :=
  ∀ s, str_lower ext s = "" ↔ s = "".

(** A computation that leaves the stored objects as they are. *)
Definition read_only {A} (c : Gw A) : Prop :=
  ∀ w, objects (c w).2 = objects w.

(** The prefix [list_objects] and [create_folder] resolve a path to. *)
Definition listing_root (self : S3Manager.t) (rel_path : string) : string :=
  if truthy rel_path then S3Manager.format_path self (Some rel_path)
  else S3Manager.app_prefix self +:+ "/".

(** The row [list_objects] builds for a file. *)
Definition file_entry (obj : ObjectSummary) (sz : string) : Entry :=
  {| name := final_segment (Key obj); path := Key obj; type := File;
     size := sz; size_bytes := Some (Size obj);
     modified := strftime (SummaryLastModified obj) |}.

(** What the loop body of [list_objects] computes. *)
Definition list_step (full_prefix : string) (files : list Entry)
    (obj : ObjectSummary) : outcome (list Entry) :=
  if String.eqb (Key obj) full_prefix then Return files
  else if negb (truthy (final_segment (Key obj))) then Return files
  else
    match format_size (Size obj) with
    | Some sz => Return (files ++ [file_entry obj sz])
    | None => Raise "OverflowError"
    end.

(** The row of [list_objects] for an object of the page, if it has one:
    the listed prefix itself and keys that end with a slash have none. *)
Definition file_row (full_prefix : string) (obj : ObjectSummary)
  : option Entry :=
  if String.eqb (Key obj) full_prefix then None
  else if negb (truthy (final_segment (Key obj))) then None
  else file_entry obj <$> format_size (Size obj).

(** The entries of the one page that [list_objects] requests. *)
Definition first_page (w : World) (P : string) : list ListItem :=
  take (MaxKeys w)
       (dedup_adjacent
          (rollup P (Some slash) <$> keys_under (objects w) P None)).

(** A file row for an object stored directly under [P]. *)
Definition direct_file (m : gmap string S3Object) (P : string) (e : Entry)
  : Prop :=
  type e = File ∧ name e ≠ "" ∧ contains "/" (name e) = false ∧
  path e = P +:+ name e ∧
  ∃ o, m !! path e = Some o ∧ size_bytes e = Some (ContentLength o) ∧
       format_size (ContentLength o) = Some (size e) ∧
       modified e = strftime (LastModified o).

(** A folder row for a prefix one segment below [P] that holds a stored
    key; the row is named after the segment unless the segment is empty. *)
Definition direct_folder (m : gmap string S3Object) (P : string) (e : Entry)
  : Prop :=
  type e = Folder ∧
  ∃ seg, path e = P +:+ seg +:+ "/" ∧ contains "/" seg = false ∧
         (seg ≠ "" → name e = seg) ∧
         ∃ k, is_Some (m !! k) ∧ startswith k (path e) = true.

(** The row of a folder [full_prefix/folder_name/] in a listing. *)
Definition folder_row (full_prefix folder_name : string) : Entry :=
  {| name := folder_name; path := full_prefix +:+ folder_name +:+ "/";
     type := Folder; size := "-"; size_bytes := None; modified := "-" |}.

(** The prefix [get_folder_size] lists under. *)
Definition folder_prefix (folder_path : string) : string :=
  if endswith folder_path "/" then folder_path else folder_path +:+ "/".

(** The sizes of the objects whose key starts with [P], and their sum. *)
Definition sizes_under (m : gmap string S3Object) (P : string) : list Z :=
  omap (λ k, ContentLength <$> m !! k) (keys_under m P None).

Definition total_under (m : gmap string S3Object) (P : string) : Z :=
  foldr Z.add 0 (sizes_under m P).

(** What the loop body of [get_folder_size] computes. *)
Definition size_step (totals : Z * Z) (obj : ObjectSummary)
  : outcome (Z * Z) :=
  Return (totals.1 + Size obj, totals.2 + 1).

(** The path [rename_object] gives a file. *)
Definition new_path (old_path new_name : string) : string :=
  let path_parts := split slash (rstrip slash old_path) in
  let parent_path := join "/" (but_last path_parts) in
  if truthy parent_path then parent_path +:+ "/" +:+ new_name else new_name.

(** The path [rename_object] computes for the renamed file or folder. *)
Definition renamed (old_path new_name : string) : string :=
  if endswith old_path "/" then new_prefix old_path new_name
  else new_path old_path new_name.

(** [s] is the string [t] or continues it with a slash. *)
Definition at_boundary (t s : string) : Prop :=
  s = t ∨ ∃ r, s = t +:+ "/" +:+ r.

(** ** Sample inputs *)

Module Samples.

Definition stamp : datetime :=
  {| year := 2024; month := 3; day := 7; hour := 9; minute := 5;
     second := 0 |}.

(** An object with the given content. *)
Definition blob (body : string) : S3Object :=
  {| Body := body; ContentLength := Z.of_nat (String.length body);
     ContentType := Some "binary/octet-stream"; LastModified := stamp;
     ETag := None; StorageClass := None; Metadata := None |}.

(** An object of which only the reported size matters. *)
Definition sized (n : Z) : S3Object :=
  {| Body := ""; ContentLength := n;
     ContentType := Some "binary/octet-stream"; LastModified := stamp;
     ETag := None; StorageClass := None; Metadata := None |}.

(** A bucket with the given page size and objects, and no request yet. *)
Definition bucket (page : nat) (l : list (string * S3Object)) : World :=
  {| objects := list_to_map l; requests := []; MaxKeys := page;
     now := stamp; sign := λ _ _, None |}.

Definition manager : S3Manager.t :=
  {| S3Manager.bucket_name := "files";
     S3Manager.app_prefix := "streamlit-app";
     S3Manager.connected := true |}.

Definition advanced : S3AdvancedManager.t :=
  {| S3AdvancedManager.bucket_name := "files";
     S3AdvancedManager.app_prefix := "streamlit-app" |}.

(** UTF-8 decoding of ASCII content, which is its own list of code
    points; other content is refused. *)
Definition decode_ascii (content : string) : option CodePoints :=
  let codes := N_of_ascii <$> list_ascii_of_string content in
  if forallb (λ c, c <? 128)%N codes then Some codes else None.

(** Libraries that are right about ASCII: lowering of the letters A-Z,
    decoding of ASCII content, and one file type, [.txt] is
    [text/plain]. *)
Definition externals : Externals :=
  {| str_lower := ascii_lower;
     guess_type :=
       λ p, if endswith (ascii_lower p) ".txt" then Some "text/plain"
            else None;
     decode_utf8 := decode_ascii;
     thumbnail := λ _, None;
     read_csv := λ _, None;
     read_excel := λ _, None |}.

Definition tree : World :=
  bucket 2 [("streamlit-app/a/report.csv", blob "x,y");
            ("streamlit-app/a/b/Report_final.pdf", blob "%PDF");
            ("streamlit-app/a/other.txt", blob "other");
            ("streamlit-app/a/reports/", blob "")].

(** A folder of 1001 objects in a bucket that lists 1000 keys a page. *)
Definition big_folder : World :=
  bucket 1000
    ((λ i, ("streamlit-app/big/" +:+ pretty (N.of_nat i), sized 1))
       <$> seq 0 1001).

(** A folder with one object. *)
Definition one_child : World :=
  bucket 1000 [("streamlit-app/b/a", blob "1")].

(** A folder that already holds a folder of the name it is renamed to. *)
Definition nested : World :=
  bucket 1000 [("streamlit-app/b/a", blob "1");
               ("streamlit-app/b/z/a", blob "2")].

(** A folder of three objects in a bucket that lists two keys a page. *)
Definition small_pages : World :=
  bucket 2 [("streamlit-app/b/a", blob "1"); ("streamlit-app/b/c", blob "2");
            ("streamlit-app/b/d", blob "3"); ("streamlit-app/x", blob "4")].

End Samples.

(** * Properties *)

(** ** Strings *)

Section string_facts.

Implicit Types (s t p r : string) (a b c : ascii).

Lemma str_app_nil_l s : "" +:+ s = s.
Proof. reflexivity. Qed.

Lemma str_app_cons a s t : String a s +:+ t = String a (s +:+ t).
Proof. reflexivity. Qed.

Lemma str_app_nil_r s : s +:+ "" = s.
Proof. induction s as [|a s IH]; [done|]. by rewrite str_app_cons, IH. Qed.

Lemma str_app_assoc s t r : (s +:+ t) +:+ r = s +:+ (t +:+ r).
Proof.
  induction s as [|a s IH]; [done|]. by rewrite !str_app_cons, IH.
Qed.

Lemma str_app_eq_nil s t : s +:+ t = "" → s = "" ∧ t = "".
Proof. destruct s; [by rewrite str_app_nil_l|by rewrite str_app_cons]. Qed.

Lemma truthy_true s : truthy s = true ↔ s ≠ "".
Proof. by destruct s. Qed.

Lemma startswith_nil s : startswith s "" = true.
Proof. by destruct s. Qed.

Lemma startswith_spec s p : startswith s p = true ↔ ∃ r, s = p +:+ r.
Proof.
  revert s. induction p as [|a p IH]; intros s.
  - rewrite startswith_nil. split; [|done]. by exists s.
  - destruct s as [|b s]; simpl.
    + split; [done|]. intros [r Hr]. by rewrite str_app_cons in Hr.
    + rewrite andb_true_iff, IH, Ascii.eqb_eq. split.
      * intros [-> [r ->]]. by exists r.
      * intros [r Hr]. rewrite str_app_cons in Hr. simplify_eq. eauto.
Qed.

Lemma startswith_app p r : startswith (p +:+ r) p = true.
Proof. apply startswith_spec. by exists r. Qed.

Lemma startswith_refl s : startswith s s = true.
Proof. apply startswith_spec. exists "". by rewrite str_app_nil_r. Qed.

Lemma str_app_inv_head s t r : s +:+ t = s +:+ r → t = r.
Proof. apply (inj (String.app s)). Qed.

Lemma endswith_spec s suf : endswith s suf = true ↔ ∃ r, s = r +:+ suf.
Proof.
  induction s as [|a s IH]; cbn [endswith].
  - rewrite orb_false_r, String.eqb_eq. split.
    + intros <-. by exists "".
    + intros [r Hr]. symmetry in Hr. by apply str_app_eq_nil in Hr as [_ ->].
  - rewrite orb_true_iff, IH, String.eqb_eq. split.
    + intros [<-|[r ->]]; [by exists ""|]. by exists (String a r).
    + intros [[|b r] Hr]; [left; by rewrite Hr|right].
      rewrite str_app_cons in Hr. simplify_eq. eauto.
Qed.

Lemma endswith_app r suf : endswith (r +:+ suf) suf = true.
Proof. apply endswith_spec. by exists r. Qed.

(** A string ends with the character [c] exactly when it is some string
    followed by [c]. *)
Lemma endswith_app_char s t c :
  t ≠ "" → endswith (s +:+ t) (String c "") = endswith t (String c "").
Proof.
  intros Ht. apply eq_true_iff_eq. rewrite !endswith_spec. split.
  - intros [r Hr]. revert r Hr. induction s as [|a s IH]; intros r Hr.
    + rewrite str_app_nil_l in Hr. eauto.
    + destruct r as [|b r].
      * rewrite str_app_cons, str_app_nil_l in Hr. simplify_eq.
        match goal with H : _ +:+ _ = "" |- _ =>
          apply str_app_eq_nil in H as [_ ?] end. done.
      * rewrite !str_app_cons in Hr. simplify_eq. eauto.
  - intros [r ->]. exists (s +:+ r). by rewrite str_app_assoc.
Qed.

Lemma startswith_app_char s t c :
  s ≠ "" → startswith (s +:+ t) (String c "") = startswith s (String c "").
Proof.
  destruct s as [|a s]; [done|]. intros _. rewrite str_app_cons. simpl.
  by rewrite !startswith_nil.
Qed.

(** *** Stripping *)

Lemma lstrip_no_lead c s : startswith (lstrip c s) (String c "") = false.
Proof.
  induction s as [|a s IH]; [done|]. simpl.
  destruct (Ascii.eqb a c) eqn:E; [done|]. simpl.
  rewrite Ascii.eqb_sym. by rewrite E.
Qed.

Lemma lstrip_id c s :
  startswith s (String c "") = false → lstrip c s = s.
Proof.
  destruct s as [|a s]; [done|]. simpl. rewrite startswith_nil, andb_true_r.
  rewrite Ascii.eqb_sym. by intros ->.
Qed.

Lemma rstrip_no_trail c s : endswith (rstrip c s) (String c "") = false.
Proof.
  apply not_true_iff_false. rewrite endswith_spec. intros [r Hr].
  revert r Hr. induction s as [|a s IH]; intros r Hr; simpl in Hr.
  - symmetry in Hr. by apply str_app_eq_nil in Hr as [_ ?].
  - destruct (Ascii.eqb a c && negb (truthy (rstrip c s))) eqn:E.
    + symmetry in Hr. by apply str_app_eq_nil in Hr as [_ ?].
    + destruct r as [|b r].
      * rewrite str_app_nil_l in Hr. simplify_eq.
        match goal with H : rstrip _ _ = "" |- _ => rewrite H in E end.
        by rewrite Ascii.eqb_refl in E.
      * rewrite str_app_cons in Hr. simplify_eq. eauto.
Qed.

Lemma rstrip_id c s :
  endswith s (String c "") = false → rstrip c s = s.
Proof.
  induction s as [|a s IH]; [done|]. simpl.
  intros [H1 H2]%orb_false_iff. rewrite (IH H2).
  destruct (Ascii.eqb a c) eqn:E; [|done]. simpl.
  apply Ascii.eqb_eq in E as ->. destruct s; [|done].
  by rewrite String.eqb_refl in H1.
Qed.

Lemma rstrip_keeps_lead c s :
  startswith s (String c "") = false →
  startswith (rstrip c s) (String c "") = false.
Proof.
  destruct s as [|a s]; [done|]. simpl.
  rewrite !startswith_nil, !andb_true_r. intros E.
  rewrite (Ascii.eqb_sym a c), E. simpl. by rewrite startswith_nil, andb_true_r.
Qed.

Lemma rstrip_app_char c s :
  s ≠ "" → endswith s (String c "") = false →
  rstrip c (s +:+ String c "") = s.
Proof.
  induction s as [|a s IH]; [done|]. intros _. simpl.
  intros [H1 H2]%orb_false_iff.
  destruct s as [|b s].
  - simpl. rewrite Ascii.eqb_refl. simpl.
    by destruct (Ascii.eqb a c) eqn:E.
  - rewrite IH by done. by rewrite andb_false_r.
Qed.

Lemma strip_clean s : clean (strip slash s).
Proof.
  split; unfold strip.
  - apply rstrip_keeps_lead, lstrip_no_lead.
  - apply rstrip_no_trail.
Qed.

Lemma strip_app_slash s : clean s → strip slash (s +:+ "/") = s.
Proof.
  intros [H1 H2]. unfold strip. destruct (decide (s = "")) as [->|Hs].
  - done.
  - rewrite (lstrip_id slash) by (by rewrite startswith_app_char).
    by apply (rstrip_app_char slash).
Qed.

End string_facts.

Section more_string_facts.

Implicit Types (s t p r sub : string) (a b c : ascii).

Lemma contains_spec sub s :
  contains sub s = true ↔ ∃ pre post, s = pre +:+ sub +:+ post.
Proof.
  induction s as [|a s IH]; cbn [contains].
  - rewrite orb_false_r, startswith_spec. split.
    + intros [r Hr]. exists "", r. by rewrite str_app_nil_l.
    + intros (pre & post & Hs). symmetry in Hs.
      apply str_app_eq_nil in Hs as [_ Hs]. exists post. done.
  - rewrite orb_true_iff, IH, startswith_spec. split.
    + intros [[r Hr]|(pre & post & ->)].
      * exists "", r. by rewrite str_app_nil_l.
      * by exists (String a pre), post.
    + intros ([|b pre] & post & Hs).
      * left. exists post. by rewrite str_app_nil_l in Hs.
      * right. rewrite str_app_cons in Hs. simplify_eq. eauto.
Qed.

Lemma contains_nil_r sub : contains sub "" = true → sub = "".
Proof. by destruct sub. Qed.

Lemma split_nonempty c s : split c s ≠ [].
Proof.
  destruct s as [|a s]; [done|]. simpl.
  destruct (split c s); [done|]. by destruct (Ascii.eqb a c).
Qed.

(** Splitting distributes over a separator. *)
Lemma split_app c s t :
  split c (s +:+ String c t) = split c s ++ split c t.
Proof.
  induction s as [|a s IH].
  - rewrite str_app_nil_l. cbn [split]. rewrite Ascii.eqb_refl.
    pose proof (split_nonempty c t). by destruct (split c t).
  - rewrite str_app_cons. cbn [split]. rewrite IH.
    pose proof (split_nonempty c s). destruct (split c s) as [|h tl]; [done|].
    simpl. by destruct (Ascii.eqb a c).
Qed.

Lemma split_no_sep c s :
  contains (String c "") s = false → split c s = [s].
Proof.
  induction s as [|a s IH]; [done|]. cbn [contains startswith split].
  rewrite startswith_nil, andb_true_r.
  intros [Hac Hs]%orb_false_iff. rewrite (IH Hs).
  rewrite Ascii.eqb_sym in Hac. by rewrite Hac.
Qed.

Lemma join_split c s : join (String c "") (split c s) = s.
Proof.
  induction s as [|a s IH]; [done|]. cbn [split].
  pose proof (split_nonempty c s).
  destruct (split c s) as [|h tl]; [done|].
  unfold join in *. destruct (Ascii.eqb_spec a c) as [->|].
  - change (String.concat (String c "") ("" :: h :: tl))
      with ("" +:+ String c "" +:+ String.concat (String c "") (h :: tl)).
    by rewrite IH.
  - destruct tl as [|h' tl]; [simpl in *; by rewrite IH|].
    change (String.concat (String c "") (String a h :: h' :: tl))
      with (String a (h +:+ String c "" +:+
                      String.concat (String c "") (h' :: tl))).
    f_equal. exact IH.
Qed.

Lemma last_piece_app (l1 l2 : list string) :
  l2 ≠ [] → last_piece (l1 ++ l2) = last_piece l2.
Proof.
  intros Hl2. unfold last_piece.
  destruct (exists_last Hl2) as (l' & x & ->).
  by rewrite List.app_assoc, !last_last.
Qed.

Lemma final_segment_slash k :
  endswith k "/" = true → final_segment k = "".
Proof.
  intros [r ->]%endswith_spec. unfold final_segment.
  change (r +:+ "/") with (r +:+ String slash "").
  rewrite (split_app slash r ""). by rewrite last_piece_app.
Qed.

End more_string_facts.

(** ** The path formatter *)

Example format_path_relative :
  format_path "streamlit-app" (Some "docs/2024") = "streamlit-app/docs/2024/".
Proof. reflexivity. Qed.

Lemma format_path_same : _format_path = format_path.
Proof. reflexivity. Qed.

Section format_path_facts.

Variable A : string.

Lemma format_path_truthy p :
  p ≠ "" →
  format_path A (Some p) =
    let x := if startswith (strip slash p) A then strip slash p
             else A +:+ "/" +:+ strip slash p in
    if endswith x "/" then x else x +:+ "/".
Proof.
  intros Hp. unfold format_path. apply truthy_true in Hp as ->. simpl.
  destruct (startswith (strip slash p) A); simpl;
    by destruct (endswith _ "/").
Qed.

(** The result is a clean string that starts with the root prefix,
    followed by one slash, when the root prefix is clean itself. *)
Lemma format_path_normal path :
  clean A →
  ∃ q, clean q ∧ startswith q A = true ∧ format_path A path = q +:+ "/".
Proof.
  intros HA.
  assert (∃ q, clean q ∧ startswith q A = true ∧ A +:+ "/" = q +:+ "/")
    as Hroot by (exists A; eauto using startswith_refl).
  destruct path as [p|]; [|done].
  destruct (decide (p = "")) as [->|Hp]; [done|].
  rewrite format_path_truthy by done. cbv zeta.
  pose proof (strip_clean p) as Hq. set (q := strip slash p) in *.
  destruct (startswith q A) eqn:Hst.
  - exists q. by rewrite (proj2 Hq).
  - assert (A ≠ "") as HAne by (intros ->; by rewrite startswith_nil in Hst).
    destruct (decide (q = "")) as [->|Hqne].
    + rewrite str_app_nil_r, endswith_app. done.
    + assert (endswith (A +:+ "/" +:+ q) "/" = false) as He.
      { rewrite endswith_app_char by (by destruct q).
        rewrite (endswith_app_char "/") by done. apply Hq. }
      rewrite He. exists (A +:+ "/" +:+ q).
      split; [split; [|done]|split; [|done]].
      * rewrite startswith_app_char by done. apply HA.
      * apply startswith_app.
Qed.

Lemma format_path_fixed q :
  clean q → startswith q A = true →
  format_path A (Some (q +:+ "/")) = q +:+ "/".
Proof.
  intros Hq Hst. rewrite format_path_truthy by (by destruct q).
  cbv zeta. rewrite strip_app_slash, Hst by done. by rewrite (proj2 Hq).
Qed.

End format_path_facts.

(** C3, as the code has it: for every input, missing and empty included,
    the formatter returns a non-empty string that begins with the root
    prefix and ends with a slash, and it rejects nothing; the result begins
    with the root prefix followed by a slash exactly on the inputs of
    [rooted_input]. Both copies of the formatter agree. *)
Theorem format_path_shape (app_prefix : string) (path : option string) :
  _format_path app_prefix path = format_path app_prefix path ∧
  format_path app_prefix path ≠ "" ∧
  startswith (format_path app_prefix path) app_prefix = true ∧
  endswith (format_path app_prefix path) "/" = true ∧
  (startswith (format_path app_prefix path) (app_prefix +:+ "/") = true
   ↔ rooted_input app_prefix path).
Proof.
  split; [by rewrite format_path_same|].
  assert (path = None ∨ path = Some "" ∨ ∃ p, p ≠ "" ∧ path = Some p)
    as [->|[->|(p & Hp & ->)]].
  { destruct path as [p|]; [|by left]. right.
    destruct (decide (p = "")) as [->|]; eauto. }
  - split_and!; [by intros [_ ?]%str_app_eq_nil|apply startswith_app|
                 apply endswith_app|]. split; [done|]. intros _.
    apply startswith_refl.
  - split_and!; [by intros [_ ?]%str_app_eq_nil|apply startswith_app|
                 apply endswith_app|]. split; [by left|]. intros _.
    apply startswith_refl.
  - rewrite format_path_truthy by done. cbv zeta. unfold rooted_input.
    pose proof (strip_clean p) as Hq.
    generalize dependent (strip slash p). intros q Hq.
    destruct (startswith q app_prefix) eqn:Hst.
    + rewrite (proj2 Hq).
      split_and!; [by intros [_ ?]%str_app_eq_nil| |apply endswith_app|].
      { apply startswith_spec in Hst as [r ->]. rewrite str_app_assoc.
        apply startswith_app. }
      apply startswith_spec in Hst as [r' Hr']. split.
      * intros [r Hr]%startswith_spec. right. right.
        rewrite Hr' in Hr. rewrite !str_app_assoc in Hr.
        apply str_app_inv_head in Hr. destruct r' as [|c r'].
        { left. by rewrite Hr', str_app_nil_r. }
        right. simpl in Hr. simplify_eq.
        apply startswith_spec. exists r'. by rewrite str_app_assoc.
      * intros [?|[?|[Heq|Hsl]]]; [done|done| |].
        -- rewrite Heq. apply startswith_refl.
        -- apply startswith_spec in Hsl as [r Hr]. rewrite Hr.
           rewrite (str_app_assoc (app_prefix +:+ "/")). apply startswith_app.
    + set (x := app_prefix +:+ "/" +:+ q).
      assert (∃ t, (if endswith x "/" then x else x +:+ "/") = x +:+ t
                   ∧ endswith (x +:+ t) "/" = true ∧ x +:+ t ≠ "")
        as (t & -> & Hend & Hne).
      { destruct (endswith x "/") eqn:E.
        - exists "". rewrite str_app_nil_r. split_and!; [done..|].
          intros Hx0. by rewrite Hx0 in E.
        - exists "/". split_and!; [done|apply endswith_app|].
          by intros [_ ?]%str_app_eq_nil. }
      unfold x in *. split_and!; [done| |done|].
      { rewrite str_app_assoc. apply startswith_app. }
      split; [by right; left|]. intros _.
      rewrite <- (str_app_assoc app_prefix "/" q), str_app_assoc.
      apply startswith_app.
Qed.

(** C3 as the claim has it fails on a path that merely begins with the
    characters of the root prefix: it is returned without the root prefix
    and a slash in front. *)
Lemma format_path_lookalike_not_rooted :
  format_path "streamlit-app" (Some "streamlit-apple") = "streamlit-apple/" ∧
  startswith (format_path "streamlit-app" (Some "streamlit-apple"))
             ("streamlit-app" +:+ "/") = false.
Proof. split; reflexivity. Qed.

(** C4, as the code has it: the formatter is idempotent for a root
    prefix that is a clean name (no slash at either end, as the default
    ["streamlit-app"]), and a clean path that starts with the root prefix
    and is followed by one slash is returned unchanged. *)
Theorem format_path_idempotent (app_prefix : string) (path : option string) :
  startswith app_prefix "/" = false →
  endswith app_prefix "/" = false →
  format_path app_prefix (Some (format_path app_prefix path))
    = format_path app_prefix path ∧
  _format_path app_prefix (Some (_format_path app_prefix path))
    = _format_path app_prefix path ∧
  (∀ q, clean q → startswith q app_prefix = true →
        format_path app_prefix (Some (q +:+ "/")) = q +:+ "/").
Proof.
  intros H1 H2.
  destruct (format_path_normal app_prefix path) as (q & Hq & Hst & Heq);
    [done|].
  rewrite format_path_same, Heq.
  split_and!; [by apply format_path_fixed..|].
  intros q' ??. by apply format_path_fixed.
Qed.

Lemma format_path_idempotent_witness :
  format_path "streamlit-app"
    (Some (format_path "streamlit-app" (Some "/docs//2024//")))
  = format_path "streamlit-app" (Some "/docs//2024//").
Proof.
  refine (proj1 (format_path_idempotent "streamlit-app"
                   (Some "/docs//2024//") _ _)); reflexivity.
Defined.

(** C4 as the claim has it fails in both parts. With a root prefix that
    ends with a slash the formatter is not idempotent: the second pass
    strips the slashes of the first result, no longer finds the root
    prefix in front and adds it again. And a path that starts with the
    default root prefix and ends with a slash is changed when it ends
    with more than one. *)
Lemma format_path_not_idempotent :
  format_path "data/" None = "data//" ∧
  format_path "data/" (Some (format_path "data/" None)) = "data//data/" ∧
  _format_path "data/" (Some (_format_path "data/" None)) = "data//data/" ∧
  format_path "streamlit-app" (Some "streamlit-app/docs//")
    = "streamlit-app/docs/".
Proof. by split_and!. Qed.

(** ** The size formatter *)

Lemma format_size_same : _format_size = format_size.
Proof. reflexivity. Qed.

Section format_size_facts.

Lemma format_size_loop_cons unit units x :
  format_size_loop (unit :: units) x =
    if lt_1024 x then
      match format_1f x with
      | Some s => Some (s +:+ " " +:+ unit)
      | None => None
      end
    else
      match div_1024 x with
      | Some x' => format_size_loop units x'
      | None => None
      end.
Proof. reflexivity. Qed.

Lemma spec_unit_cons unit units n d :
  spec_unit (unit :: units) n d =
    if n <? 1024 * d then (unit, d) else spec_unit units n (1024 * d).
Proof. reflexivity. Qed.

Lemma round_half_even_1 a : round_half_even a 1 = a.
Proof.
  unfold round_half_even. rewrite Z.div_1_r, Z.mod_1_r. simpl.
  reflexivity.
Qed.

Lemma float_of_int_small n :
  0 ≤ n < 2 ^ 53 → float_of_int n = Some (n, 0).
Proof.
  intros Hn. unfold float_of_int. rewrite Z.abs_eq by lia.
  destruct (Z.ltb_spec n (2 ^ 53)); [done|lia].
Qed.

(** Beyond 53 bits the conversion keeps a 53-bit significand and a
    positive exponent, and does not overflow below [2^1023]. *)
Lemma float_of_int_large n :
  2 ^ 53 ≤ n < 2 ^ 1023 →
  ∃ m e, float_of_int n = Some (m, e) ∧ 2 ^ 52 ≤ m ∧ 1 ≤ e.
Proof.
  intros Hn. unfold float_of_int. rewrite Z.abs_eq by lia.
  destruct (Z.ltb_spec n (2 ^ 53)); [lia|].
  assert (0 < n) as Hpos by lia.
  pose proof (Z.log2_spec n Hpos) as [Hlo Hhi].
  assert (53 ≤ Z.log2 n) as Hl53 by (apply Z.log2_le_pow2; lia).
  assert (Z.log2 n < 1023) as Hl1023 by (apply Z.log2_lt_pow2; lia).
  set (e := Z.log2 n - 52) in *.
  assert (1 ≤ e) as He by lia.
  assert (0 < 2 ^ e) as Hpe by (apply Z.pow_pos_nonneg; lia).
  assert (2 ^ Z.log2 n = 2 ^ 52 * 2 ^ e) as Hsplit.
  { rewrite <- Z.pow_add_r by lia. f_equal. lia. }
  assert (2 ^ Z.succ (Z.log2 n) = 2 ^ 53 * 2 ^ e) as Hsplit'.
  { rewrite <- Z.pow_add_r by lia. f_equal. lia. }
  assert (2 ^ 52 ≤ n / 2 ^ e) as Hq1.
  { apply Z.div_le_lower_bound; lia. }
  assert (n / 2 ^ e < 2 ^ 53) as Hq2.
  { apply Z.div_lt_upper_bound; lia. }
  set (m := if (_ || _ : bool) then n / 2 ^ e + 1 else n / 2 ^ e).
  assert (2 ^ 52 ≤ m ≤ 2 ^ 53) as Hm by (unfold m; destruct (_ || _); lia).
  assert (m * 2 ^ e < 2 ^ 1024) as Hov.
  { apply Z.le_lt_trans with (2 ^ 53 * 2 ^ e); [nia|].
    rewrite <- Hsplit'. apply Z.pow_lt_mono_r; lia. }
  destruct (Z.leb_spec (2 ^ 1024) (m * 2 ^ e)); [lia|].
  exists m, e. rewrite Z.sgn_pos by lia. split; [f_equal; f_equal; lia|].
  lia.
Qed.

(** After [k >= 1] divisions of an exactly converted size, the loop
    agrees with the exact unit selection. *)
Lemma format_size_loop_exact units n k :
  0 ≤ n → 1 ≤ k →
  format_size_loop units (PyFloat n (- (10 * k))) =
    Some (let '(unit, d) := spec_unit units n (1024 ^ k) in
          show_tenths false (round_half_even (10 * n) d) +:+ " " +:+ unit).
Proof.
  intros Hn. revert k. induction units as [|u units IH]; intros k Hk.
  - simpl. unfold tenths. rewrite Z.abs_eq by lia.
    destruct (Z.leb_spec 0 (- (10 * k))); [lia|].
    destruct (Z.ltb_spec n 0); [lia|].
    rewrite Z.opp_involutive, Z.pow_mul_r by lia. done.
  - cbn [format_size_loop spec_unit lt_1024 div_1024 format_1f].
    destruct (Z.leb_spec 0 (- (10 * k))); [lia|].
    rewrite Z.opp_involutive, Z.pow_mul_r by lia.
    change (2 ^ 10) with 1024.
    destruct (n <? 1024 * 1024 ^ k).
    + unfold tenths. rewrite Z.abs_eq by lia.
      destruct (Z.leb_spec 0 (- (10 * k))); [lia|].
      destruct (Z.ltb_spec n 0); [lia|].
      rewrite Z.opp_involutive, Z.pow_mul_r by lia. done.
    + replace (- (10 * k) - 10) with (- (10 * (k + 1))) by lia.
      rewrite IH by lia. rewrite Z.pow_add_r, Z.pow_1_r by lia.
      by rewrite (Z.mul_comm (1024 ^ k)).
Qed.

Lemma format_size_exact n :
  0 ≤ n < 2 ^ 53 → format_size n = Some (spec_format_size n).
Proof.
  intros Hn. unfold format_size, spec_format_size.
  rewrite format_size_loop_cons, spec_unit_cons.
  cbn [lt_1024 div_1024 format_1f].
  rewrite float_of_int_small by done. rewrite Z.mul_1_r.
  destruct (Z.ltb_spec n 1024).
  - unfold tenths. rewrite Z.abs_eq by lia. change (0 <=? 0) with true.
    cbv iota. rewrite Z.pow_0_r, Z.mul_1_r, round_half_even_1.
    destruct (Z.ltb_spec n 0); [lia|done].
  - change (0 - 10) with (- (10 * 1)).
    rewrite format_size_loop_exact by lia. by rewrite Z.pow_1_r.
Qed.

(** A significand of at least 52 bits stays at or above 1024 for as
    long as the exponent is not below -42. *)
Lemma format_size_loop_big units m e :
  2 ^ 52 ≤ m → -42 ≤ e - 10 * (Z.of_nat (length units) - 1) →
  format_size_loop units (PyFloat m e) =
    Some (show_tenths false (tenths m (e - 10 * Z.of_nat (length units)))
          +:+ " PB").
Proof.
  intros Hm. revert e. induction units as [|u units IH]; intros e He.
  - cbn [format_size_loop format_1f length]. rewrite Z.sub_0_r.
    destruct (Z.ltb_spec m 0); [lia|done].
  - cbn [format_size_loop lt_1024 div_1024].
    rewrite length_cons, Nat2Z.inj_succ in *.
    assert ((if 0 <=? e then m * 2 ^ e <? 1024 else m <? 1024 * 2 ^ (- e))
            = false) as ->.
    { destruct (Z.leb_spec 0 e).
      - apply Z.ltb_ge.
        assert (0 < 2 ^ e) by (apply Z.pow_pos_nonneg; lia). nia.
      - apply Z.ltb_ge.
        assert (2 ^ (- e) ≤ 2 ^ 42) by (apply Z.pow_le_mono_r; lia).
        lia. }
    rewrite IH by lia.
    replace (e - 10 - 10 * Z.of_nat (length units))
      with (e - 10 * Z.succ (Z.of_nat (length units))) by lia.
    done.
Qed.

Lemma format_size_large n :
  2 ^ 53 ≤ n < 2 ^ 1023 →
  ∃ d, format_size n = Some (d +:+ " PB").
Proof.
  intros Hn. destruct (float_of_int_large n Hn) as (m & e & Hf & Hm & He).
  unfold format_size. rewrite format_size_loop_cons.
  cbn [lt_1024 div_1024].
  destruct (Z.ltb_spec n 1024); [lia|]. rewrite Hf.
  rewrite format_size_loop_big by (simpl; lia). eauto.
Qed.

Lemma spec_format_size_PB n :
  1024 ^ 5 ≤ n →
  spec_format_size n =
    show_tenths false (round_half_even (10 * n) (1024 ^ 5)) +:+ " PB".
Proof.
  intros Hn. unfold spec_format_size. cbn [spec_unit].
  repeat match goal with
         | |- context [?a <? ?b] =>
             destruct (Z.ltb_spec a b); [lia|]
         end.
  done.
Qed.

(** The rounding of [.1f] yields the integer nearest to the quotient,
    the even one of the two when the quotient lies half way. *)
Lemma round_half_even_nearest a b :
  0 ≤ a → 0 < b →
  2 * Z.abs (a - round_half_even a b * b) ≤ b ∧
  (2 * Z.abs (a - round_half_even a b * b) = b →
   Z.even (round_half_even a b) = true).
Proof.
  intros Ha Hb. unfold round_half_even.
  pose proof (Z.div_mod a b ltac:(lia)) as Hdiv.
  pose proof (Z.mod_pos_bound a b Hb) as Hmod.
  set (q := a / b) in *. set (r := a mod b) in *.
  assert (a - q * b = r) as Hq by lia.
  assert (a - (q + 1) * b = r - b) as Hq1 by lia.
  destruct (Z.ltb_spec b (2 * r)) as [Hlt|Hge]; cbn [orb].
  - rewrite Hq1. split; [lia|]. lia.
  - destruct (Z.eqb_spec (2 * r) b) as [Heq|Hne]; cbn [andb].
    + destruct (Z.odd q) eqn:Hodd.
      * rewrite Hq1. split; [lia|]. intros _.
        by rewrite Z.add_1_r, Z.even_succ.
      * rewrite Hq. split; [lia|]. intros _.
        by rewrite <- Z.negb_odd, Hodd.
    + rewrite Hq. split; [lia|]. lia.
Qed.

(** The unit the exact selection arrives at is the first of B, KB, MB,
    GB, TB in which the value is below 1024, and PB when there is
    none. *)
Lemma spec_unit_cases n :
  0 ≤ n →
  ∃ (i : nat) unit d,
    spec_unit ["B"; "KB"; "MB"; "GB"; "TB"] n 1 = (unit, d) ∧
    ["B"; "KB"; "MB"; "GB"; "TB"; "PB"] !! i = Some unit ∧
    d = 1024 ^ Z.of_nat i ∧
    ((i < 5)%nat → n < 1024 * d) ∧ ((0 < i)%nat → d ≤ n).
Proof.
  intros Hn. cbn [spec_unit].
  destruct (Z.ltb_spec n (1024 * 1));
    [exists 0%nat, "B", 1; split_and!; [done..|lia|lia]|].
  destruct (Z.ltb_spec n (1024 * (1024 * 1)));
    [exists 1%nat, "KB", (1024 * 1); split_and!; [done..|lia|lia]|].
  destruct (Z.ltb_spec n (1024 * (1024 * (1024 * 1))));
    [exists 2%nat, "MB", (1024 * (1024 * 1));
     split_and!; [done..|lia|lia]|].
  destruct (Z.ltb_spec n (1024 * (1024 * (1024 * (1024 * 1)))));
    [exists 3%nat, "GB", (1024 * (1024 * (1024 * 1)));
     split_and!; [done..|lia|lia]|].
  destruct (Z.ltb_spec n (1024 * (1024 * (1024 * (1024 * (1024 * 1))))));
    [exists 4%nat, "TB", (1024 * (1024 * (1024 * (1024 * 1))));
     split_and!; [done..|lia|lia]|].
  exists 5%nat, "PB", (1024 * (1024 * (1024 * (1024 * (1024 * 1))))).
  split_and!; [done..|lia|lia].
Qed.

End format_size_facts.

Example format_size_half_even : format_size 1280 = Some "1.2 KB".
Proof. reflexivity. Qed.

Example format_size_below_MB : format_size 1048575 = Some "1024.0 KB".
Proof. reflexivity. Qed.

(** C9: the four values of the table, and four values whose decimal is
    not 0; below [2^53], where a float holds the size exactly, the
    formatter is the exact unit selection by repeated division by 1024
    shown with one decimal. That result is pinned without the formatter's
    own parts: the unit is the [i]-th of B, KB, MB, GB, TB, PB, where [i]
    is the first with [n < 1024^(i+1)] and 5 when there is none; [t] is
    the integer nearest to [10 n / 1024^i], the even one of two equally
    near; and what is shown is the decimal numeral of [t / 10], a point,
    the one digit [t mod 10], a space and the unit. From [1024^5] on the
    unit is PB. Sizes are taken below [2^1023]: beyond the range of a
    float Python raises instead of returning. *)
Theorem format_size_table (n : Z) :
  0 ≤ n < 2 ^ 1023 →
  (format_size 0 = Some "0.0 B" ∧
   format_size 1023 = Some "1023.0 B" ∧
   format_size 1024 = Some "1.0 KB" ∧
   format_size 1048576 = Some "1.0 MB") ∧
  (format_size 1536 = Some "1.5 KB" ∧
   format_size 1280 = Some "1.2 KB" ∧
   format_size 1792 = Some "1.8 KB" ∧
   format_size 123456789 = Some "117.7 MB") ∧
  _format_size n = format_size n ∧
  (n < 2 ^ 53 → format_size n = Some (spec_format_size n)) ∧
  (n < 2 ^ 53 →
   ∃ (i : nat) unit d t,
     ["B"; "KB"; "MB"; "GB"; "TB"; "PB"] !! i = Some unit ∧
     d = 1024 ^ Z.of_nat i ∧
     ((i < 5)%nat → n < 1024 * d) ∧ ((0 < i)%nat → d ≤ n) ∧
     2 * Z.abs (10 * n - t * d) ≤ d ∧
     (2 * Z.abs (10 * n - t * d) = d → Z.even t = true) ∧
     format_size n =
       Some (pretty (Z.to_N (t / 10)) +:+ "." +:+
             pretty (Z.to_N (t mod 10)) +:+ " " +:+ unit)) ∧
  (1024 ^ 5 ≤ n → ∃ d, format_size n = Some (d +:+ " PB")).
Proof.
  intros Hn. split; [by split_and!|]. split; [by split_and!|].
  split; [by rewrite format_size_same|]. split_and!.
  - intros ?. apply format_size_exact. lia.
  - intros ?. rewrite format_size_exact by lia. unfold spec_format_size.
    destruct (spec_unit_cases n) as (i & unit & d & -> & Hi & Hd & Hlt & Hge);
      [lia|].
    assert (0 < d) as Hpos by (rewrite Hd; apply Z.pow_pos_nonneg; lia).
    destruct (round_half_even_nearest (10 * n) d) as [Hnear Htie];
      [lia|done|].
    exists i, unit, d, (round_half_even (10 * n) d).
    split_and!; [done..|]. unfold show_tenths.
    by rewrite str_app_nil_l, !str_app_assoc.
  - intros Hbig. destruct (Z.lt_ge_cases n (2 ^ 53)).
    + rewrite format_size_exact, spec_format_size_PB by lia. eauto.
    + apply format_size_large. lia.
Qed.

Lemma format_size_table_witness :
  ∃ d, format_size (3 * 1024 ^ 5 + 1) = Some (d +:+ " PB").
Proof.
  refine (proj2 (proj2 (proj2 (proj2 (proj2
            (format_size_table (3 * 1024 ^ 5 + 1) _))))) _);
    [split|]; [done| |done]. reflexivity.
Defined.

(** ** Listings *)

Section listing_facts.

Implicit Types (m : gmap string S3Object) (k t P : string)
  (tok : option string) (l : list string).

Lemma after_token_Some t k : after_token (Some t) k = true ↔ ¬ String.le k t.
Proof.
  unfold String.le. simpl. rewrite negb_true_iff.
  destruct (String.leb k t); simpl; naive_solver.
Qed.

Lemma after_token_trans tok t k :
  after_token tok t = true → after_token (Some t) k = true →
  after_token tok k = true.
Proof.
  destruct tok as [t0|]; [|done]. rewrite !after_token_Some.
  intros H1 H2 H3. apply H1.
  destruct (total String.le t k) as [Htk|Hkt]; [|done].
  by trans k.
Qed.

Lemma listed_iff P tok k :
  listed P tok k ↔ startswith k P = true ∧ after_token tok k = true.
Proof. unfold listed. by rewrite andb_true_iff. Qed.

Lemma elem_of_keys_under m P tok k :
  k ∈ keys_under m P tok ↔
    is_Some (m !! k) ∧ startswith k P = true ∧ after_token tok k = true.
Proof.
  unfold keys_under. rewrite merge_sort_Permutation, list_elem_of_filter.
  rewrite listed_iff, list_elem_of_fmap. split.
  - intros [? ([k' o] & -> & Hin)]. apply elem_of_map_to_list in Hin.
    simpl in *. eauto.
  - intros [[o Ho] ?]. split; [done|]. exists (k, o). split; [done|].
    by apply elem_of_map_to_list.
Qed.

Lemma keys_under_NoDup m P tok : NoDup (keys_under m P tok).
Proof.
  unfold keys_under. rewrite merge_sort_Permutation.
  apply NoDup_filter, NoDup_fst_map_to_list.
Qed.

Lemma keys_under_sorted m P tok : StronglySorted String.le (keys_under m P tok).
Proof. apply (StronglySorted_merge_sort _). Qed.

(** A sorted duplicate-free list with the right elements is the listing. *)
Lemma keys_under_unique m P tok l :
  StronglySorted String.le l → NoDup l →
  (∀ k, k ∈ l ↔
        is_Some (m !! k) ∧ startswith k P = true ∧ after_token tok k = true) →
  keys_under m P tok = l.
Proof.
  intros Hs Hn Hl. apply (StronglySorted_unique String.le);
    [apply keys_under_sorted|done|].
  apply NoDup_Permutation; [apply keys_under_NoDup|done|].
  intros k. by rewrite elem_of_keys_under, Hl.
Qed.

(** What lies beyond the first [n] entries of a sorted duplicate-free
    list is what comes after the last of them. *)
Lemma sorted_drop_after l n t :
  StronglySorted String.le l → NoDup l → last (take n l) = Some t →
  ∀ k, k ∈ drop n l ↔ k ∈ l ∧ after_token (Some t) k = true.
Proof.
  intros Hs Hn Hlast k. rewrite after_token_Some.
  rewrite <- (take_drop n l) in Hs, Hn.
  apply NoDup_app in Hn as (_ & Hdisj & _).
  apply last_Some in Hlast as [l' Hl'].
  assert (t ∈ take n l) as Ht by (rewrite Hl'; set_solver).
  split.
  - intros Hk. split; [by eapply subseteq_drop|].
    intros Hle.
    assert (String.le t k) as Hle'
      by (eapply (StronglySorted_app_1_elem_of String.le); eauto).
    assert (k = t) as -> by (by apply (anti_symm String.le)).
    by eapply Hdisj.
  - intros [Hk Hnle]. rewrite <- (take_drop n l) in Hk.
    apply elem_of_app in Hk as [Hk|Hk]; [|done]. exfalso. apply Hnle.
    rewrite Hl' in Hk, Hs. apply elem_of_app in Hk as [Hk|Hk].
    + apply StronglySorted_app_1_l in Hs.
      eapply (StronglySorted_app_1_elem_of String.le); eauto. set_solver.
    + apply list_elem_of_singleton in Hk as ->. done.
Qed.

Lemma keys_under_next m P tok n t :
  last (take n (keys_under m P tok)) = Some t →
  keys_under m P (Some t) = drop n (keys_under m P tok).
Proof.
  intros Hlast.
  pose proof (keys_under_sorted m P tok) as Hs.
  pose proof (keys_under_NoDup m P tok) as Hn.
  apply keys_under_unique.
  - rewrite <- (take_drop n (keys_under m P tok)) in Hs.
    by apply StronglySorted_app_1_r in Hs.
  - rewrite <- (take_drop n (keys_under m P tok)) in Hn.
    by apply NoDup_app in Hn as (_ & _ & ?).
  - intros k. rewrite (sorted_drop_after _ _ _ Hs Hn Hlast).
    rewrite elem_of_keys_under.
    assert (t ∈ keys_under m P tok) as Ht.
    { apply last_Some in Hlast as [l' Hl'].
      apply (subseteq_take n). rewrite Hl'. set_solver. }
    apply elem_of_keys_under in Ht as (_ & _ & Ht).
    split; [by intros [(? & ? & _) ?]|].
    intros (? & ? & ?). split_and!; try done.
    by eapply after_token_trans.
Qed.

End listing_facts.

(** ** Requests and pagination *)

Section gateway_facts.

Implicit Types (m : gmap string S3Object) (k t P : string)
  (tok : option string) (l : list string) (w : World).

Lemma with_requests_cons r reqs w :
  with_requests (r :: reqs) w = with_requests reqs (with_request r w).
Proof. reflexivity. Qed.

Lemma with_requests_fields reqs w :
  objects (with_requests reqs w) = objects w ∧
  requests (with_requests reqs w) = requests w ++ reqs ∧
  MaxKeys (with_requests reqs w) = MaxKeys w.
Proof.
  revert w. induction reqs as [|r reqs IH]; intros w.
  - by rewrite List.app_nil_r.
  - rewrite with_requests_cons.
    destruct (IH (with_request r w)) as (-> & -> & ->).
    simpl. by rewrite <- List.app_assoc.
Qed.

Lemma head_object_run k w :
  head_object k w =
    (match objects w !! k with
     | Some o => Return o
     | None => Raise "Not Found"
     end, with_request (HeadObject k) w).
Proof. unfold head_object, bind. simpl. by destruct (objects w !! k). Qed.

Lemma get_object_run k w :
  get_object k w =
    (match objects w !! k with
     | Some o => Return o
     | None => Raise "NoSuchKey"
     end, with_request (GetObject k) w).
Proof. unfold get_object, bind. simpl. by destruct (objects w !! k). Qed.

Lemma delete_object_run k w :
  Boto3.delete_object k w =
    if truthy k then
      (Return tt,
       with_objects (delete k (objects w)) (with_request (DeleteObject k) w))
    else (Raise "Parameter validation failed",
          with_request (DeleteObject k) w).
Proof. unfold Boto3.delete_object, bind. simpl. by destruct (truthy k). Qed.

Lemma dedup_adjacent_NoDup (l : list ListItem) :
  NoDup l → dedup_adjacent l = l.
Proof.
  induction 1 as [|x l Hx Hl IH]; [done|]. simpl. rewrite IH.
  destruct l as [|y l']; [done|]. destruct (decide (x = y)) as [->|]; [|done].
  exfalso. apply Hx. by left.
Qed.

Lemma summaries_app m l1 l2 :
  summaries m (l1 ++ l2) = summaries m l1 ++ summaries m l2.
Proof. apply omap_app. Qed.

Lemma summaries_keys m l :
  Forall (λ k, is_Some (m !! k)) l → Key <$> summaries m l = l.
Proof.
  induction 1 as [|k l [o Ho] _ IH]; [done|].
  unfold summaries in *. simpl. rewrite Ho. simpl. f_equal. exact IH.
Qed.

Lemma omap_summary_objects m l :
  omap (summary m) (Object <$> l) = summaries m l.
Proof.
  induction l as [|k l IH]; [done|]. unfold summaries in *. simpl.
  destruct (m !! k); [f_equal|]; exact IH.
Qed.

Lemma list_page_plain w P tok :
  Contents (list_page w P None tok) =
    present (summaries (objects w)
               (take (MaxKeys w) (keys_under (objects w) P tok))) ∧
  NextContinuationToken (list_page w P None tok) =
    if bool_decide (MaxKeys w < length (keys_under (objects w) P tok))%nat
    then last (take (MaxKeys w) (keys_under (objects w) P tok)) else None.
Proof.
  unfold list_page. cbn [Contents NextContinuationToken].
  change (rollup P None) with Object.
  rewrite dedup_adjacent_NoDup
    by (apply NoDup_fmap_2; [by intros ?? [=]|apply keys_under_NoDup]).
  rewrite <- fmap_take, length_fmap. split.
  - f_equal. apply omap_summary_objects.
  - case_bool_decide; [|done]. rewrite fmap_last, <- option_fmap_compose.
    by destruct (last _).
Qed.

Lemma list_objects_v2_run P d tok w :
  list_objects_v2 P d tok w =
    (Return (list_page w P d tok), with_request (ListObjectsV2 P d tok) w).
Proof. reflexivity. Qed.

Lemma page_loop_present {A} (step : A → ObjectSummary → Gw A) acc page sums :
  Contents page = present sums →
  page_loop step acc page = for_each sums acc step.
Proof. unfold page_loop. intros ->. by destruct sums. Qed.

Lemma fold_outcome_app {A} (g : A → ObjectSummary → outcome A)
    (sums1 sums2 : list ObjectSummary) acc :
  fold_outcome g (sums1 ++ sums2) acc =
    match fold_outcome g sums1 acc with
    | Return acc' => fold_outcome g sums2 acc'
    | Raise e => Raise e
    | OutOfFuel => OutOfFuel
    end.
Proof.
  revert acc. induction sums1 as [|x sums1 IH]; intros acc; [done|]. simpl.
  by destruct (g acc x).
Qed.

Lemma for_each_pure {A} (step : A → ObjectSummary → Gw A) g sums acc w :
  (∀ acc obj w, step acc obj w = (g acc obj, w)) →
  for_each sums acc step w = (fold_outcome g sums acc, w).
Proof.
  intros Hstep. revert acc. induction sums as [|x sums IH]; intros acc;
    [done|].
  simpl. unfold bind. rewrite Hstep. destruct (g acc x); [apply IH|done..].
Qed.

(** A pagination loop whose body only computes visits every listed key
    once, in ascending order, sending nothing but listing requests. *)
Lemma paginate_pure {A} (step : A → ObjectSummary → Gw A) g fuel P tok acc w :
  (∀ acc obj w, step acc obj w = (g acc obj, w)) →
  (0 < MaxKeys w)%nat →
  (length (keys_under (objects w) P tok) < fuel)%nat →
  ∃ reqs,
    paginate fuel P tok acc (page_loop step) w =
      (fold_outcome g
         (summaries (objects w) (keys_under (objects w) P tok)) acc,
       with_requests reqs w) ∧
    Forall (λ r, ∃ tok', r = ListObjectsV2 P None tok') reqs.
Proof.
  intros Hstep. revert tok acc w.
  induction fuel as [|fuel IH]; intros tok acc w Hmax Hlen; [lia|].
  cbn [paginate]. unfold bind at 1. rewrite list_objects_v2_run.
  set (w1 := with_request (ListObjectsV2 P None tok) w).
  destruct (list_page_plain w P tok) as [Hc Hn].
  set (L := keys_under (objects w) P tok) in *.
  unfold bind. rewrite (page_loop_present _ _ _ _ Hc).
  rewrite (for_each_pure step g) by done.
  assert (summaries (objects w) L =
          summaries (objects w) (take (MaxKeys w) L) ++
          summaries (objects w) (drop (MaxKeys w) L)) as ->
    by (by rewrite <- summaries_app, take_drop).
  rewrite fold_outcome_app.
  destruct (fold_outcome g _ acc) as [acc'| |] eqn:Hfold.
  - rewrite Hn. case_bool_decide as Hlt.
    + destruct (last (take (MaxKeys w) L)) as [t|] eqn:Hlast.
      * destruct (IH (Some t) acc' w1) as (reqs & Hrun & Hreqs); [done|..].
        { change (objects w1) with (objects w).
          rewrite (keys_under_next _ _ _ _ _ Hlast). fold L.
          rewrite length_drop. lia. }
        exists (ListObjectsV2 P None tok :: reqs). split; [|by eauto].
        rewrite Hrun. change (objects w1) with (objects w).
        by rewrite (keys_under_next _ _ _ _ _ Hlast).
      * apply last_None in Hlast. apply (f_equal length) in Hlast.
        rewrite length_take in Hlast. simpl in Hlast. lia.
    + exists [ListObjectsV2 P None tok]. split; [|by eauto].
      rewrite drop_ge by lia. done.
  - exists [ListObjectsV2 P None tok]. split; [done|by eauto].
  - exists [ListObjectsV2 P None tok]. split; [done|by eauto].
Qed.

End gateway_facts.

(** ** Search *)

Section search_facts.

Implicit Types (m : gmap string S3Object) (k P term sl : string) (w : World).

Lemma format_size_total n : 0 ≤ n < 2 ^ 1023 → is_Some (format_size n).
Proof.
  intros Hn. destruct (Z.lt_ge_cases n (2 ^ 53)).
  - rewrite format_size_exact by lia. eauto.
  - destruct (format_size_large n) as [d ->]; [lia|]. eauto.
Qed.

Lemma search_files_unfold ext fuel self term rel_path :
  S3AdvancedManager.search_files ext fuel self term rel_path =
    try_except
      (paginate fuel (search_root self rel_path) None []
         (page_loop
            (S3AdvancedManager.search_one ext (str_lower ext term))))
      (λ e, ret []).
Proof. reflexivity. Qed.

Lemma search_one_pure ext sl results obj w :
  S3AdvancedManager.search_one ext sl results obj w =
    (search_step ext sl results obj, w).
Proof.
  unfold S3AdvancedManager.search_one, search_step, final_segment.
  destruct (contains sl _); [|done].
  unfold bind, S3AdvancedManager._format_size, of_option.
  by destruct (S3AdvancedManager_sizes._format_size (Size obj)).
Qed.




End search_facts.

(** The cap of ten is on what is displayed, not on what search returns. *)
Lemma shown_results_cap (results : list Entry) :
  length (App.shown_results results) = (10 `min` length results)%nat.
Proof. apply length_take. Qed.

Example search_report :
  path <$> default []
    (match (S3AdvancedManager.search_files Samples.externals 5
              Samples.advanced "report" "" Samples.tree).1
     with Return r => Some r | _ => None end)
  = ["streamlit-app/a/b/Report_final.pdf"; "streamlit-app/a/report.csv"].
Proof. vm_compute. reflexivity. Qed.



Section loop_invariants.

Context {A : Type} (I : A → Prop).

(** An invariant of the loop body is an invariant of the loop. *)
Lemma for_each_invariant {B} (body : A → B → Gw A) (xs : list B) acc w acc' :
  (∀ a x w a', I a → (body a x w).1 = Return a' → I a') →
  I acc → (for_each xs acc body w).1 = Return acc' → I acc'.
Proof.
  intros Hbody. revert acc w. induction xs as [|x xs IH]; intros acc w Hacc.
  - simpl. by intros [= <-].
  - simpl. unfold bind. destruct (body acc x w) as [[a| |] w1] eqn:Hb;
      [|done..].
    apply IH. eapply Hbody; [done|]. by rewrite Hb.
Qed.

Lemma paginate_invariant (body : A → ListResponse → Gw A) fuel P tok acc w
    acc' :
  (∀ a page w a', I a → (body a page w).1 = Return a' → I a') →
  I acc → (paginate fuel P tok acc body w).1 = Return acc' → I acc'.
Proof.
  intros Hbody. revert tok acc w.
  induction fuel as [|fuel IH]; intros tok acc w Hacc; [done|].
  cbn [paginate]. unfold bind at 1. rewrite list_objects_v2_run.
  unfold bind.
  destruct (body acc _ _) as [[a| |] w1] eqn:Hb; [|done..].
  assert (I a) as Ha by (eapply Hbody; [done|]; by rewrite Hb).
  destruct (NextContinuationToken _) as [t|].
  - by apply IH.
  - simpl. by intros [= <-].
Qed.

End loop_invariants.

(** C10: for a non-empty term, a key that ends in a slash never matches,
    its final segment being empty, and no row that search returns has the
    type folder. Of [str.lower()], which is taken as given, this uses
    that a string is empty exactly when its lower-case form is. *)
Theorem search_files_no_folder (ext : Externals) (fuel : nat)
    (self : S3AdvancedManager.t) (term rel_path : string) (w : World) :
  lower_keeps_empty ext →
  term ≠ "" →
  (∀ k, endswith k "/" = true → ¬ search_match ext term k) ∧
  (∀ results,
     (S3AdvancedManager.search_files ext fuel self term rel_path w).1
       = Return results →
     Forall (λ e, type e = File) results).
Proof.
  intros Hlower Hterm.
  assert (∀ k, endswith k "/" = true → ¬ search_match ext term k) as Hkey.
  { intros k Hk. unfold search_match. rewrite (final_segment_slash k Hk).
    rewrite (proj2 (Hlower "") eq_refl).
    intros Hc. apply (contains_nil_r (str_lower ext term)) in Hc.
    apply Hterm. by apply Hlower. }
  split; [done|]. intros results Hres.
  rewrite search_files_unfold in Hres. unfold try_except in Hres.
  destruct (paginate fuel (search_root self rel_path) None []
              (page_loop
                 (S3AdvancedManager.search_one ext (str_lower ext term))) w)
    as [[r|e|] w'] eqn:Hrun; simpl in Hres; [| |done].
  - injection Hres as <-.
    apply (paginate_invariant (Forall (λ e, type e = File))
             (page_loop
                (S3AdvancedManager.search_one ext (str_lower ext term)))
             fuel (search_root self rel_path) None [] w r);
      [|constructor|by rewrite Hrun].
    intros a page w0 a' Ha Hb. unfold page_loop in Hb.
    destruct (Contents page) as [contents|];
      [|simpl in Hb; by injection Hb as <-].
    apply (for_each_invariant (Forall (λ e, type e = File))
             (S3AdvancedManager.search_one ext (str_lower ext term))
             contents a w0 a');
      [|done..].
    intros a1 obj w1 a1' Ha1. rewrite search_one_pure. simpl.
    unfold search_step.
    destruct (contains _ _) eqn:Hc; [|by intros [= <-]].
    destruct (_format_size _); [|done]. intros [= <-].
    apply Forall_app. split; [done|]. constructor; [|done]. simpl.
    destruct (endswith (Key obj) "/") eqn:He; [|done].
    exfalso. by apply (Hkey (Key obj) He).
  - by injection Hres as <-.
Qed.

Lemma search_files_no_folder_witness :
  ∃ results,
    (S3AdvancedManager.search_files Samples.externals 5 Samples.advanced
       "report" "" Samples.tree).1 = Return results ∧
    length results = 2%nat ∧
    Forall (λ e, type e = File) results.
Proof.
  eexists. split; [vm_compute; reflexivity|]. split; [reflexivity|].
  refine (proj2 (search_files_no_folder Samples.externals 5 Samples.advanced
                   "report" "" Samples.tree _ _) _ _);
    [by intros []|discriminate|].
  vm_compute. reflexivity.
Defined.

(** ** Preview *)

Lemma quiet_ret {A} (a : A) : quiet (ret a).
Proof. intros w. by exists (Return a). Qed.

Lemma quiet_raise {A} e : quiet (raise e : Gw A).
Proof. intros w. by exists (Raise e). Qed.

Lemma quiet_of_option {A} e (o : option A) : quiet (of_option e o).
Proof. destruct o; [apply quiet_ret|apply quiet_raise]. Qed.

Lemma quiet_bind {A B} (c : Gw A) (k : A → Gw B) :
  quiet c → (∀ a, quiet (k a)) → quiet (bind c k).
Proof.
  intros Hc Hk w. unfold bind. destruct (Hc w) as (r & -> & Hr).
  destruct r as [a|e|]; [apply Hk|by exists (Raise e)|done].
Qed.

Ltac solve_quiet :=
  repeat first
    [ apply quiet_ret | apply quiet_raise | apply quiet_of_option
    | apply quiet_bind; [|intros ?]
    | match goal with
      | |- quiet (if ?b then _ else _) => destruct b
      | |- quiet (match ?x with _ => _ end) => destruct x
      end ].

Example preview_six_MiB :
  S3AdvancedManager.get_file_preview Samples.externals Samples.advanced
    "streamlit-app/big.bin" S3AdvancedManager.default_max_size
    (Samples.bucket 1000
       [("streamlit-app/big.bin", Samples.sized (6 * 1024 * 1024))])
  = (Return (PreviewError "File too large for preview (>5.0MB)"),
     with_request (HeadObject "streamlit-app/big.bin")
       (Samples.bucket 1000
          [("streamlit-app/big.bin", Samples.sized (6 * 1024 * 1024))])).
Proof. vm_compute. reflexivity. Qed.

(** C7: when the reported size exceeds [max_size], preview returns the
    error variant and the head request is the only request it has sent;
    the body is requested, after the head request, only when the reported
    size is within the limit. A missing key also ends in the error variant
    after the head request alone. *)
Theorem get_file_preview_size_guard (ext : Externals)
    (self : S3AdvancedManager.t) (file_path : string) (max_size : Z)
    (w : World) :
  (∀ o, objects w !! file_path = Some o → max_size < ContentLength o →
     ∃ message,
       S3AdvancedManager.get_file_preview ext self file_path max_size w
         = (Return (PreviewError message),
            with_request (HeadObject file_path) w)) ∧
  (∀ o, objects w !! file_path = Some o → ContentLength o ≤ max_size →
     ∃ preview,
       S3AdvancedManager.get_file_preview ext self file_path max_size w
         = (Return preview,
            with_requests [HeadObject file_path; GetObject file_path] w)) ∧
  (objects w !! file_path = None →
     ∃ message,
       S3AdvancedManager.get_file_preview ext self file_path max_size w
         = (Return (PreviewError message),
            with_request (HeadObject file_path) w)).
Proof.
  split_and!; [intros o Ho Hsize..|intros Ho];
    unfold S3AdvancedManager.get_file_preview, try_except;
    unfold bind at 1; rewrite head_object_run, Ho.
  - destruct (Z.ltb_spec max_size (ContentLength o)); [|lia].
    unfold S3AdvancedManager.too_large_message, bind, of_option.
    destruct (div_1024 (PyInt max_size)) as [x|]; simpl; [|by eauto].
    destruct (div_1024 x) as [y|]; simpl; [|by eauto].
    destruct (format_1f y); simpl; by eauto.
  - destruct (Z.ltb_spec max_size (ContentLength o)); [lia|].
    unfold bind at 1. rewrite get_object_run. cbn [objects with_request].
    rewrite Ho. cbn [with_requests fold_left].
    match goal with
    | |- context [match ?c ?w' with pair _ _ => _ end] =>
        assert (quiet c) as Hq by solve_quiet;
        destruct (Hq w') as (r & -> & Hr)
    end.
    destruct r; [by eauto..|done].
  - by eauto.
Qed.

Lemma get_file_preview_size_guard_witness :
  ∃ message,
    S3AdvancedManager.get_file_preview Samples.externals Samples.advanced
      "streamlit-app/big.bin" S3AdvancedManager.default_max_size
      (Samples.bucket 1000
         [("streamlit-app/big.bin", Samples.sized (6 * 1024 * 1024))])
    = (Return (PreviewError message),
       with_request (HeadObject "streamlit-app/big.bin")
         (Samples.bucket 1000
            [("streamlit-app/big.bin", Samples.sized (6 * 1024 * 1024))])).
Proof.
  refine (proj1 (get_file_preview_size_guard Samples.externals
                   Samples.advanced "streamlit-app/big.bin"
                   S3AdvancedManager.default_max_size _)
            (Samples.sized (6 * 1024 * 1024)) _ _).
  - vm_compute. reflexivity.
  - vm_compute. reflexivity.
Defined.

(** ** Metadata *)

Lemma get_file_metadata_world (ext : Externals) (self : S3AdvancedManager.t)
    (file_path : string) (w : World) :
  (S3AdvancedManager.get_file_metadata ext self file_path w).2
    = with_request (HeadObject file_path) w.
Proof.
  unfold S3AdvancedManager.get_file_metadata, try_except.
  unfold bind at 1. rewrite head_object_run.
  destruct (objects w !! file_path) as [o|]; [|done].
  unfold bind, S3AdvancedManager._format_size, of_option.
  by destruct (S3AdvancedManager_sizes._format_size (ContentLength o)).
Qed.

(** C6, as the code has it: the metadata operation sends one head request
    whatever the key; when the key exists (with a size a float can hold)
    it reports the store's content type (["Unknown"] when the store gives
    none) and, besides, the local guess from the file name when there is
    one; the type shown prefers the local guess and falls back on the
    store's value. *)
Theorem get_file_metadata_type (ext : Externals)
    (self : S3AdvancedManager.t) (file_path : string) (w : World) :
  (S3AdvancedManager.get_file_metadata ext self file_path w).2
    = with_request (HeadObject file_path) w ∧
  (∀ o, objects w !! file_path = Some o →
        0 ≤ ContentLength o < 2 ^ 1023 →
     ∃ md,
       (S3AdvancedManager.get_file_metadata ext self file_path w).1
         = Return (MetadataOk md) ∧
       md_content_type md = default "Unknown" (ContentType o) ∧
       md_mime_type md =
         match guess_type ext file_path with
         | Some mt => if truthy mt then Some mt else None
         | None => None
         end ∧
       App.shown_type md =
         match guess_type ext file_path with
         | Some mt =>
             if truthy mt then mt else default "Unknown" (ContentType o)
         | None => default "Unknown" (ContentType o)
         end).
Proof.
  split; [apply get_file_metadata_world|].
  unfold S3AdvancedManager.get_file_metadata, try_except.
  unfold bind at 1. rewrite head_object_run.
  - intros o -> Hsize. destruct (format_size_total _ Hsize) as [sz Hsz].
    unfold bind, S3AdvancedManager._format_size, of_option.
    rewrite format_size_same, Hsz. simpl.
    destruct (guess_type ext file_path) as [mt|];
      [destruct (truthy mt)|]; by eexists.
Qed.

(** C6 as the claim has it fails where the store reports a content type
    and the file name has a known extension: the type shown is the local
    guess, not the store's value. *)
Lemma get_file_metadata_prefers_guess :
  ∃ md,
    (S3AdvancedManager.get_file_metadata Samples.externals Samples.advanced
       "streamlit-app/notes.txt"
       (Samples.bucket 1000
          [("streamlit-app/notes.txt", Samples.blob "hello")])).1
      = Return (MetadataOk md) ∧
    md_content_type md = "binary/octet-stream" ∧
    md_mime_type md = Some "text/plain" ∧
    App.shown_type md = "text/plain".
Proof. eexists. vm_compute. by split_and!. Qed.

Lemma get_file_metadata_type_witness :
  ∃ md,
    (S3AdvancedManager.get_file_metadata Samples.externals Samples.advanced
       "streamlit-app/a/report.csv" Samples.tree).1
      = Return (MetadataOk md) ∧
    App.shown_type md = "binary/octet-stream".
Proof.
  destruct (proj2 (get_file_metadata_type Samples.externals Samples.advanced
                     "streamlit-app/a/report.csv" Samples.tree)
              (Samples.blob "x,y"))
    as (md & Hrun & _ & _ & Hshown).
  - vm_compute. reflexivity.
  - vm_compute. by split.
  - exists md. split; [done|]. rewrite Hshown. vm_compute. reflexivity.
Defined.

(** ** What is passed to the store *)

Section request_facts.

Lemma silent_ret {A} (a : A) : silent (ret a).
Proof. by intros w. Qed.

Lemma silent_raise {A} e : silent (raise e : Gw A).
Proof. by intros w. Qed.

Lemma silent_of_option {A} e (o : option A) : silent (of_option e o).
Proof. by destruct o. Qed.

Lemma silent_read_world : silent read_world.
Proof. by intros w. Qed.

Lemma silent_read_objects : silent read_objects.
Proof. by intros w. Qed.

Lemma bind_world {A B} (c : Gw A) (k : A → Gw B) w :
  (∀ a, silent (k a)) → (bind c k w).2 = (c w).2.
Proof.
  intros Hk. unfold bind. destruct (c w) as [[a|e|] w1]; [apply Hk|done..].
Qed.

Lemma silent_bind {A B} (c : Gw A) (k : A → Gw B) :
  silent c → (∀ a, silent (k a)) → silent (bind c k).
Proof. intros Hc Hk w. by rewrite bind_world, Hc. Qed.

Lemma try_except_world {A} (c : Gw A) (h : string → Gw A) w :
  (∀ e, silent (h e)) → (try_except c h w).2 = (c w).2.
Proof.
  intros Hh. unfold try_except.
  destruct (c w) as [[a|e|] w1]; [done|apply Hh|done].
Qed.

Lemma silent_for_each {A B} (xs : list B) (acc : A) (step : A → B → Gw A) :
  (∀ a x, silent (step a x)) → silent (for_each xs acc step).
Proof.
  intros Hstep. revert acc. induction xs as [|x xs IH]; intros acc.
  - apply silent_ret.
  - simpl. apply silent_bind; [apply Hstep|]. intros a. apply IH.
Qed.

Lemma silent_page_loop {A} (step : A → ObjectSummary → Gw A) acc page :
  (∀ a x, silent (step a x)) → silent (page_loop step acc page).
Proof.
  intros Hstep. unfold page_loop.
  destruct (Contents page); [by apply silent_for_each|apply silent_ret].
Qed.

(** A pagination loop with a silent body sends listing requests for its
    prefix, without delimiter, and nothing else. *)
Lemma paginate_requests {A} (body : A → ListResponse → Gw A) fuel P tok acc w :
  (∀ a page, silent (body a page)) →
  ∃ reqs,
    (paginate fuel P tok acc body w).2 = with_requests reqs w ∧
    Forall (λ r, ∃ tok', r = ListObjectsV2 P None tok') reqs.
Proof.
  intros Hbody. revert tok acc w.
  induction fuel as [|fuel IH]; intros tok acc w.
  - by exists [].
  - cbn [paginate]. unfold bind at 1. rewrite list_objects_v2_run.
    set (w1 := with_request (ListObjectsV2 P None tok) w).
    unfold bind. pose proof (Hbody acc (list_page w P None tok) w1) as Hw.
    destruct (body acc _ w1) as [[a|e|] w2]; simpl in Hw; subst w2.
    + destruct (NextContinuationToken _) as [t|].
      * destruct (IH (Some t) a w1) as (reqs & -> & Hreqs).
        exists (ListObjectsV2 P None tok :: reqs). split; [done|].
        constructor; eauto.
      * exists [ListObjectsV2 P None tok]. split; [done|].
        constructor; eauto.
    + exists [ListObjectsV2 P None tok]. split; [done|]. constructor; eauto.
    + exists [ListObjectsV2 P None tok]. split; [done|]. constructor; eauto.
Qed.

Lemma sends_with_requests {A} (c : Gw A) w reqs :
  (c w).2 = with_requests reqs w → sends c w reqs.
Proof.
  unfold sends. intros ->.
  by destruct (with_requests_fields reqs w) as (_ & -> & _).
Qed.

Lemma startswith_app_l s t p :
  startswith s p = true → startswith (s +:+ t) p = true.
Proof.
  intros [r ->]%startswith_spec. rewrite str_app_assoc. apply startswith_app.
Qed.

Lemma format_path_rooted root path :
  rooted root (format_path root path) ∧
  slash_terminated (format_path root path).
Proof.
  unfold rooted, slash_terminated.
  destruct path as [p|]; [|split; [apply startswith_app|apply endswith_app]].
  destruct (decide (p = "")) as [->|Hp];
    [split; [apply startswith_app|apply endswith_app]|].
  rewrite format_path_truthy by done. cbv zeta.
  destruct (startswith (strip slash p) root) eqn:Hst.
  - destruct (endswith (strip slash p) "/") eqn:He; split; try done.
    + by apply startswith_app_l.
    + apply endswith_app.
  - destruct (endswith (root +:+ "/" +:+ strip slash p) "/") eqn:He;
      split; try done.
    + apply startswith_app.
    + apply startswith_app_l, startswith_app.
    + apply endswith_app.
Qed.

Lemma root_slash_rooted root :
  rooted root (root +:+ "/") ∧ slash_terminated (root +:+ "/").
Proof. split; [apply startswith_app|apply endswith_app]. Qed.

End request_facts.

Ltac solve_silent :=
  repeat first
    [ apply silent_ret | apply silent_raise | apply silent_of_option
    | apply silent_read_world | apply silent_read_objects
    | apply silent_bind; [|intros ?]
    | apply silent_for_each; intros ??
    | match goal with
      | |- silent (if ?b then _ else _) => destruct b
      | |- silent (match ?x with _ => _ end) => destruct x
      | |- silent (S3Manager.format_size _) => apply silent_of_option
      | |- silent (S3AdvancedManager._format_size _) => apply silent_of_option
      end ].

Section operations_requests.

Context (self : S3Manager.t) (adv : S3AdvancedManager.t) (w : World).

Lemma sends_nothing {A} (a : A) : sends (ret a) w [].
Proof. unfold sends. simpl. by rewrite List.app_nil_r. Qed.

Lemma list_objects_sends rel_path :
  ∃ reqs,
    sends (S3Manager.list_objects self rel_path) w reqs ∧
    all_rooted (S3Manager.app_prefix self) reqs ∧
    all_folder_listings reqs.
Proof.
  unfold S3Manager.list_objects.
  destruct (S3Manager.connected self); cbn [negb].
  2:{ exists []. split; [apply sends_nothing|]. by split; constructor. }
  eexists [ListObjectsV2 _ (Some slash) None]. split_and!.
  - unfold sends. rewrite try_except_world by (intros ?; apply silent_ret).
    rewrite bind_world by (intros ?; solve_silent).
    rewrite list_objects_v2_run. done.
  - constructor; [|done]. constructor; [|done]. unfold S3Manager.format_path.
    destruct (truthy rel_path);
      [apply (proj1 (format_path_rooted _ _))
      |apply (proj1 (root_slash_rooted _))].
  - constructor; [|done]. eexists _, _, _. split; [done|].
    unfold S3Manager.format_path.
    destruct (truthy rel_path);
      [apply (proj2 (format_path_rooted _ _))
      |apply (proj2 (root_slash_rooted _))].
Qed.

Lemma upload_file_sends file rel_path :
  ∃ reqs,
    sends (S3Manager.upload_file self file rel_path) w reqs ∧
    all_rooted (S3Manager.app_prefix self) reqs.
Proof.
  unfold S3Manager.upload_file.
  destruct (S3Manager.connected self); cbn [negb].
  2:{ exists []. split; [apply sends_nothing|]. constructor. }
  eexists [UploadFileobj _]. split.
  - unfold sends. rewrite try_except_world by (intros ?; apply silent_ret).
    rewrite bind_world by (intros ?; apply silent_ret). done.
  - constructor; [|done]. constructor; [|done].
    apply startswith_app_l, (proj1 (format_path_rooted _ _)).
Qed.

Lemma create_folder_sends folder_name rel_path :
  ∃ reqs,
    sends (S3Manager.create_folder self folder_name rel_path) w reqs ∧
    all_rooted (S3Manager.app_prefix self) reqs.
Proof.
  unfold S3Manager.create_folder.
  destruct (S3Manager.connected self); cbn [negb].
  2:{ exists []. split; [apply sends_nothing|]. constructor. }
  eexists [PutObject _]. split.
  - unfold sends. rewrite try_except_world by (intros ?; apply silent_ret).
    rewrite bind_world by (intros ?; apply silent_ret). done.
  - constructor; [|done]. constructor; [|done].
    apply startswith_app_l. unfold S3Manager.format_path.
    destruct (truthy rel_path);
      [apply (proj1 (format_path_rooted _ _))
      |apply (proj1 (root_slash_rooted _))].
Qed.

Lemma search_root_rooted rel_path :
  rooted (S3AdvancedManager.app_prefix adv) (search_root adv rel_path) ∧
  slash_terminated (search_root adv rel_path).
Proof.
  unfold search_root, S3AdvancedManager._format_path.
  rewrite format_path_same.
  destruct (truthy rel_path);
    [apply format_path_rooted|apply root_slash_rooted].
Qed.

Lemma search_files_sends ext fuel term rel_path :
  ∃ reqs,
    sends (S3AdvancedManager.search_files ext fuel adv term rel_path) w
          reqs ∧
    all_rooted (S3AdvancedManager.app_prefix adv) reqs ∧
    all_folder_listings reqs.
Proof.
  rewrite search_files_unfold.
  destruct (paginate_requests
              (page_loop
                 (S3AdvancedManager.search_one ext (str_lower ext term)))
              fuel (search_root adv rel_path) None [] w)
    as (reqs & Hrun & Hreqs).
  { intros a page. apply silent_page_loop. intros a' x w'.
    by rewrite search_one_pure. }
  exists reqs. split_and!.
  - apply sends_with_requests.
    by rewrite try_except_world by (intros ?; apply silent_ret).
  - eapply Forall_impl; [exact Hreqs|]. intros r [tok ->].
    constructor; [|done]. apply search_root_rooted.
  - eapply Forall_impl; [exact Hreqs|]. intros r [tok ->].
    eexists _, _, _. split; [done|]. apply search_root_rooted.
Qed.

Lemma get_folder_size_sends fuel folder_path :
  ∃ reqs,
    sends (S3AdvancedManager.get_folder_size fuel adv folder_path) w reqs ∧
    all_folder_listings reqs ∧
    Forall (λ r, ∃ tok,
              r = ListObjectsV2
                    (if endswith folder_path "/" then folder_path
                     else folder_path +:+ "/") None tok) reqs ∧
    (rooted (S3AdvancedManager.app_prefix adv) folder_path →
     all_rooted (S3AdvancedManager.app_prefix adv) reqs).
Proof.
  unfold S3AdvancedManager.get_folder_size. cbv zeta.
  set (P := if negb (endswith folder_path "/") then folder_path +:+ "/"
            else folder_path).
  assert (P = if endswith folder_path "/" then folder_path
              else folder_path +:+ "/") as HP
    by (unfold P; by destruct (endswith folder_path "/")).
  assert (slash_terminated P) as Hslash.
  { unfold P, slash_terminated.
    destruct (endswith folder_path "/") eqn:E; [done|apply endswith_app]. }
  match goal with
  | |- context [paginate fuel P None ?acc ?body] =>
      destruct (paginate_requests body fuel P None acc w)
        as (reqs & Hrun & Hreqs)
  end.
  { intros a page. apply silent_page_loop. intros [??] ?. apply silent_ret. }
  exists reqs. split_and!.
  - apply sends_with_requests.
    rewrite try_except_world by (intros ?; apply silent_ret).
    rewrite bind_world; [done|]. intros [??]. solve_silent.
  - eapply Forall_impl; [exact Hreqs|]. intros r [tok ->].
    by eexists _, _, _.
  - rewrite <- HP. done.
  - intros Hroot. eapply Forall_impl; [exact Hreqs|]. intros r [tok ->].
    constructor; [|done]. rewrite HP.
    destruct (endswith folder_path "/"); [done|by apply startswith_app_l].
Qed.

End operations_requests.

Section key_operations_requests.

Context (self : S3Manager.t) (adv : S3AdvancedManager.t) (w : World).

Lemma download_file_sends key :
  sends (S3Manager.download_file self key) w
    (if S3Manager.connected self then [GetObject key] else []).
Proof.
  unfold S3Manager.download_file.
  destruct (S3Manager.connected self); cbn [negb]; [|apply sends_nothing].
  unfold sends. rewrite try_except_world by (intros ?; apply silent_ret).
  rewrite bind_world by (intros ?; apply silent_ret).
  by rewrite get_object_run.
Qed.

Lemma delete_file_sends key :
  endswith key "/" = false →
  sends (S3Manager.delete_object self key) w
    (if S3Manager.connected self then [DeleteObject key] else []).
Proof.
  intros Hkey. unfold S3Manager.delete_object. rewrite Hkey.
  destruct (S3Manager.connected self); cbn [negb]; [|apply sends_nothing].
  unfold sends. rewrite try_except_world by (intros ?; apply silent_ret).
  rewrite bind_world by (intros ?; apply silent_ret).
  rewrite delete_object_run. by destruct (truthy key).
Qed.

Lemma generate_presigned_url_sends key expiration :
  sends (S3AdvancedManager.generate_presigned_url adv key expiration) w
    [GeneratePresignedUrl key expiration].
Proof.
  unfold S3AdvancedManager.generate_presigned_url, sends.
  rewrite try_except_world by (intros ?; apply silent_ret).
  rewrite bind_world by (intros ?; apply silent_ret).
  unfold Boto3.generate_presigned_url.
  rewrite bind_world; [done|]. intros ?. solve_silent.
Qed.

Lemma get_file_preview_sends ext key max_size :
  ∃ reqs,
    sends (S3AdvancedManager.get_file_preview ext adv key max_size) w reqs ∧
    Forall (λ r, request_keys r = [key]) reqs.
Proof.
  unfold S3AdvancedManager.get_file_preview, sends.
  rewrite try_except_world by (intros ?; apply silent_ret).
  unfold bind at 1. rewrite head_object_run.
  destruct (objects w !! key) as [o|];
    [|exists [HeadObject key]; split; [done|by constructor]].
  destruct (max_size <? ContentLength o).
  - exists [HeadObject key]. split; [|by constructor].
    assert (silent (S3AdvancedManager.too_large_message max_size)) as Hs
      by (unfold S3AdvancedManager.too_large_message; solve_silent).
    rewrite bind_world by (intros ?; apply silent_ret). by rewrite Hs.
  - exists [HeadObject key; GetObject key]. split; [|by repeat constructor].
    rewrite bind_world by (intros ?; solve_silent).
    rewrite get_object_run. simpl. by rewrite <- List.app_assoc.
Qed.

End key_operations_requests.

(** ** Delete *)

Section delete_facts.

Context (self : S3Manager.t) (w : World) (P : string).

(** What deleting a folder does: one listing request without continuation
    and, when the page is not empty, one bulk delete of that page. *)
Lemma delete_folder_run :
  S3Manager.connected self = true → endswith P "/" = true →
  ∃ w',
    S3Manager.delete_object self P w
      = (Return (true, "Folder deleted successfully"), w') ∧
    objects w' =
      foldr delete (objects w)
            (take (MaxKeys w) (keys_under (objects w) P None)) ∧
    ∃ reqs, requests w' = requests w ++ ListObjectsV2 P None None :: reqs ∧
            (∀ r, r ∈ reqs →
                  r = DeleteObjects
                        (take (MaxKeys w) (keys_under (objects w) P None))).
Proof.
  intros Hconn Hfolder. unfold S3Manager.delete_object.
  rewrite Hconn, Hfolder. cbn [negb]. unfold try_except.
  unfold bind at 1 2. rewrite list_objects_v2_run.
  destruct (list_page_plain w P None) as [-> _].
  set (page := take (MaxKeys w) (keys_under (objects w) P None)).
  assert (Key <$> summaries (objects w) page = page) as Hkeys.
  { apply summaries_keys, Forall_forall. intros k Hk.
    apply (subseteq_take (MaxKeys w)) in Hk.
    by apply elem_of_keys_under in Hk as [? _]. }
  destruct (summaries (objects w) page) as [|s sums] eqn:Hs.
  - simpl. eexists. split; [done|]. simpl. rewrite <- Hkeys. simpl.
    split; [done|]. exists []. split; [done|]. by intros r ?%elem_of_nil.
  - cbn [present]. rewrite Hkeys.
    assert (∃ k page', page = k :: page') as (k & page' & Hpage).
    { rewrite <- Hkeys. simpl. eauto. }
    rewrite Hpage. simpl. eexists. split; [done|]. simpl.
    split; [done|]. exists [DeleteObjects (k :: page')].
    split; [by rewrite <- List.app_assoc|].
    by intros r ->%list_elem_of_singleton.
Qed.

End delete_facts.

(** C1 on the code: deleting a folder lists once, without continuation,
    and bulk-deletes that one page. It reports success; the keys of the
    first page are gone, every key beyond the first page is still there,
    and the folder is empty afterwards when it fits in one page. *)
Theorem delete_folder_first_page_only (self : S3Manager.t) (w : World)
    (P : string) :
  S3Manager.connected self = true → endswith P "/" = true →
  ∃ w',
    S3Manager.delete_object self P w
      = (Return (true, "Folder deleted successfully"), w') ∧
    (∀ k, k ∈ take (MaxKeys w) (keys_under (objects w) P None) →
          objects w' !! k = None) ∧
    (∀ k, k ∈ drop (MaxKeys w) (keys_under (objects w) P None) →
          is_Some (objects w' !! k) ∧ objects w' !! k = objects w !! k) ∧
    ((length (keys_under (objects w) P None) ≤ MaxKeys w)%nat →
     ∀ k, startswith k P = true → objects w' !! k = None).
Proof.
  intros Hconn Hfolder.
  destruct (delete_folder_run self w P Hconn Hfolder)
    as (w' & Hrun & Hobjs & _).
  exists w'. rewrite Hobjs. split_and!; [done|..].
  - intros k Hk. by apply lookup_foldr_delete.
  - intros k Hk.
    assert (k ∉ take (MaxKeys w) (keys_under (objects w) P None)) as Hnot.
    { pose proof (keys_under_NoDup (objects w) P None) as Hnd.
      rewrite <- (take_drop (MaxKeys w)) in Hnd.
      apply NoDup_app in Hnd as (_ & Hdisj & _). intros Hin.
      by apply (Hdisj k). }
    rewrite lookup_foldr_delete_not_elem_of by done. split; [|done].
    apply (subseteq_drop (MaxKeys w)) in Hk.
    by apply elem_of_keys_under in Hk as [? _].
  - intros Hlen k Hk. rewrite take_ge by done.
    destruct (objects w !! k) as [o|] eqn:Ho.
    + apply lookup_foldr_delete, elem_of_keys_under. eauto.
    + destruct (foldr delete (objects w) _ !! k) as [o|] eqn:Hf; [|done].
      apply lookup_foldr_delete_Some in Hf as [_ Hf]. congruence.
Qed.

(** A folder of 1001 objects, with S3's page of 1000: the delete reports
    success and leaves the last key of the listing behind. *)
Lemma delete_folder_first_page_only_witness :
  ∃ w',
    S3Manager.delete_object Samples.manager "streamlit-app/big/"
      Samples.big_folder
      = (Return (true, "Folder deleted successfully"), w') ∧
    is_Some (objects w' !! "streamlit-app/big/999").
Proof.
  destruct (delete_folder_first_page_only Samples.manager Samples.big_folder
              "streamlit-app/big/") as (w' & Hrun & _ & Hrest & _).
  - reflexivity.
  - reflexivity.
  - exists w'. split; [done|]. apply Hrest.
    assert (drop (MaxKeys Samples.big_folder)
              (keys_under (objects Samples.big_folder) "streamlit-app/big/"
                 None) = ["streamlit-app/big/999"]) as ->
      by (vm_compute; reflexivity).
    by left.
Defined.

Example delete_folder_small_pages :
  map_to_list (Body <$> objects
    (S3Manager.delete_object Samples.manager "streamlit-app/b/"
       Samples.small_pages).2)
  = [("streamlit-app/b/d", "3"); ("streamlit-app/x", "4")].
Proof. vm_compute. reflexivity. Qed.

(** ** Rename *)

Section rename_strings.

Implicit Types (s t P N : string).

Lemma replace1_unfold old new s :
  replace1 old new s =
    if startswith s old then new +:+ slice_from (String.length old) s
    else match s with
         | "" => ""
         | String a s' => String a (replace1 old new s')
         end.
Proof. by destruct s. Qed.

Lemma slice_from_app P s : slice_from (String.length P) (P +:+ s) = s.
Proof. induction P as [|a P IH]; [by destruct s|]. exact IH. Qed.

(** The leftmost occurrence of a prefix is the prefix. *)
Lemma replace1_prefix P N s : replace1 P N (P +:+ s) = N +:+ s.
Proof.
  by rewrite replace1_unfold, startswith_app, slice_from_app.
Qed.

Lemma startswith_app_cases N s P :
  startswith (N +:+ s) P = true →
  startswith N P = true ∨ startswith P N = true.
Proof.
  revert P. induction N as [|a N IH]; intros P.
  - intros _. right. apply startswith_nil.
  - destruct P as [|b P]; [by left|]. rewrite str_app_cons. simpl.
    intros [Hab HP]%andb_true_iff. rewrite Hab. simpl.
    apply Ascii.eqb_eq in Hab as ->. rewrite Ascii.eqb_refl. simpl.
    by apply IH.
Qed.

Lemma apart_not_under P N s : apart P N → startswith (N +:+ s) P = false.
Proof.
  intros [H1 H2]. apply not_true_iff_false.
  intros [?|?]%startswith_app_cases; congruence.
Qed.

Lemma under_app P k : startswith k P = true → ∃ s, k = P +:+ s.
Proof. apply startswith_spec. Qed.

End rename_strings.

Section rename_facts.

Context (P N : string) (Hapart : apart P N) (stamp : datetime)
  (m0 : gmap string S3Object).

Implicit Types (m : gmap string S3Object) (D : gset string) (k : string)
  (w : World).

Lemma moved_start : moved P N stamp m0 ∅ m0.
Proof. clear Hapart. split; set_solver. Qed.

(** Moving one more key of the folder. *)
Lemma moved_step D m s o :
  moved P N stamp m0 D m → P +:+ s ∉ D → m0 !! (P +:+ s) = Some o →
  moved P N stamp m0 ({[P +:+ s]} ∪ D)
        (delete (P +:+ s) (<[N +:+ s := restamp stamp o]> m)).
Proof.
  intros [Hdom Hgone Hrest Hcopy Hframe] Hnew Ho.
  assert (∀ t, P +:+ s ≠ N +:+ t) as Hne.
  { intros t Heq. pose proof (apart_not_under P N t Hapart) as Hn.
    by rewrite <- Heq, startswith_app in Hn. }
  assert (∀ k t, startswith k P = true → N +:+ t ≠ k) as Hne'.
  { intros k t Hk <-. by rewrite (apart_not_under P N t Hapart) in Hk. }
  split.
  - intros k [Hk|Hk]%elem_of_union; [|by apply Hdom].
    apply elem_of_singleton in Hk as ->.
    split; [by eexists|apply startswith_app].
  - intros k [Hk|Hk]%elem_of_union.
    + apply elem_of_singleton in Hk as ->. apply lookup_delete_eq.
    + rewrite lookup_delete_ne by (by intros <-).
      rewrite lookup_insert_ne; [by apply Hgone|].
      apply Hne'. by apply Hdom.
  - intros k Hk Hnot.
    rewrite lookup_delete_ne by set_solver.
    rewrite lookup_insert_ne by (by apply Hne').
    apply Hrest; [done|set_solver].
  - intros t [Heq|Ht]%elem_of_union.
    + apply elem_of_singleton, str_app_inv_head in Heq as ->.
      rewrite lookup_delete_ne by apply Hne.
      by rewrite lookup_insert_eq, Ho.
    + rewrite lookup_delete_ne by apply Hne.
      rewrite lookup_insert_ne; [by apply Hcopy|].
      intros Heq. apply str_app_inv_head in Heq as ->. done.
  - intros x Hx Hfree.
    rewrite lookup_delete_ne by (intros <-; by rewrite startswith_app in Hx).
    rewrite lookup_insert_ne.
    + apply Hframe; [done|]. intros t Ht. specialize (Hfree t Ht). set_solver.
    + intros <-. apply (Hfree s); [done|]. set_solver.
Qed.

(** One round of the loop body on a key that is there. *)
Lemma rename_one_run obj w s o :
  Key obj = P +:+ s → objects w !! (P +:+ s) = Some o →
  S3AdvancedManager.rename_one P N obj w =
    (Return tt,
     with_objects
       (delete (P +:+ s) (<[N +:+ s := restamp (now w) o]> (objects w)))
       (with_requests [CopyObject (P +:+ s) (N +:+ s);
                       DeleteObject (P +:+ s)] w)).
Proof.
  intros Hkey Ho. unfold S3AdvancedManager.rename_one.
  rewrite Hkey, replace1_prefix.
  assert (truthy (P +:+ s) = true) as Hk.
  { destruct P; [|done]. destruct Hapart as [HP _].
    by rewrite startswith_nil in HP. }
  assert (copy_object (P +:+ s) (N +:+ s) w =
          (Return tt,
           with_objects (<[N +:+ s := restamp (now w) o]> (objects w))
             (with_request (CopyObject (P +:+ s) (N +:+ s)) w))) as Hcopy.
  { unfold copy_object, bind, send, read_world, of_option, write_objects.
    cbn [objects now with_request with_objects]. by rewrite Ho. }
  unfold bind. rewrite Hcopy, delete_object_run, Hk. reflexivity.
Qed.

(** The loop body on a page of keys that are still to be moved. *)
Lemma rename_page_run (sums : list ObjectSummary) D w :
  now w = stamp →
  moved P N stamp m0 D (objects w) →
  NoDup (Key <$> sums) →
  (∀ k, k ∈ Key <$> sums →
        is_Some (m0 !! k) ∧ startswith k P = true ∧ k ∉ D) →
  ∃ w',
    for_each sums tt (λ _ obj, S3AdvancedManager.rename_one P N obj) w
      = (Return tt, w') ∧
    MaxKeys w' = MaxKeys w ∧ now w' = now w ∧
    moved P N stamp m0 (list_to_set (Key <$> sums) ∪ D) (objects w').
Proof.
  revert D w.
  induction sums as [|obj sums IH]; intros D w Hnow Hmoved Hnd Hkeys.
  - exists w. split_and!; [done..|].
    by replace (list_to_set (Key <$> []) ∪ D) with D by set_solver.
  - rewrite fmap_cons in Hnd, Hkeys. apply NoDup_cons in Hnd as [Hfresh Hnd].
    destruct (Hkeys (Key obj)) as ([o Ho] & [s Hs]%under_app & HD);
      [by left|].
    assert (objects w !! (P +:+ s) = Some o) as Hw.
    { rewrite <- Ho, <- Hs. apply (moved_rest _ _ _ _ _ _ Hmoved); [|done].
      rewrite Hs. apply startswith_app. }
    cbn [for_each]. unfold bind.
    rewrite (rename_one_run obj w s o Hs Hw).
    rewrite Hs in *.
    edestruct (IH ({[P +:+ s]} ∪ D)) as (w' & -> & Hmax & Hnow' & Hmoved').
    + exact Hnow.
    + cbn [objects with_objects]. rewrite Hnow. by apply moved_step.
    + done.
    + intros k Hk. destruct (Hkeys k) as (? & ? & ?); [by right|].
      split_and!; [done..|]. set_solver.
    + exists w'. split_and!; [done|by rewrite Hmax|by rewrite Hnow'|].
      rewrite fmap_cons, Hs.
      by replace (list_to_set ((P +:+ s) :: (Key <$> sums)) ∪ D)
        with (list_to_set (Key <$> sums) ∪ ({[P +:+ s]} ∪ D))
        by set_solver.
Qed.

End rename_facts.

Section rename_loop_facts.

Context (P N : string) (Hapart : apart P N) (stamp : datetime)
  (m0 : gmap string S3Object).

Implicit Types (m : gmap string S3Object) (D : gset string) (k : string)
  (w : World) (tok : option string).

(** While the keys moved so far are those at or before the token, the
    store lists what the original store listed after the token. *)
Lemma keys_under_moved D m tok :
  moved P N stamp m0 D m →
  (∀ k, is_Some (m0 !! k) → startswith k P = true →
        (k ∈ D ↔ after_token tok k = false)) →
  keys_under m P tok = keys_under m0 P tok.
Proof.
  intros Hmoved HD. apply keys_under_unique;
    [apply keys_under_sorted|apply keys_under_NoDup|].
  intros k. rewrite elem_of_keys_under. split.
  - intros (Hk & Hu & Ha). split_and!; [|done..].
    rewrite (moved_rest _ _ _ _ _ _ Hmoved); [done..|].
    intros HkD. apply HD in HkD; [congruence|done..].
  - intros (Hk & Hu & Ha). split_and!; [|done..].
    destruct (decide (k ∈ D)) as [HkD|HkD].
    + rewrite (moved_gone _ _ _ _ _ _ Hmoved) in Hk by done.
      by destruct Hk.
    + by rewrite (moved_rest _ _ _ _ _ _ Hmoved) in Hk.
Qed.

(** The folder loop of [rename_object], from any page on: it comes to an
    end and has moved every key of the folder. *)
Lemma rename_loop fuel tok D w :
  (0 < MaxKeys w)%nat → now w = stamp →
  moved P N stamp m0 D (objects w) →
  (∀ k, is_Some (m0 !! k) → startswith k P = true →
        (k ∈ D ↔ after_token tok k = false)) →
  (length (keys_under m0 P tok) < fuel)%nat →
  ∃ w' D',
    paginate fuel P tok tt
      (page_loop (λ _ obj, S3AdvancedManager.rename_one P N obj)) w
      = (Return tt, w') ∧
    moved P N stamp m0 D' (objects w') ∧
    (∀ k, is_Some (m0 !! k) → startswith k P = true → k ∈ D').
Proof.
  revert tok D w.
  induction fuel as [|fuel IH];
    intros tok D w Hmax Hnow Hmoved HD Hlen; [lia|].
  cbn [paginate]. unfold bind at 1. rewrite list_objects_v2_run.
  set (w1 := with_request (ListObjectsV2 P None tok) w).
  destruct (list_page_plain w P tok) as [Hc Hn].
  rewrite (keys_under_moved D (objects w) tok Hmoved HD) in Hc, Hn.
  set (L := keys_under m0 P tok) in *.
  set (page := take (MaxKeys w) L) in *.
  pose proof (keys_under_sorted m0 P tok) as Hsorted.
  pose proof (keys_under_NoDup m0 P tok) as Hnd. fold L in Hsorted, Hnd.
  assert (∀ k, k ∈ page → k ∈ L) as Hpage
    by (intros k; apply subseteq_take).
  assert (∀ k, k ∈ L → is_Some (m0 !! k) ∧ startswith k P = true ∧ k ∉ D)
    as HL.
  { intros k (Hk & Hu & Ha)%elem_of_keys_under. split_and!; [done..|].
    intros HkD. apply HD in HkD; [congruence|done..]. }
  assert (Key <$> summaries (objects w) page = page) as Hkeys.
  { apply summaries_keys, Forall_forall. intros k Hk.
    destruct (HL k (Hpage k Hk)) as (Hk0 & Hu & HkD).
    by rewrite (moved_rest _ _ _ _ _ _ Hmoved). }
  assert (NoDup page) as Hndp.
  { rewrite <- (take_drop (MaxKeys w) L) in Hnd.
    by apply NoDup_app in Hnd as [? _]. }
  unfold bind. rewrite (page_loop_present _ _ _ _ Hc).
  destruct (rename_page_run P N Hapart stamp m0
              (summaries (objects w) page) D w1)
    as (w2 & -> & Hmax2 & Hnow2 & Hmoved2); [done|done|by rewrite Hkeys|..].
  { intros k Hk. rewrite Hkeys in Hk. by apply HL, Hpage. }
  rewrite Hkeys in Hmoved2. rewrite Hn. case_bool_decide as Hlt.
  - destruct (last page) as [t|] eqn:Hlast.
    2:{ apply last_None in Hlast. apply (f_equal length) in Hlast.
        unfold page in Hlast. rewrite length_take in Hlast.
        simpl in Hlast. lia. }
    pose proof (sorted_drop_after L (MaxKeys w) t Hsorted Hnd Hlast)
      as Hdrop.
    assert (t ∈ L) as Ht.
    { apply Hpage. apply last_Some in Hlast as [l' ->]. set_solver. }
    apply (IH (Some t) (list_to_set page ∪ D) w2);
      [by rewrite Hmax2|by rewrite Hnow2|done|..].
    + intros k Hk Hu. split.
      * intros [Hkp%elem_of_list_to_set|HkD]%elem_of_union.
        -- destruct (after_token (Some t) k) eqn:Ha; [|done]. exfalso.
           assert (k ∈ drop (MaxKeys w) L) as Hkd
             by (apply Hdrop; split; [by apply Hpage|done]).
           rewrite <- (take_drop (MaxKeys w) L) in Hnd.
           apply NoDup_app in Hnd as (_ & Hdisj & _). by apply (Hdisj k).
        -- destruct (after_token (Some t) k) eqn:Ha; [|done]. exfalso.
           apply HD in HkD; [|done..].
           apply elem_of_keys_under in Ht as (_ & _ & Hat).
           by rewrite (after_token_trans tok t k Hat Ha) in HkD.
      * intros Ha. destruct (decide (k ∈ D)) as [HkD|HkD]; [set_solver|].
        assert (after_token tok k = true) as Hak.
        { destruct (after_token tok k) eqn:E; [done|]. exfalso.
          apply HkD. by apply HD. }
        assert (k ∈ L) as HkL by (by apply elem_of_keys_under).
        rewrite <- (take_drop (MaxKeys w) L) in HkL.
        apply elem_of_app in HkL as [HkL|HkL]; [set_solver|].
        apply Hdrop in HkL as [_ HkL]. congruence.
    + rewrite (keys_under_next m0 P tok (MaxKeys w) t Hlast). fold L.
      rewrite length_drop. lia.
  - exists w2, (list_to_set page ∪ D). split_and!; [done..|].
    intros k Hk Hu. unfold page. rewrite take_ge by lia.
    destruct (after_token tok k) eqn:Ha.
    + apply elem_of_union_l, elem_of_list_to_set, elem_of_keys_under. done.
    + apply elem_of_union_r. by apply HD.
Qed.

End rename_loop_facts.

Section rename_paths.

Implicit Types (s parent name new_name : string).

Lemma contains_cons sub a s :
  contains sub (String a s) = false → contains sub s = false.
Proof. cbn [contains]. by intros [_ ?]%orb_false_iff. Qed.

Lemma no_slash_end s : contains "/" s = false → endswith s "/" = false.
Proof.
  intros Hs. apply not_true_iff_false. intros [r ->]%endswith_spec.
  apply not_true_iff_false in Hs. apply Hs, contains_spec.
  exists r, "". by rewrite str_app_nil_r.
Qed.

(** Two slash-free names followed by a slash agree when what follows
    them does. *)
Lemma slash_free_eq s1 s2 r1 r2 :
  contains "/" s1 = false → contains "/" s2 = false →
  s1 +:+ "/" +:+ r1 = s2 +:+ "/" +:+ r2 → s1 = s2.
Proof.
  revert s2. induction s1 as [|a s1 IH]; intros [|b s2] H1 H2 Heq;
    simpl in Heq; simplify_eq; try done.
  - exfalso. simpl in H2. by rewrite startswith_nil in H2.
  - exfalso. simpl in H1. by rewrite startswith_nil in H1.
  - f_equal. eapply IH; eauto using contains_cons.
Qed.

(** For a folder with a parent, the new prefix is its sibling. *)
Lemma new_prefix_sibling parent name new_name :
  parent ≠ "" → name ≠ "" → contains "/" name = false →
  new_prefix (parent +:+ "/" +:+ name +:+ "/") new_name
    = parent +:+ "/" +:+ new_name +:+ "/".
Proof.
  intros Hparent Hname Hfree. unfold new_prefix.
  assert (endswith (parent +:+ "/" +:+ name) "/" = false) as Hend.
  { rewrite endswith_app_char by (by destruct name).
    rewrite (endswith_app_char "/") by done. by apply no_slash_end. }
  replace (parent +:+ "/" +:+ name +:+ "/")
    with ((parent +:+ "/" +:+ name) +:+ String slash "")
    by (by rewrite !str_app_assoc).
  rewrite (rstrip_app_char slash (parent +:+ "/" +:+ name));
    [|by destruct parent|done].
  change (parent +:+ "/" +:+ name) with (parent +:+ String slash name).
  rewrite split_app, (split_no_sep slash name Hfree).
  unfold but_last. rewrite removelast_last.
  change (join "/" (split slash parent))
    with (join (String slash "") (split slash parent)).
  rewrite join_split.
  apply truthy_true in Hparent as ->. by rewrite !str_app_assoc.
Qed.

(** A new name that is one segment, different from the old one, puts the
    new prefix apart from the old one. *)
Lemma sibling_apart parent name new_name :
  contains "/" name = false → contains "/" new_name = false →
  new_name ≠ name →
  apart (parent +:+ "/" +:+ name +:+ "/")
        (parent +:+ "/" +:+ new_name +:+ "/").
Proof.
  intros Hname Hnew Hne.
  split; apply not_true_iff_false; intros [r Hr]%startswith_spec;
    rewrite !str_app_assoc in Hr; apply str_app_inv_head in Hr;
    simpl in Hr; simplify_eq.
  - by pose proof (slash_free_eq new_name name "" r Hnew Hname Hr).
  - pose proof (slash_free_eq name new_name "" r Hname Hnew Hr). congruence.
Qed.

End rename_paths.

Lemma rename_folder_unfold fuel self old_path new_name :
  endswith old_path "/" = true →
  S3AdvancedManager.rename_object fuel self old_path new_name =
    try_except
      (bind
         (paginate fuel old_path None tt
            (page_loop
               (λ _ obj,
                  S3AdvancedManager.rename_one old_path
                    (new_prefix old_path new_name) obj)))
         (λ _, ret (true, "Successfully renamed to '" +:+ new_name +:+ "'")))
      (λ e, ret (false, "Rename failed: " +:+ e)).
Proof. intros H. unfold S3AdvancedManager.rename_object. by rewrite H. Qed.

(** C2, as the code has it: when the old prefix and the new one are
    apart (neither a prefix of the other, as for a new name of one segment
    that differs from the old), a folder rename with fuel for the listing
    completes; every child key that existed under the old prefix exists
    under the new prefix with the same suffix, as a copy of the object
    (same content and metadata, stamped with the time of the copy), no
    key remains under the old prefix, and keys under neither prefix are
    untouched. For a folder [parent/name/] the new prefix is the sibling
    [parent/new_name/]. *)
Theorem rename_folder_moves (fuel : nat) (self : S3AdvancedManager.t)
    (old_path new_name : string) (w : World) :
  endswith old_path "/" = true →
  apart old_path (new_prefix old_path new_name) →
  (0 < MaxKeys w)%nat →
  (length (keys_under (objects w) old_path None) < fuel)%nat →
  (∃ w',
     S3AdvancedManager.rename_object fuel self old_path new_name w
       = (Return (true, "Successfully renamed to '" +:+ new_name +:+ "'"),
          w') ∧
     (∀ suffix o,
        objects w !! (old_path +:+ suffix) = Some o →
        objects w' !! (new_prefix old_path new_name +:+ suffix)
          = Some (restamp (now w) o)) ∧
     (∀ k, startswith k old_path = true → objects w' !! k = None) ∧
     (∀ k, startswith k old_path = false →
           startswith k (new_prefix old_path new_name) = false →
           objects w' !! k = objects w !! k)) ∧
  (∀ parent name,
     parent ≠ "" → name ≠ "" → contains "/" name = false →
     old_path = parent +:+ "/" +:+ name +:+ "/" →
     new_prefix old_path new_name = parent +:+ "/" +:+ new_name +:+ "/").
Proof.
  intros Hfolder Hapart Hmax Hfuel. split.
  2:{ intros parent name ??? ->. by apply new_prefix_sibling. }
  rewrite rename_folder_unfold by done.
  assert (∀ k, is_Some (objects w !! k) → startswith k old_path = true →
               (k ∈ (∅ : gset string) ↔ after_token None k = false)) as Hnone
    by (intros k _ _; set_solver).
  destruct (rename_loop old_path (new_prefix old_path new_name) Hapart
              (now w) (objects w) fuel None ∅ w Hmax eq_refl
              ltac:(by apply moved_start) Hnone Hfuel)
    as (w' & D & Hrun & Hmoved & HD).
  exists w'. unfold try_except, bind. rewrite Hrun. split_and!; [done|..].
  - intros suffix o Ho.
    rewrite (moved_copy _ _ _ _ _ _ Hmoved); [by rewrite Ho|].
    apply HD; [by eexists|apply startswith_app].
  - intros k Hk. destruct (decide (k ∈ D)) as [HkD|HkD].
    + by apply (moved_gone _ _ _ _ _ _ Hmoved).
    + rewrite (moved_rest _ _ _ _ _ _ Hmoved) by done.
      destruct (objects w !! k) eqn:Ho; [|done].
      exfalso. apply HkD, HD; [by eexists|done].
  - intros k Hk HkN. apply (moved_frame _ _ _ _ _ _ Hmoved); [done|].
    intros s ->. by rewrite startswith_app in HkN.
Qed.

Lemma rename_folder_moves_witness :
  ∃ w',
    S3AdvancedManager.rename_object 4 Samples.advanced "streamlit-app/b/"
      "renamed" Samples.small_pages
      = (Return (true, "Successfully renamed to 'renamed'"), w') ∧
    Body <$> objects w' !! "streamlit-app/renamed/d" = Some "3" ∧
    objects w' !! "streamlit-app/b/d" = None.
Proof.
  destruct (proj1 (rename_folder_moves 4 Samples.advanced "streamlit-app/b/"
                     "renamed" Samples.small_pages eq_refl
                     (conj eq_refl eq_refl)
                     ltac:(vm_compute; lia) ltac:(vm_compute; lia)))
    as (w' & Hrun & Hcopy & Hgone & _).
  exists w'. split_and!; [done|..].
  - change "streamlit-app/renamed/d"
      with (new_prefix "streamlit-app/b/" "renamed" +:+ "d").
    rewrite (Hcopy "d" (Samples.blob "3")); [done|].
    vm_compute. reflexivity.
  - by apply Hgone.
Defined.

(** C2 as the claim has it fails when the new name puts the new prefix
    under the old one: the rename completes, and the child is then still
    under the old prefix. *)
Lemma rename_into_itself :
  (S3AdvancedManager.rename_object 4 Samples.advanced "streamlit-app/b/"
     "b/z" Samples.one_child).1
    = Return (true, "Successfully renamed to 'b/z'") ∧
  Body <$> objects
    (S3AdvancedManager.rename_object 4 Samples.advanced "streamlit-app/b/"
       "b/z" Samples.one_child).2 !! "streamlit-app/b/z/a" = Some "1" ∧
  startswith "streamlit-app/b/z/a" "streamlit-app/b/" = true.
Proof. split_and!; vm_compute; reflexivity. Qed.

(** In the same situation a child can be lost: the copy of
    [streamlit-app/b/a] overwrites [streamlit-app/b/z/a], which is then
    moved on in its place. *)
Example rename_into_itself_overwrites :
  map_to_list (Body <$> objects
    (S3AdvancedManager.rename_object 4 Samples.advanced "streamlit-app/b/"
       "b/z" Samples.nested).2)
  = [("streamlit-app/b/z/z/a", "1")].
Proof. vm_compute. reflexivity. Qed.

(** ** What is passed to the store, for every operation *)

Section logs_facts.

Context (Q : Request → Prop).

Lemma logs_silent {A} (c : Gw A) : silent c → logs Q c.
Proof.
  intros Hc w. exists []. split; [|constructor].
  unfold sends. by rewrite Hc, List.app_nil_r.
Qed.

Lemma logs_send r : Q r → logs Q (send r).
Proof. intros Hr w. exists [r]. split; [done|by constructor]. Qed.

Lemma logs_write_objects m : logs Q (write_objects m).
Proof.
  intros w. exists []. split; [|constructor].
  unfold sends. simpl. by rewrite List.app_nil_r.
Qed.

Lemma logs_bind {A B} (c : Gw A) (k : A → Gw B) :
  logs Q c → (∀ a, logs Q (k a)) → logs Q (bind c k).
Proof.
  intros Hc Hk w. destruct (Hc w) as (r1 & H1 & Q1).
  unfold sends, bind in *. destruct (c w) as [[a|e|] w1]; simpl in *;
    [|by exists r1..].
  destruct (Hk a w1) as (r2 & H2 & Q2). exists (r1 ++ r2).
  split; [|by apply Forall_app]. unfold sends in H2.
  by rewrite H2, H1, List.app_assoc.
Qed.

Lemma logs_try_except {A} (c : Gw A) (h : string → Gw A) :
  logs Q c → (∀ e, logs Q (h e)) → logs Q (try_except c h).
Proof.
  intros Hc Hh w. destruct (Hc w) as (r1 & H1 & Q1).
  unfold sends, try_except in *. destruct (c w) as [[a|e|] w1]; simpl in *;
    [by exists r1| |by exists r1].
  destruct (Hh e w1) as (r2 & H2 & Q2). exists (r1 ++ r2).
  split; [|by apply Forall_app]. unfold sends in H2.
  by rewrite H2, H1, List.app_assoc.
Qed.

Lemma logs_for_each {A B} (xs : list B) (acc : A) (step : A → B → Gw A) :
  Forall (λ x, ∀ a, logs Q (step a x)) xs → logs Q (for_each xs acc step).
Proof.
  intros Hxs. revert acc. induction Hxs as [|x xs Hx _ IH]; intros acc.
  - apply logs_silent, silent_ret.
  - simpl. apply logs_bind; [apply Hx|]. intros a. apply IH.
Qed.

(** A pagination loop logs its listing requests and what its body logs
    on the pages of its prefix. *)
Lemma logs_paginate {A} (body : A → ListResponse → Gw A) fuel P tok acc :
  (∀ tok', Q (ListObjectsV2 P None tok')) →
  (∀ a w tok', logs Q (body a (list_page w P None tok'))) →
  logs Q (paginate fuel P tok acc body).
Proof.
  intros Hlist Hbody. revert tok acc.
  induction fuel as [|fuel IH]; intros tok acc w.
  - exists []. split; [|constructor]. unfold sends. simpl.
    by rewrite List.app_nil_r.
  - cbn [paginate]. unfold sends. unfold bind at 1.
    rewrite list_objects_v2_run.
    set (w1 := with_request (ListObjectsV2 P None tok) w).
    set (page := list_page w P None tok).
    assert (logs Q (bind (body acc page)
                      (λ acc', match NextContinuationToken page with
                               | Some t => paginate fuel P (Some t) acc' body
                               | None => ret acc'
                               end))) as Hrest.
    { apply logs_bind; [apply Hbody|]. intros a.
      destruct (NextContinuationToken page);
        [apply IH|apply logs_silent, silent_ret]. }
    destruct (Hrest w1) as (reqs & Hreqs & HQ). unfold sends in Hreqs.
    exists (ListObjectsV2 P None tok :: reqs). split; [|by constructor].
    rewrite Hreqs. simpl. by rewrite <- List.app_assoc.
Qed.

End logs_facts.

Section rename_requests.

Implicit Types (old_path new_name parent name k P N : string).

(** A file with a parent stays in its folder. *)
Lemma new_path_sibling parent name new_name :
  parent ≠ "" → name ≠ "" → contains "/" name = false →
  new_path (parent +:+ "/" +:+ name) new_name = parent +:+ "/" +:+ new_name.
Proof.
  intros Hparent Hname Hfree. unfold new_path.
  assert (endswith (parent +:+ "/" +:+ name) "/" = false) as Hend.
  { rewrite endswith_app_char by (by destruct name).
    rewrite (endswith_app_char "/") by done. by apply no_slash_end. }
  rewrite (rstrip_id slash) by exact Hend.
  change (parent +:+ "/" +:+ name) with (parent +:+ String slash name).
  rewrite split_app, (split_no_sep slash name Hfree).
  unfold but_last. rewrite removelast_last.
  change (join "/" (split slash parent))
    with (join (String slash "") (split slash parent)).
  rewrite join_split.
  by apply truthy_true in Hparent as ->.
Qed.

Lemma startswith_trans k P root :
  startswith k P = true → startswith P root = true →
  startswith k root = true.
Proof.
  intros [r ->]%startswith_spec Hroot. by apply startswith_app_l.
Qed.

Lemma either_rooted root P N reqs :
  rooted root P → rooted root N →
  Forall (keys_under_either P N) reqs → all_rooted root reqs.
Proof.
  intros HP HN Hreqs. eapply Forall_impl; [exact Hreqs|]. intros r Hr.
  eapply Forall_impl; [exact Hr|].
  intros k [Hk|Hk]; eapply startswith_trans; eauto.
Qed.

Lemma copy_object_logs P N source key :
  startswith source P = true → startswith key N = true →
  logs (keys_under_either P N) (copy_object source key).
Proof.
  intros Hs Hk. unfold copy_object.
  apply logs_bind; [apply logs_send; by repeat constructor|]. intros _.
  apply logs_bind; [apply logs_silent, silent_read_world|]. intros w'.
  apply logs_bind; [apply logs_silent, silent_of_option|]. intros o.
  apply logs_write_objects.
Qed.

Lemma delete_object_logs P N key :
  startswith key P = true →
  logs (keys_under_either P N) (Boto3.delete_object key).
Proof.
  intros Hk. unfold Boto3.delete_object.
  apply logs_bind; [apply logs_send; by repeat constructor|]. intros _.
  destruct (truthy key); [|apply logs_silent, silent_raise].
  apply logs_bind; [apply logs_silent, silent_read_objects|]. intros m.
  apply logs_write_objects.
Qed.

(** Every key [rename_object] passes to the store lies under the old
    path or under the new path it computes. *)
Lemma rename_object_logs fuel (adv : S3AdvancedManager.t) old_path new_name :
  logs (keys_under_either old_path (renamed old_path new_name))
       (S3AdvancedManager.rename_object fuel adv old_path new_name).
Proof.
  unfold S3AdvancedManager.rename_object, renamed. cbv zeta.
  fold (new_path old_path new_name).
  apply logs_try_except; [|intros ?; apply logs_silent, silent_ret].
  apply logs_bind; [|intros ?; apply logs_silent, silent_ret].
  destruct (endswith old_path "/") eqn:Hfolder.
  - change (new_path old_path new_name +:+ "/")
      with (new_prefix old_path new_name).
    set (N := new_prefix old_path new_name).
    apply logs_paginate.
    { intros tok. constructor; [|done]. left. apply startswith_refl. }
    intros [] w tok. unfold page_loop.
    destruct (list_page_plain w old_path tok) as [-> _].
    set (sums := summaries _ _).
    assert (Forall (λ obj, startswith (Key obj) old_path = true) sums)
      as Hsums.
    { apply Forall_forall. intros obj (k & Hk & Hobj)%list_elem_of_omap.
      cbn [summary] in Hobj.
      destruct (objects w !! k); [|done]. injection Hobj as <-.
      apply (subseteq_take (MaxKeys w)) in Hk.
      by apply elem_of_keys_under in Hk as (_ & ? & _). }
    destruct sums as [|obj sums]; [apply logs_silent, silent_ret|].
    cbn [present]. apply logs_for_each.
    eapply Forall_impl; [exact Hsums|]. intros x Hx [].
    unfold S3AdvancedManager.rename_one.
    apply under_app in Hx as [suffix Hx]. rewrite Hx, replace1_prefix.
    apply logs_bind; [|intros ?; apply delete_object_logs, startswith_app].
    apply copy_object_logs; apply startswith_app.
  - apply logs_bind;
      [|intros ?; apply delete_object_logs, startswith_refl].
    apply copy_object_logs; apply startswith_refl.
Qed.

(** Every key a folder delete passes to the store lies under the
    folder. *)
Lemma delete_folder_logs (self : S3Manager.t) w key :
  endswith key "/" = true →
  ∃ reqs, sends (S3Manager.delete_object self key) w reqs ∧
          Forall (keys_under_either key key) reqs.
Proof.
  intros Hfolder. destruct (S3Manager.connected self) eqn:Hconn.
  2:{ exists []. split; [|constructor]. unfold S3Manager.delete_object.
      rewrite Hconn. apply sends_nothing. }
  destruct (delete_folder_run self w key Hconn Hfolder)
    as (w' & Hrun & _ & reqs & Hreqs & Hdel).
  exists (ListObjectsV2 key None None :: reqs). split.
  - unfold sends. by rewrite Hrun.
  - constructor.
    { constructor; [|done]. left. apply startswith_refl. }
    apply Forall_forall. intros r ->%Hdel.
    apply Forall_forall. intros k Hk%(subseteq_take (MaxKeys w)).
    left. by apply elem_of_keys_under in Hk as (_ & ? & _).
Qed.

End rename_requests.

(** C5, as the code has it: listing, upload, folder creation and search
    resolve their path through the formatter, so every key or prefix
    they pass to the store begins with the root prefix, and the prefix
    that listing and search pass ends with a slash. Folder-size
    aggregation passes its argument, slash-terminated, whether or not it
    is rooted: the prefix it lists is rooted when the argument is.
    Download, single-key delete, preview, metadata and presigning pass the
    key they are given. A folder delete passes the folder key and keys
    under it. A rename passes keys under the old path and keys under
    the new path it computes, which is the parent of the old path
    followed by the new name: they are rooted when both paths are, as
    for an old path with a rooted parent, and the new name alone when the
    old path has no parent. *)
Theorem gateway_keys (self : S3Manager.t) (adv : S3AdvancedManager.t)
    (ext : Externals) (fuel : nat) (w : World)
    (rel_path name key : string) (file : UploadedFile)
    (expiration max_size : Z) :
  (∃ reqs, sends (S3Manager.list_objects self rel_path) w reqs ∧
           all_rooted (S3Manager.app_prefix self) reqs ∧
           all_folder_listings reqs) ∧
  (∃ reqs, sends (S3Manager.upload_file self file rel_path) w reqs ∧
           all_rooted (S3Manager.app_prefix self) reqs) ∧
  (∃ reqs, sends (S3Manager.create_folder self name rel_path) w reqs ∧
           all_rooted (S3Manager.app_prefix self) reqs) ∧
  (∃ reqs, sends (S3AdvancedManager.search_files ext fuel adv name
                    rel_path) w reqs ∧
           all_rooted (S3AdvancedManager.app_prefix adv) reqs ∧
           all_folder_listings reqs) ∧
  (∃ reqs, sends (S3AdvancedManager.get_folder_size fuel adv rel_path) w
                 reqs ∧
           all_folder_listings reqs ∧
           Forall (λ r, ∃ tok,
                     r = ListObjectsV2
                           (if endswith rel_path "/" then rel_path
                            else rel_path +:+ "/") None tok) reqs ∧
           (rooted (S3AdvancedManager.app_prefix adv) rel_path →
            all_rooted (S3AdvancedManager.app_prefix adv) reqs)) ∧
  sends (S3Manager.download_file self key) w
    (if S3Manager.connected self then [GetObject key] else []) ∧
  (endswith key "/" = false →
   sends (S3Manager.delete_object self key) w
     (if S3Manager.connected self then [DeleteObject key] else [])) ∧
  (∃ reqs, sends (S3AdvancedManager.get_file_preview ext adv key max_size) w
                 reqs ∧
           Forall (λ r, request_keys r = [key]) reqs) ∧
  sends (S3AdvancedManager.get_file_metadata ext adv key) w
    [HeadObject key] ∧
  sends (S3AdvancedManager.generate_presigned_url adv key expiration) w
    [GeneratePresignedUrl key expiration] ∧
  (endswith key "/" = true →
   ∃ reqs, sends (S3Manager.delete_object self key) w reqs ∧
           Forall (keys_under_either key key) reqs ∧
           (rooted (S3Manager.app_prefix self) key →
            all_rooted (S3Manager.app_prefix self) reqs)) ∧
  (∃ reqs, sends (S3AdvancedManager.rename_object fuel adv key name) w
                 reqs ∧
           Forall (keys_under_either key (renamed key name)) reqs ∧
           (rooted (S3AdvancedManager.app_prefix adv) key →
            rooted (S3AdvancedManager.app_prefix adv) (renamed key name) →
            all_rooted (S3AdvancedManager.app_prefix adv) reqs)) ∧
  (∀ parent seg,
     parent ≠ "" → seg ≠ "" → contains "/" seg = false →
     renamed (parent +:+ "/" +:+ seg +:+ "/") name
       = parent +:+ "/" +:+ name +:+ "/" ∧
     renamed (parent +:+ "/" +:+ seg) name = parent +:+ "/" +:+ name ∧
     (rooted (S3AdvancedManager.app_prefix adv) parent →
      rooted (S3AdvancedManager.app_prefix adv)
             (renamed (parent +:+ "/" +:+ seg +:+ "/") name) ∧
      rooted (S3AdvancedManager.app_prefix adv)
             (renamed (parent +:+ "/" +:+ seg) name))) ∧
  (∀ seg, seg ≠ "" → contains "/" seg = false →
          renamed (seg +:+ "/") name = name +:+ "/").
Proof.
  split_and!.
  - apply list_objects_sends.
  - apply upload_file_sends.
  - apply create_folder_sends.
  - apply search_files_sends.
  - apply get_folder_size_sends.
  - apply download_file_sends.
  - apply delete_file_sends.
  - apply get_file_preview_sends.
  - unfold sends. by rewrite get_file_metadata_world.
  - apply generate_presigned_url_sends.
  - intros Hfolder.
    destruct (delete_folder_logs self w key Hfolder) as (reqs & Hs & Hk).
    exists reqs. split_and!; [done..|]. intros Hroot.
    by apply (either_rooted _ key key).
  - destruct (rename_object_logs fuel adv key name w) as (reqs & Hs & Hk).
    exists reqs. split_and!; [done..|]. intros H1 H2.
    by apply (either_rooted _ key (renamed key name)).
  - intros parent seg Hparent Hseg Hfree.
    assert (endswith (parent +:+ "/" +:+ seg) "/" = false) as Hend.
    { rewrite endswith_app_char by (by destruct seg).
      rewrite (endswith_app_char "/") by done. by apply no_slash_end. }
    assert (renamed (parent +:+ "/" +:+ seg +:+ "/") name
            = parent +:+ "/" +:+ name +:+ "/") as ->.
    { unfold renamed.
      replace (parent +:+ "/" +:+ seg +:+ "/")
        with ((parent +:+ "/" +:+ seg) +:+ "/")
        by (by rewrite !str_app_assoc).
      rewrite endswith_app. rewrite !str_app_assoc.
      by apply new_prefix_sibling. }
    assert (renamed (parent +:+ "/" +:+ seg) name
            = parent +:+ "/" +:+ name) as ->.
    { unfold renamed. rewrite Hend. by apply new_path_sibling. }
    split_and!; [done..|]. intros Hroot.
    split; by apply startswith_app_l.
  - intros seg Hseg Hfree. unfold renamed. rewrite endswith_app.
    unfold new_prefix.
    change (seg +:+ "/") with (seg +:+ String slash "").
    rewrite (rstrip_app_char slash) by (done || by apply no_slash_end).
    by rewrite (split_no_sep slash seg Hfree).
Qed.

(** C5 as the claim has it fails for a rename that the listing leads
    to. In an empty bucket, creating a folder with the name ["/x"] stores
    the key ["streamlit-app//x/"]; the listing of the root then shows the
    folder row ["streamlit-app//"]; renaming that row to ["y"] copies the
    object to ["y/x/"], a key outside the root prefix. *)
Lemma rename_leaves_root :
  let w1 := (S3Manager.create_folder Samples.manager "/x" ""
               (Samples.bucket 1000 [])).2 in
  let listing := S3Manager.list_objects Samples.manager "" w1 in
  path <$> (default ([], [])
              (match listing.1 with Return r => Some r | _ => None end)).1
    = ["streamlit-app//"] ∧
  requests (S3AdvancedManager.rename_object 2 Samples.advanced
              "streamlit-app//" "y" listing.2).2
    = [PutObject "streamlit-app//x/";
       ListObjectsV2 "streamlit-app/" (Some slash) None;
       ListObjectsV2 "streamlit-app//" None None;
       CopyObject "streamlit-app//x/" "y/x/";
       DeleteObject "streamlit-app//x/"] ∧
  startswith "y/x/" (S3AdvancedManager.app_prefix Samples.advanced) = false.
Proof. split_and!; vm_compute; reflexivity. Qed.

(** Folder-size aggregation lists the prefix it is given, rooted or
    not. *)
Lemma get_folder_size_not_rooted :
  requests (S3AdvancedManager.get_folder_size 1 Samples.advanced "other"
              (Samples.bucket 1000 [])).2
    = [ListObjectsV2 "other/" None None] ∧
  startswith "other/" (S3AdvancedManager.app_prefix Samples.advanced) = false.
Proof. split; vm_compute; reflexivity. Qed.

Lemma gateway_keys_witness :
  sends (S3Manager.delete_object Samples.manager
           "streamlit-app/a/other.txt") Samples.tree
    [DeleteObject "streamlit-app/a/other.txt"].
Proof.
  refine (proj1 (proj2 (proj2 (proj2 (proj2 (proj2 (proj2
    (gateway_keys Samples.manager Samples.advanced Samples.externals 0
       Samples.tree "" "" "streamlit-app/a/other.txt"
       {| file_name := ""; file_content := "" |} 0 0))))))) _).
  reflexivity.
Defined.

(** * Further properties *)

(** ** The formatter and outer slashes *)

Lemma strip_idem s : strip slash (strip slash s) = strip slash s.
Proof.
  destruct (strip_clean s) as [H1 H2]. unfold strip at 1.
  rewrite (lstrip_id slash) by exact H1. by apply (rstrip_id slash).
Qed.

(** X1: slashes at either end of the argument do not matter to the
    formatter: a path and the same path without its leading and trailing
    slashes are resolved to the same prefix, whatever the root prefix. *)
Theorem format_path_outer_slashes (app_prefix p : string) :
  format_path app_prefix (Some (strip slash p))
    = format_path app_prefix (Some p) ∧
  _format_path app_prefix (Some (strip slash p))
    = _format_path app_prefix (Some p).
Proof.
  rewrite format_path_same.
  enough (format_path app_prefix (Some (strip slash p))
          = format_path app_prefix (Some p)) by done.
  destruct (decide (p = "")) as [->|Hp]; [done|].
  rewrite (format_path_truthy app_prefix p) by done.
  destruct (decide (strip slash p = "")) as [Hs|Hs].
  - rewrite Hs. cbv zeta. destruct app_prefix as [|a r]; [done|].
    cbn [startswith format_path truthy negb].
    by rewrite str_app_nil_r, endswith_app.
  - rewrite (format_path_truthy app_prefix (strip slash p)) by done.
    by rewrite strip_idem.
Qed.

(** ** Upload, download and delete of one file *)

Section file_operations.

Context (self : S3Manager.t) (w : World).
Hypothesis Hconn : S3Manager.connected self = true.

Lemma upload_file_run file rel_path :
  S3Manager.upload_file self file rel_path w =
    (Return (true, "File '" +:+ file_name file +:+ "' uploaded successfully"),
     with_objects
       (<[S3Manager.format_path self (Some rel_path) +:+ file_name file :=
            new_object w (file_content file)]> (objects w))
       (with_request
          (UploadFileobj
             (S3Manager.format_path self (Some rel_path) +:+ file_name file))
          w)).
Proof. unfold S3Manager.upload_file. by rewrite Hconn. Qed.

Lemma download_file_run key :
  S3Manager.download_file self key w =
    (match objects w !! key with
     | Some o => Return (Some (Body o), None)
     | None => Return (None, Some ("Download failed: " +:+ "NoSuchKey"))
     end, with_request (GetObject key) w).
Proof.
  unfold S3Manager.download_file. rewrite Hconn. cbn [negb].
  unfold try_except, bind. rewrite get_object_run.
  by destruct (objects w !! key).
Qed.

Lemma delete_file_run key :
  endswith key "/" = false → key ≠ "" →
  S3Manager.delete_object self key w =
    (Return (true, "File deleted successfully"),
     with_objects (delete key (objects w))
       (with_request (DeleteObject key) w)).
Proof.
  intros Hkey Hne%truthy_true. unfold S3Manager.delete_object.
  rewrite Hconn, Hkey. cbn [negb]. unfold try_except, bind.
  by rewrite delete_object_run, Hne.
Qed.

(** The empty key is refused by the client: the delete fails and the
    store is as before. *)
Lemma delete_empty_key_run :
  S3Manager.delete_object self "" w =
    (Return (false, "Delete failed: " +:+ "Parameter validation failed"),
     with_request (DeleteObject "") w).
Proof. unfold S3Manager.delete_object. by rewrite Hconn. Qed.

Lemma create_folder_run folder_name rel_path :
  S3Manager.create_folder self folder_name rel_path w =
    (Return (true, "Folder '" +:+ folder_name +:+ "' created successfully"),
     with_objects
       (<[listing_root self rel_path +:+ folder_name +:+ "/" :=
            new_object w ""]> (objects w))
       (with_request
          (PutObject (listing_root self rel_path +:+ folder_name +:+ "/"))
          w)).
Proof. unfold S3Manager.create_folder. by rewrite Hconn. Qed.

End file_operations.

(** X2: what is uploaded can be downloaded. A connected manager stores
    the file under the resolved folder prefix followed by the file's name,
    leaves every other key as it was, and a download of that key then
    returns the uploaded content and no error. *)
Theorem upload_then_download (self : S3Manager.t) (file : UploadedFile)
    (rel_path : string) (w : World) :
  S3Manager.connected self = true →
  let file_key :=
    S3Manager.format_path self (Some rel_path) +:+ file_name file in
  ∃ w1,
    S3Manager.upload_file self file rel_path w
      = (Return (true,
                 "File '" +:+ file_name file +:+ "' uploaded successfully"),
         w1) ∧
    (∀ k, k ≠ file_key → objects w1 !! k = objects w !! k) ∧
    (S3Manager.download_file self file_key w1).1
      = Return (Some (file_content file), None).
Proof.
  intros Hconn file_key. rewrite upload_file_run by done. fold file_key.
  eexists. split; [done|]. split.
  - intros k Hk. simpl. by rewrite lookup_insert_ne.
  - rewrite download_file_run by done. simpl.
    by rewrite lookup_insert_eq.
Qed.

Lemma upload_then_download_witness :
  ∃ w1,
    S3Manager.upload_file Samples.manager
      {| file_name := "notes.txt"; file_content := "hello" |} "docs"
      Samples.tree
      = (Return (true, "File 'notes.txt' uploaded successfully"), w1) ∧
    (S3Manager.download_file Samples.manager "streamlit-app/docs/notes.txt"
       w1).1 = Return (Some "hello", None).
Proof.
  destruct (upload_then_download Samples.manager
              {| file_name := "notes.txt"; file_content := "hello" |} "docs"
              Samples.tree eq_refl) as (w1 & Hup & _ & Hdown).
  exists w1. split; [exact Hup|exact Hdown].
Defined.

(** X3: a manager that is not connected sends no request and changes
    nothing: listing returns no folders and no files, and upload,
    download, delete and folder creation report that there is no
    connection. *)
Theorem not_connected_sends_nothing (self : S3Manager.t) (w : World) :
  S3Manager.connected self = false →
  (∀ p, S3Manager.list_objects self p w = (Return ([], []), w)) ∧
  (∀ file p, S3Manager.upload_file self file p w
             = (Return (false, "Not connected to S3"), w)) ∧
  (∀ k, S3Manager.download_file self k w
        = (Return (None, Some "Not connected to S3"), w)) ∧
  (∀ k, S3Manager.delete_object self k w
        = (Return (false, "Not connected to S3"), w)) ∧
  (∀ n p, S3Manager.create_folder self n p w
          = (Return (false, "Not connected to S3"), w)).
Proof.
  intros Hconn.
  unfold S3Manager.list_objects, S3Manager.upload_file,
    S3Manager.download_file, S3Manager.delete_object, S3Manager.create_folder.
  rewrite Hconn. by split_and!.
Qed.

Lemma not_connected_sends_nothing_witness :
  S3Manager.delete_object
    {| S3Manager.bucket_name := "files";
       S3Manager.app_prefix := "streamlit-app";
       S3Manager.connected := false |}
    "streamlit-app/b/" Samples.small_pages
  = (Return (false, "Not connected to S3"), Samples.small_pages).
Proof.
  refine (proj1 (proj2 (proj2 (proj2
    (not_connected_sends_nothing
       {| S3Manager.bucket_name := "files";
          S3Manager.app_prefix := "streamlit-app";
          S3Manager.connected := false |} Samples.small_pages _)))) _).
  reflexivity.
Defined.

(** X4: a download of a key that is not stored fails softly: the fault
    of the store is turned into the pair of no content and a message that
    begins with "Download failed: ", after one read request, and nothing
    stored changes. *)
Theorem download_file_missing (self : S3Manager.t) (key : string)
    (w : World) :
  S3Manager.connected self = true → objects w !! key = None →
  ∃ e w1,
    S3Manager.download_file self key w
      = (Return (None, Some ("Download failed: " +:+ e)), w1) ∧
    objects w1 = objects w ∧
    requests w1 = requests w ++ [GetObject key].
Proof.
  intros Hconn Hkey. rewrite download_file_run by done. rewrite Hkey.
  by eexists _, _.
Qed.

Lemma download_file_missing_witness :
  ∃ e w1,
    S3Manager.download_file Samples.manager "streamlit-app/none" Samples.tree
      = (Return (None, Some ("Download failed: " +:+ e)), w1) ∧
    objects w1 = objects Samples.tree ∧
    requests w1 = requests Samples.tree ++ [GetObject "streamlit-app/none"].
Proof.
  apply (download_file_missing Samples.manager "streamlit-app/none"
           Samples.tree); reflexivity.
Defined.

(** X5: deleting a key that is not empty and does not end with a slash
    removes that key and no other, and reports success whether or not
    the key was stored; a download of the key then fails. The empty key
    is refused by the client: the delete reports failure with a message
    that begins with "Delete failed: ", and nothing stored changes. *)
Theorem delete_file_removes_key (self : S3Manager.t) (key : string)
    (w : World) :
  S3Manager.connected self = true → endswith key "/" = false →
  (key ≠ "" →
   ∃ w1,
     S3Manager.delete_object self key w
       = (Return (true, "File deleted successfully"), w1) ∧
     objects w1 !! key = None ∧
     (∀ k, k ≠ key → objects w1 !! k = objects w !! k) ∧
     ∃ e, (S3Manager.download_file self key w1).1
          = Return (None, Some ("Download failed: " +:+ e))) ∧
  (key = "" →
   ∃ e w1,
     S3Manager.delete_object self key w
       = (Return (false, "Delete failed: " +:+ e), w1) ∧
     objects w1 = objects w).
Proof.
  intros Hconn Hkey. split.
  - intros Hne. rewrite delete_file_run by done.
    eexists. split; [done|]. simpl. split_and!.
    + apply lookup_delete_eq.
    + intros k Hk. by rewrite lookup_delete_ne.
    + rewrite download_file_run by done. simpl. rewrite lookup_delete_eq.
      by eexists.
  - intros ->. rewrite delete_empty_key_run by done. by eexists _, _.
Qed.

Lemma delete_file_removes_key_witness :
  ∃ w1,
    S3Manager.delete_object Samples.manager "streamlit-app/a/other.txt"
      Samples.tree
      = (Return (true, "File deleted successfully"), w1) ∧
    objects w1 !! "streamlit-app/a/other.txt" = None.
Proof.
  destruct (proj1 (delete_file_removes_key Samples.manager
                     "streamlit-app/a/other.txt" Samples.tree eq_refl
                     eq_refl))
    as (w1 & Hrun & Hgone & _); [discriminate|].
  exists w1. split; [exact Hrun|exact Hgone].
Defined.

(** X6: deleting a folder touches no key outside it: every key that does
    not start with the folder's prefix is stored afterwards exactly as
    before. *)
Theorem delete_folder_frame (self : S3Manager.t) (P : string) (w : World) :
  S3Manager.connected self = true → endswith P "/" = true →
  ∀ k, startswith k P = false →
       objects (S3Manager.delete_object self P w).2 !! k = objects w !! k.
Proof.
  intros Hconn Hfolder k Hk.
  destruct (delete_folder_run self w P Hconn Hfolder)
    as (w' & Hrun & Hobjs & _).
  rewrite Hrun. cbn [snd]. rewrite Hobjs.
  apply lookup_foldr_delete_not_elem_of.
  intros Hin%(subseteq_take (MaxKeys w)).
  apply elem_of_keys_under in Hin as (_ & Hin & _). congruence.
Qed.

Lemma delete_folder_frame_witness :
  objects (S3Manager.delete_object Samples.manager "streamlit-app/b/"
             Samples.small_pages).2 !! "streamlit-app/x"
  = objects Samples.small_pages !! "streamlit-app/x".
Proof.
  apply (delete_folder_frame Samples.manager "streamlit-app/b/"
           Samples.small_pages); reflexivity.
Defined.
(** ** Renaming one file *)

Section rename_file_facts.

Implicit Types (parent name new_name old_path : string).

Lemma rename_file_unfold fuel self old_path new_name :
  endswith old_path "/" = false →
  S3AdvancedManager.rename_object fuel self old_path new_name =
    try_except
      (bind
         (bind (copy_object old_path (new_path old_path new_name))
               (λ _, Boto3.delete_object old_path))
         (λ _, ret (true, "Successfully renamed to '" +:+ new_name +:+ "'")))
      (λ e, ret (false, "Rename failed: " +:+ e)).
Proof. intros H. unfold S3AdvancedManager.rename_object. by rewrite H. Qed.

Lemma copy_object_run source key w :
  copy_object source key w =
    match objects w !! source with
    | Some o =>
        (Return tt,
         with_objects (<[key := restamp (now w) o]> (objects w))
           (with_request (CopyObject source key) w))
    | None => (Raise "NoSuchKey", with_request (CopyObject source key) w)
    end.
Proof.
  unfold copy_object, bind. simpl. by destruct (objects w !! source).
Qed.

End rename_file_facts.

(** X7: renaming a file [parent/name] to a different name moves it: the
    object is stored under [parent/new_name] as a copy stamped with the
    time of the copy, the old key is gone, every other key is as before,
    and the store received one copy and one delete. *)
Theorem rename_file_moves (fuel : nat) (self : S3AdvancedManager.t)
    (parent name new_name : string) (o : S3Object) (w : World) :
  parent ≠ "" → name ≠ "" → contains "/" name = false → new_name ≠ name →
  objects w !! (parent +:+ "/" +:+ name) = Some o →
  ∃ w1,
    S3AdvancedManager.rename_object fuel self (parent +:+ "/" +:+ name)
      new_name w
      = (Return (true, "Successfully renamed to '" +:+ new_name +:+ "'"),
         w1) ∧
    objects w1 !! (parent +:+ "/" +:+ new_name) = Some (restamp (now w) o) ∧
    objects w1 !! (parent +:+ "/" +:+ name) = None ∧
    (∀ k, k ≠ parent +:+ "/" +:+ name → k ≠ parent +:+ "/" +:+ new_name →
          objects w1 !! k = objects w !! k) ∧
    requests w1 = requests w ++
      [CopyObject (parent +:+ "/" +:+ name) (parent +:+ "/" +:+ new_name);
       DeleteObject (parent +:+ "/" +:+ name)].
Proof.
  intros Hparent Hname Hfree Hne Ho.
  assert (endswith (parent +:+ "/" +:+ name) "/" = false) as Hend.
  { rewrite endswith_app_char by (by destruct name).
    rewrite (endswith_app_char "/") by done. by apply no_slash_end. }
  assert (parent +:+ "/" +:+ new_name ≠ parent +:+ "/" +:+ name) as Hkeys.
  { intros Heq. by do 2 apply str_app_inv_head in Heq. }
  assert (truthy (parent +:+ "/" +:+ name) = true) as Hkey
    by (by destruct parent).
  rewrite rename_file_unfold by done. rewrite new_path_sibling by done.
  unfold try_except, bind. rewrite copy_object_run, Ho.
  rewrite delete_object_run, Hkey.
  eexists. split; [reflexivity|]. simpl. split_and!.
  - by rewrite lookup_delete_ne, lookup_insert_eq.
  - by rewrite lookup_delete_eq.
  - intros k H1 H2. by rewrite lookup_delete_ne, lookup_insert_ne.
  - by rewrite <- List.app_assoc.
Qed.

Lemma rename_file_moves_witness :
  ∃ w1,
    S3AdvancedManager.rename_object 0 Samples.advanced
      "streamlit-app/a/other.txt" "notes.txt" Samples.tree
      = (Return (true, "Successfully renamed to 'notes.txt'"), w1) ∧
    Body <$> objects w1 !! "streamlit-app/a/notes.txt" = Some "other" ∧
    objects w1 !! "streamlit-app/a/other.txt" = None.
Proof.
  destruct (rename_file_moves 0 Samples.advanced "streamlit-app/a"
              "other.txt" "notes.txt" (Samples.blob "other") Samples.tree)
    as (w1 & Hrun & Hnew & Hold & _); [done..|].
  exists w1. split; [exact Hrun|]. split; [|exact Hold].
  change ("streamlit-app/a" +:+ "/" +:+ "notes.txt")
    with "streamlit-app/a/notes.txt" in Hnew.
  by rewrite Hnew.
Defined.

(** X8: renaming a file that is not stored fails without changing
    anything: the copy is refused, the result is failure with a message
    that begins with "Rename failed: ", no delete is sent and the stored
    objects are as before. *)
Theorem rename_file_missing (fuel : nat) (self : S3AdvancedManager.t)
    (old_path new_name : string) (w : World) :
  endswith old_path "/" = false → objects w !! old_path = None →
  ∃ e w1,
    S3AdvancedManager.rename_object fuel self old_path new_name w
      = (Return (false, "Rename failed: " +:+ e), w1) ∧
    objects w1 = objects w ∧
    requests w1 = requests w ++
      [CopyObject old_path (new_path old_path new_name)].
Proof.
  intros Hend Ho. rewrite rename_file_unfold by done.
  unfold try_except, bind. rewrite copy_object_run, Ho.
  by eexists _, _.
Qed.

Lemma rename_file_missing_witness :
  ∃ e w1,
    S3AdvancedManager.rename_object 0 Samples.advanced
      "streamlit-app/a/none.txt" "notes.txt" Samples.tree
      = (Return (false, "Rename failed: " +:+ e), w1) ∧
    objects w1 = objects Samples.tree ∧
    requests w1 = requests Samples.tree ++
      [CopyObject "streamlit-app/a/none.txt"
         (new_path "streamlit-app/a/none.txt" "notes.txt")].
Proof.
  apply (rename_file_missing 0 Samples.advanced "streamlit-app/a/none.txt"
           "notes.txt" Samples.tree); reflexivity.
Defined.

(** ** The size of a folder *)

Section folder_size_facts.

Implicit Types (m : gmap string S3Object) (l : list string).

Lemma summaries_sizes_under m l :
  Size <$> summaries m l = omap (λ k, ContentLength <$> m !! k) l.
Proof.
  induction l as [|k l IH]; [done|]. unfold summaries in *. simpl.
  destruct (m !! k); simpl; [f_equal|]; exact IH.
Qed.

Lemma fold_size_step (sums : list ObjectSummary) t c :
  fold_outcome size_step sums (t, c) =
    Return (t + foldr Z.add 0 (Size <$> sums), c + Z.of_nat (length sums)).
Proof.
  revert t c. induction sums as [|obj sums IH]; intros t c.
  - cbn [fold_outcome fmap list_fmap foldr length].
    by rewrite !Z.add_0_r.
  - cbn [fold_outcome size_step fst snd]. rewrite IH.
    cbn [fmap list_fmap foldr length].
    by rewrite Nat2Z.inj_succ, <- !Z.add_assoc, Z.add_1_l.
Qed.

Lemma folder_prefix_eq folder_path :
  (if negb (endswith folder_path "/") then folder_path +:+ "/"
   else folder_path) = folder_prefix folder_path.
Proof. unfold folder_prefix. by destruct (endswith folder_path "/"). Qed.

(** What [get_folder_size] does when it has fuel for the listing: it
    visits every key under the prefix once and formats the sum. *)
Lemma get_folder_size_run fuel (self : S3AdvancedManager.t) folder_path w :
  (0 < MaxKeys w)%nat →
  (length (keys_under (objects w) (folder_prefix folder_path) None)
   < fuel)%nat →
  ∃ reqs,
    S3AdvancedManager.get_folder_size fuel self folder_path w =
      (match
         _format_size (total_under (objects w) (folder_prefix folder_path))
       with
       | Some formatted =>
           Return
             {| total_size :=
                  total_under (objects w) (folder_prefix folder_path);
                file_count :=
                  Z.of_nat
                    (length
                       (keys_under (objects w) (folder_prefix folder_path)
                          None));
                formatted_size := formatted;
                error := None |}
       | None =>
           Return {| total_size := 0; file_count := 0;
                     formatted_size := "0 B";
                     error := Some "OverflowError" |}
       end, with_requests reqs w) ∧
    Forall (λ r, ∃ tok,
              r = ListObjectsV2 (folder_prefix folder_path) None tok) reqs.
Proof.
  intros Hmax Hfuel.
  unfold S3AdvancedManager.get_folder_size. cbv zeta.
  rewrite folder_prefix_eq. set (P := folder_prefix folder_path) in *.
  match goal with
  | |- context [paginate fuel P None ?acc (page_loop ?step)] =>
      destruct (paginate_pure step size_step fuel P None acc w)
        as (reqs & Hrun & Hreqs); [by intros [??] ??|done|done|]
  end.
  rewrite fold_size_step, summaries_sizes_under in Hrun.
  assert (length (summaries (objects w) (keys_under (objects w) P None))
          = length (keys_under (objects w) P None)) as Hlen.
  { rewrite <- (length_fmap Key). f_equal. apply summaries_keys.
    apply Forall_forall. intros k Hk.
    by apply elem_of_keys_under in Hk as [? _]. }
  rewrite Hlen in Hrun. fold (sizes_under (objects w) P) in Hrun.
  fold (total_under (objects w) P) in Hrun.
  exists reqs. split; [|done].
  unfold try_except, bind. rewrite Hrun. rewrite !Z.add_0_l.
  unfold S3AdvancedManager._format_size. rewrite format_size_same.
  by destruct (format_size (total_under (objects w) P)).
Qed.

End folder_size_facts.

(** X9: the size of a folder is the sum over all pages. With fuel for
    the listing and a total a float can hold, [get_folder_size] reports
    the sum of the sizes of all objects whose key starts with the folder
    path made slash-terminated, their number, the formatted sum and no
    error; it sends listing requests only and changes nothing. *)
Theorem get_folder_size_total (fuel : nat) (self : S3AdvancedManager.t)
    (folder_path : string) (w : World) :
  (0 < MaxKeys w)%nat →
  (length (keys_under (objects w) (folder_prefix folder_path) None)
   < fuel)%nat →
  0 ≤ total_under (objects w) (folder_prefix folder_path) < 2 ^ 1023 →
  ∃ formatted reqs,
    S3AdvancedManager.get_folder_size fuel self folder_path w =
      (Return
         {| total_size := total_under (objects w) (folder_prefix folder_path);
            file_count :=
              Z.of_nat
                (length
                   (keys_under (objects w) (folder_prefix folder_path) None));
            formatted_size := formatted;
            error := None |},
       with_requests reqs w) ∧
    _format_size (total_under (objects w) (folder_prefix folder_path))
      = Some formatted ∧
    Forall (λ r, ∃ tok,
              r = ListObjectsV2 (folder_prefix folder_path) None tok) reqs.
Proof.
  intros Hmax Hfuel Htotal.
  destruct (get_folder_size_run fuel self folder_path w Hmax Hfuel)
    as (reqs & Hrun & Hreqs).
  destruct (format_size_total _ Htotal) as [sz Hsz].
  rewrite format_size_same, Hsz in Hrun.
  exists sz, reqs. by rewrite format_size_same.
Qed.

Lemma get_folder_size_total_witness :
  ∃ reqs,
    S3AdvancedManager.get_folder_size 5 Samples.advanced "streamlit-app/b"
      Samples.small_pages =
      (Return {| total_size := 3; file_count := 3;
                 formatted_size := "3.0 B"; error := None |},
       with_requests reqs Samples.small_pages).
Proof.
  destruct (get_folder_size_total 5 Samples.advanced "streamlit-app/b"
              Samples.small_pages) as (sz & reqs & Hrun & Hsz & _).
  - vm_compute. lia.
  - vm_compute. lia.
  - vm_compute. split; congruence.
  - exists reqs. rewrite Hrun.
    assert (sz = "3.0 B") as -> by (vm_compute in Hsz; congruence).
    reflexivity.
Defined.
(** ** Operations that only read *)

Section read_only_facts.

Lemma read_only_silent {A} (c : Gw A) : silent c → read_only c.
Proof. intros Hc w. by rewrite Hc. Qed.

Lemma read_only_send r : read_only (send r).
Proof. by intros w. Qed.

Lemma read_only_bind {A B} (c : Gw A) (k : A → Gw B) :
  read_only c → (∀ a, read_only (k a)) → read_only (bind c k).
Proof.
  intros Hc Hk w. unfold bind. specialize (Hc w).
  destruct (c w) as [[a|e|] w1]; simpl in *; [|done..].
  by rewrite Hk.
Qed.

Lemma read_only_try_except {A} (c : Gw A) (h : string → Gw A) :
  read_only c → (∀ e, read_only (h e)) → read_only (try_except c h).
Proof.
  intros Hc Hh w. unfold try_except. specialize (Hc w).
  destruct (c w) as [[a|e|] w1]; simpl in *; [done| |done].
  by rewrite Hh.
Qed.

Lemma read_only_list_objects_v2 P d tok : read_only (list_objects_v2 P d tok).
Proof. by intros w. Qed.

Lemma read_only_get_object k : read_only (get_object k).
Proof. intros w. by rewrite get_object_run. Qed.

Lemma read_only_head_object k : read_only (head_object k).
Proof. intros w. by rewrite head_object_run. Qed.

Lemma read_only_paginate {A} (body : A → ListResponse → Gw A) fuel P tok acc :
  (∀ a page, silent (body a page)) → read_only (paginate fuel P tok acc body).
Proof.
  intros Hbody w.
  destruct (paginate_requests body fuel P tok acc w Hbody) as (reqs & -> & _).
  by destruct (with_requests_fields reqs w) as (-> & _).
Qed.

End read_only_facts.

(** X10: the operations that only read change no stored object,
    whatever their arguments and whatever they return: listing, download,
    search, folder size, preview, metadata and link generation leave
    every key and every object as they found them. *)
Theorem read_only_operations (self : S3Manager.t)
    (adv : S3AdvancedManager.t) (ext : Externals) (fuel : nat) :
  (∀ p, read_only (S3Manager.list_objects self p)) ∧
  (∀ k, read_only (S3Manager.download_file self k)) ∧
  (∀ term p,
     read_only (S3AdvancedManager.search_files ext fuel adv term p)) ∧
  (∀ p, read_only (S3AdvancedManager.get_folder_size fuel adv p)) ∧
  (∀ k max_size,
     read_only (S3AdvancedManager.get_file_preview ext adv k max_size)) ∧
  (∀ k, read_only (S3AdvancedManager.get_file_metadata ext adv k)) ∧
  (∀ k expiration,
     read_only (S3AdvancedManager.generate_presigned_url adv k expiration)).
Proof.
  split_and!.
  - intros p. unfold S3Manager.list_objects.
    destruct (S3Manager.connected self); cbn [negb];
      [|apply read_only_silent, silent_ret].
    apply read_only_try_except; [|intros ?; apply read_only_silent, silent_ret].
    apply read_only_bind; [apply read_only_list_objects_v2|].
    intros response. apply read_only_silent. solve_silent.
  - intros k. unfold S3Manager.download_file.
    destruct (S3Manager.connected self); cbn [negb];
      [|apply read_only_silent, silent_ret].
    apply read_only_try_except; [|intros ?; apply read_only_silent, silent_ret].
    apply read_only_bind; [apply read_only_get_object|].
    intros ?. apply read_only_silent, silent_ret.
  - intros term p. rewrite search_files_unfold.
    apply read_only_try_except; [|intros ?; apply read_only_silent, silent_ret].
    apply read_only_paginate. intros a page. apply silent_page_loop.
    intros a' x w'. by rewrite search_one_pure.
  - intros p. unfold S3AdvancedManager.get_folder_size. cbv zeta.
    apply read_only_try_except; [|intros ?; apply read_only_silent, silent_ret].
    apply read_only_bind.
    + apply read_only_paginate. intros a page. apply silent_page_loop.
      intros [??] ?. apply silent_ret.
    + intros [??]. apply read_only_silent. solve_silent.
  - intros k max_size. unfold S3AdvancedManager.get_file_preview.
    apply read_only_try_except; [|intros ?; apply read_only_silent, silent_ret].
    apply read_only_bind; [apply read_only_head_object|]. intros response.
    destruct (max_size <? ContentLength response).
    + apply read_only_silent.
      unfold S3AdvancedManager.too_large_message. solve_silent.
    + apply read_only_bind; [apply read_only_get_object|].
      intros obj. apply read_only_silent. solve_silent.
  - intros k. unfold S3AdvancedManager.get_file_metadata.
    apply read_only_try_except; [|intros ?; apply read_only_silent, silent_ret].
    apply read_only_bind; [apply read_only_head_object|]. intros response.
    apply read_only_silent. solve_silent.
  - intros k expiration. unfold S3AdvancedManager.generate_presigned_url.
    apply read_only_try_except; [|intros ?; apply read_only_silent, silent_ret].
    apply read_only_bind; [|intros ?; apply read_only_silent, silent_ret].
    unfold Boto3.generate_presigned_url.
    apply read_only_bind; [apply read_only_send|]. intros ?.
    apply read_only_silent. solve_silent.
Qed.

(** ** Preview of a text file *)

(** X11: the preview of a text file shows the beginning of the decoded
    content, at most 10000 characters of it, and says whether anything
    was cut: for a stored object within the size limit whose key has a
    text extension and whose content decodes, the result is a text
    preview whose content is the first characters of the text, no more
    than the limit, flagged as truncated exactly when the text has more
    characters than the limit, and the whole text otherwise. A character
    is a code point of the decoded text, whatever number of bytes
    encodes it. *)
Theorem get_file_preview_text (ext : Externals) (self : S3AdvancedManager.t)
    (key : string) (max_size : Z) (w : World) (o : S3Object)
    (text : CodePoints) :
  objects w !! key = Some o →
  ContentLength o ≤ max_size →
  mem (str_lower ext (last_piece (split dot key)))
      S3AdvancedManager.text_extensions = true →
  decode_utf8 ext (Body o) = Some text →
  ∃ content truncated,
    (S3AdvancedManager.get_file_preview ext self key max_size w).1
      = Return (PreviewText content truncated) ∧
    content `prefix_of` text ∧
    length content = (S3AdvancedManager.text_limit `min` length text)%nat ∧
    (truncated = true ↔
     (S3AdvancedManager.text_limit < length text)%nat) ∧
    (truncated = false → content = text).
Proof.
  intros Ho Hsize Hext Hdec.
  unfold S3AdvancedManager.get_file_preview, try_except.
  unfold bind at 1. rewrite head_object_run, Ho.
  assert ((max_size <? ContentLength o) = false) as -> by lia.
  unfold bind. rewrite get_object_run. cbn [objects with_request].
  rewrite Ho, Hext, Hdec.
  eexists _, _. split; [reflexivity|].
  split_and!.
  - apply prefix_take.
  - apply length_take.
  - apply Nat.ltb_lt.
  - intros Hlt%Nat.ltb_ge. by apply take_ge.
Qed.

Lemma get_file_preview_text_witness :
  ∃ content truncated,
    (S3AdvancedManager.get_file_preview Samples.externals Samples.advanced
       "streamlit-app/a/other.txt" S3AdvancedManager.default_max_size
       Samples.tree).1
      = Return (PreviewText content truncated) ∧
    content `prefix_of` [111; 116; 104; 101; 114]%N ∧
    (truncated = false → content = [111; 116; 104; 101; 114]%N).
Proof.
  destruct (get_file_preview_text Samples.externals Samples.advanced
              "streamlit-app/a/other.txt" S3AdvancedManager.default_max_size
              Samples.tree (Samples.blob "other")
              [111; 116; 104; 101; 114]%N)
    as (content & truncated & Hrun & Hpre & _ & _ & Hall);
    [reflexivity|vm_compute; congruence|reflexivity|reflexivity|].
  exists content, truncated. split_and!; [exact Hrun|exact Hpre|exact Hall].
Defined.

(** X12: preview and metadata of a key that is not stored: the store's
    fault on the metadata-only request is turned into an error result,
    the body is never requested, and nothing stored changes. *)
Theorem missing_key_errors (ext : Externals) (self : S3AdvancedManager.t)
    (key : string) (max_size : Z) (w : World) :
  objects w !! key = None →
  ∃ e,
    S3AdvancedManager.get_file_preview ext self key max_size w
      = (Return (PreviewError ("Preview failed: " +:+ e)),
         with_request (HeadObject key) w) ∧
    S3AdvancedManager.get_file_metadata ext self key w
      = (Return (MetadataError e), with_request (HeadObject key) w).
Proof.
  intros Hkey. eexists. split.
  - unfold S3AdvancedManager.get_file_preview, try_except.
    unfold bind at 1. rewrite head_object_run, Hkey. reflexivity.
  - unfold S3AdvancedManager.get_file_metadata, try_except.
    unfold bind at 1. rewrite head_object_run, Hkey. reflexivity.
Qed.

Lemma missing_key_errors_witness :
  ∃ e,
    S3AdvancedManager.get_file_preview Samples.externals Samples.advanced
      "streamlit-app/none.txt" S3AdvancedManager.default_max_size Samples.tree
      = (Return (PreviewError ("Preview failed: " +:+ e)),
         with_request (HeadObject "streamlit-app/none.txt") Samples.tree) ∧
    S3AdvancedManager.get_file_metadata Samples.externals Samples.advanced
      "streamlit-app/none.txt" Samples.tree
      = (Return (MetadataError e),
         with_request (HeadObject "streamlit-app/none.txt") Samples.tree).
Proof.
  apply (missing_key_errors Samples.externals Samples.advanced
           "streamlit-app/none.txt" S3AdvancedManager.default_max_size
           Samples.tree).
  reflexivity.
Defined.

(** ** Navigation *)

Section navigation_facts.

Context (self : S3Manager.t).

Implicit Types (rel name s t : string) (l : list string).

(** Below the root prefix, the relative path is what follows it. *)
Lemma relative_rooted rel :
  startswith rel "/" = false →
  App.relative self (S3Manager.app_prefix self +:+ "/" +:+ rel) = rel.
Proof.
  intros Hrel. unfold App.relative. rewrite startswith_app, slice_from_app.
  change ("/" +:+ rel) with (String slash rel). cbn [lstrip].
  rewrite Ascii.eqb_refl. by apply (lstrip_id slash).
Qed.

Lemma relative_root : App.relative self (S3Manager.app_prefix self) = "".
Proof.
  unfold App.relative. rewrite startswith_refl.
  rewrite <- (str_app_nil_r (S3Manager.app_prefix self)) at 2.
  by rewrite slice_from_app.
Qed.

(** A clean relative path that does not begin with the characters of the
    root prefix is resolved below the root prefix. *)
Lemma listing_root_relative rel :
  clean rel → rel ≠ "" →
  startswith rel (S3Manager.app_prefix self) = false →
  listing_root self rel = S3Manager.app_prefix self +:+ "/" +:+ rel +:+ "/".
Proof.
  intros [Hlead Htrail] Hne Hroot. unfold listing_root, S3Manager.format_path.
  apply truthy_true in Hne as Ht. rewrite Ht.
  rewrite format_path_truthy by done. cbv zeta.
  assert (strip slash rel = rel) as ->.
  { unfold strip. rewrite (lstrip_id slash) by exact Hlead.
    by apply (rstrip_id slash). }
  rewrite Hroot.
  assert (endswith (S3Manager.app_prefix self +:+ "/" +:+ rel) "/" = false)
    as ->.
  { rewrite endswith_app_char by (by destruct rel).
    by rewrite (endswith_app_char "/") by done. }
  by rewrite !str_app_assoc.
Qed.

Lemma join_app sep l1 l2 :
  l1 ≠ [] → l2 ≠ [] →
  join sep (l1 ++ l2) = join sep l1 +:+ sep +:+ join sep l2.
Proof.
  intros H1 H2. induction l1 as [|x l1 IH]; [done|].
  destruct l1 as [|y l1].
  - destruct l2 as [|z l2]; [done|]. reflexivity.
  - change (join sep ((x :: y :: l1) ++ l2))
      with (x +:+ sep +:+ join sep ((y :: l1) ++ l2)).
    rewrite IH by done.
    change (join sep (x :: y :: l1)) with (x +:+ sep +:+ join sep (y :: l1)).
    by rewrite !str_app_assoc.
Qed.

End navigation_facts.

(** X14: opening a folder of the listing leads to that folder. For a
    folder path below the root prefix whose relative part is clean, not
    empty and does not begin with the characters of the root prefix, the
    new current path is the relative part, and the prefix the next
    listing resolves it to is the folder path itself. *)
Theorem open_folder_round_trip (self : S3Manager.t) (rel : string) :
  clean rel → rel ≠ "" →
  startswith rel (S3Manager.app_prefix self) = false →
  App.open_folder self (S3Manager.app_prefix self +:+ "/" +:+ rel +:+ "/")
    = rel ∧
  listing_root self
    (App.open_folder self
       (S3Manager.app_prefix self +:+ "/" +:+ rel +:+ "/"))
    = S3Manager.app_prefix self +:+ "/" +:+ rel +:+ "/".
Proof.
  intros Hclean Hne Hroot.
  assert (App.open_folder self
            (S3Manager.app_prefix self +:+ "/" +:+ rel +:+ "/") = rel) as ->.
  { unfold App.open_folder. cbv zeta.
    replace (S3Manager.app_prefix self +:+ "/" +:+ rel +:+ "/")
      with ((S3Manager.app_prefix self +:+ "/" +:+ rel) +:+ String slash "")
      by (by rewrite !str_app_assoc).
    rewrite (rstrip_app_char slash).
    - apply relative_rooted, Hclean.
    - intros [_ [=]]%str_app_eq_nil.
    - rewrite endswith_app_char by (by destruct rel).
      rewrite (endswith_app_char "/") by done. apply Hclean. }
  split; [done|]. by apply listing_root_relative.
Qed.

Lemma open_folder_round_trip_witness :
  App.open_folder Samples.manager "streamlit-app/docs/2024/" = "docs/2024" ∧
  listing_root Samples.manager
    (App.open_folder Samples.manager "streamlit-app/docs/2024/")
  = "streamlit-app/docs/2024/".
Proof.
  apply (open_folder_round_trip Samples.manager "docs/2024");
    [split; reflexivity|discriminate|reflexivity].
Defined.

(** The folder of a result that lies in a folder below the root prefix,
    and of one that lies directly below it. *)
Lemma parent_path_of (self : S3Manager.t) (parent name : string) :
  contains "/" name = false →
  App.parent_path self (parent +:+ "/" +:+ name) = App.relative self parent.
Proof.
  intros Hname. unfold App.parent_path. cbv zeta.
  change (parent +:+ "/" +:+ name) with (parent +:+ String slash name).
  rewrite split_app, (split_no_sep slash name Hname).
  unfold but_last. rewrite removelast_last.
  change (join "/" (split slash parent))
    with (join (String slash "") (split slash parent)).
  by rewrite join_split.
Qed.

(** X15: "Go to" on a search result leads to the folder that holds it,
    in a run of a connected manager in which "Search" is pressed, the
    term is not empty and the result is the first of the ten shown whose
    "Go to" is pressed.
    Then, for a result [root/rel/name] whose last segment [name] has no
    slash and whose relative folder [rel] is clean, not empty and does
    not begin with the characters of the root prefix, the new current
    path is resolved by the next listing to [root/rel/]; for a result
    [root/name] directly below the root prefix it is resolved to
    [root/]. In a run in which "Search" is not pressed or the term is
    empty, nothing is searched and the current path stays as it is,
    whatever "Go to" is pressed. *)
Theorem go_to_parent (ext : Externals) (fuel : nat) (self : S3Manager.t)
    (adv : S3AdvancedManager.t) (search_term current_path : string)
    (goto_btn : string → bool) (w : World) (results : list Entry)
    (result : Entry) (rel name : string) :
  S3Manager.connected self = true →
  search_term ≠ "" →
  (S3AdvancedManager.search_files ext fuel adv search_term current_path w).1
    = Return results →
  find (λ r, goto_btn (path r)) (App.shown_results results) = Some result →
  contains "/" name = false →
  (clean rel → rel ≠ "" →
   startswith rel (S3Manager.app_prefix self) = false →
   path result = S3Manager.app_prefix self +:+ "/" +:+ rel +:+ "/" +:+ name →
   ∃ new_path,
     (App.search_panel ext fuel self adv true search_term goto_btn
        current_path w).1 = Return new_path ∧
     listing_root self new_path
       = S3Manager.app_prefix self +:+ "/" +:+ rel +:+ "/") ∧
  (path result = S3Manager.app_prefix self +:+ "/" +:+ name →
   ∃ new_path,
     (App.search_panel ext fuel self adv true search_term goto_btn
        current_path w).1 = Return new_path ∧
     listing_root self new_path = S3Manager.app_prefix self +:+ "/") ∧
  (∀ search_btn term,
     search_btn && truthy term = false →
     App.search_panel ext fuel self adv search_btn term goto_btn
       current_path w = (Return current_path, w)).
Proof.
  intros Hconn Hterm%truthy_true Hrun Hfind Hname.
  assert ((App.search_panel ext fuel self adv true search_term goto_btn
             current_path w).1
          = Return (App.parent_path self (path result))) as Hpanel.
  { unfold App.search_panel. rewrite Hconn, Hterm. cbn [negb andb].
    unfold bind.
    destruct (S3AdvancedManager.search_files ext fuel adv search_term
                current_path w) as [r w1].
    cbn [fst] in Hrun. rewrite Hrun. by rewrite Hfind. }
  split_and!.
  - intros Hclean Hne Hroot Hpath. eexists. split; [exact Hpanel|].
    rewrite Hpath.
    replace (S3Manager.app_prefix self +:+ "/" +:+ rel +:+ "/" +:+ name)
      with ((S3Manager.app_prefix self +:+ "/" +:+ rel) +:+ "/" +:+ name)
      by (by rewrite !str_app_assoc).
    rewrite parent_path_of, relative_rooted by (done || apply Hclean).
    by apply listing_root_relative.
  - intros Hpath. eexists. split; [exact Hpanel|].
    by rewrite Hpath, parent_path_of, relative_root.
  - intros search_btn term Hguard. unfold App.search_panel.
    rewrite Hguard. by destruct (negb _).
Qed.

Lemma go_to_parent_witness :
  ∃ new_path,
    (App.search_panel Samples.externals 5 Samples.manager Samples.advanced
       true "report" (String.eqb "streamlit-app/a/b/Report_final.pdf") ""
       Samples.tree).1 = Return new_path ∧
    listing_root Samples.manager new_path = "streamlit-app/a/b/".
Proof.
  refine (proj1 (go_to_parent Samples.externals 5 Samples.manager
                   Samples.advanced "report" ""
                   (String.eqb "streamlit-app/a/b/Report_final.pdf")
                   Samples.tree
                   (default []
                      (match (S3AdvancedManager.search_files
                                Samples.externals 5 Samples.advanced "report"
                                "" Samples.tree).1
                       with Return r => Some r | _ => None end))
                   {| name := "Report_final.pdf";
                      path := "streamlit-app/a/b/Report_final.pdf";
                      type := File; size := "4.0 B"; size_bytes := None;
                      modified := "2024-03-07 09:05:00" |}
                   "a/b" "Report_final.pdf" _ _ _ _ _) _ _ _ _);
    [reflexivity|discriminate|vm_compute; reflexivity
    |vm_compute; reflexivity|reflexivity|split; reflexivity|discriminate
    |reflexivity|reflexivity].
Defined.

(** ** Breadcrumbs *)

Lemma split_pieces c s :
  Forall (λ x, contains (String c "") x = false) (split c s).
Proof.
  induction s as [|a s IH]; [by constructor|]. cbn [split].
  pose proof (split_nonempty c s) as Hne.
  destruct (split c s) as [|h t]; [done|].
  destruct (Ascii.eqb a c) eqn:Hac; [by constructor|].
  apply Forall_cons in IH as [Hh Ht]. constructor; [|done].
  cbn [contains startswith]. rewrite Ascii.eqb_sym, Hac. exact Hh.
Qed.

(** X16: every breadcrumb leads to an ancestor of the current path. Its
    label is a segment of the path that is neither empty nor the root
    prefix, its target ends with its label, and the current path without
    its outer slashes is the target or continues it with a slash. *)
Theorem breadcrumbs_ancestors (self : S3Manager.t)
    (current_path label target : string) :
  (label, target) ∈ App.breadcrumbs self current_path →
  label ≠ "" ∧ label ≠ S3Manager.app_prefix self ∧
  contains "/" label = false ∧
  endswith target label = true ∧
  at_boundary target (strip slash current_path).
Proof.
  unfold App.breadcrumbs.
  destruct (truthy current_path); [|by intros ?%elem_of_nil].
  cbv zeta. set (parts := split slash (strip slash current_path)).
  intros ([i part] & Hin & Hsome)%list_elem_of_omap.
  apply elem_of_lookup_imap in Hin as (i' & part' & [= <- <-] & Hi).
  destruct (truthy part && negb (String.eqb part (S3Manager.app_prefix self)))
    eqn:Hcond; [|done].
  injection Hsome as <- <-.
  apply andb_true_iff in Hcond as [Ht Hr].
  apply truthy_true in Ht. apply negb_true_iff, String.eqb_neq in Hr.
  assert (take (S i) parts = take i parts ++ [part]) as Htake
    by (by apply take_S_r).
  split_and!; [done|done| | |].
  - pose proof (split_pieces slash (strip slash current_path)) as Hp.
    fold parts in Hp. rewrite Forall_forall in Hp.
    apply Hp. by eapply list_elem_of_lookup_2.
  - rewrite Htake. destruct (take i parts) as [|x l] eqn:Hl.
    + apply endswith_spec. by exists "".
    + rewrite join_app by done. rewrite <- str_app_assoc.
      apply endswith_app.
  - assert (strip slash current_path = join "/" parts) as ->
      by (symmetry; apply (join_split slash)).
    assert (join "/" parts
            = join "/" (take (S i) parts ++ drop (S i) parts)) as ->
      by (by rewrite take_drop).
    unfold at_boundary.
    destruct (drop (S i) parts) as [|x l] eqn:Hd.
    + left. by rewrite List.app_nil_r.
    + right. exists (join "/" (x :: l)). apply join_app; [|done].
      rewrite Htake. by destruct (take i parts).
Qed.

Lemma breadcrumbs_ancestors_witness :
  endswith "docs/2024" "2024" = true ∧
  at_boundary "docs/2024" (strip slash "/docs/2024/reports/").
Proof.
  refine (proj2 (proj2 (proj2
    (breadcrumbs_ancestors Samples.manager "/docs/2024/reports/" "2024"
       "docs/2024" _)))).
  assert (App.breadcrumbs Samples.manager "/docs/2024/reports/"
          = [("docs", "docs"); ("2024", "docs/2024");
             ("reports", "docs/2024/reports")]) as -> by reflexivity.
  by right; left.
Defined.
(** ** The listing of one folder *)

Section delimiter_facts.

Implicit Types (m : gmap string S3Object) (P k rest seg tail : string)
  (l : list ListItem).

Lemma dedup_adjacent_elem_of l x : x ∈ dedup_adjacent l ↔ x ∈ l.
Proof.
  induction l as [|y l IH]; [done|]. cbn [dedup_adjacent].
  destruct l as [|z l]; [done|].
  destruct (decide (y = z)) as [->|Hne].
  - rewrite IH. set_solver.
  - rewrite elem_of_cons, IH. set_solver.
Qed.

Lemma dedup_adjacent_length l : (length (dedup_adjacent l) ≤ length l)%nat.
Proof.
  induction l as [|y l IH]; [done|]. cbn [dedup_adjacent].
  destruct l as [|z l]; [done|].
  destruct (decide (y = z)); simpl in *; lia.
Qed.

(** A string that contains the separator has a first one. *)
Lemma first_sep c s :
  contains (String c "") s = true →
  ∃ seg tail, s = seg +:+ String c tail ∧ contains (String c "") seg = false.
Proof.
  induction s as [|a s IH]; [done|]. cbn [contains startswith].
  rewrite startswith_nil, andb_true_r.
  destruct (Ascii.eqb c a) eqn:Hca.
  - apply Ascii.eqb_eq in Hca as <-. intros _. by exists "", s.
  - cbn [orb]. intros (seg & tail & -> & Hseg)%IH.
    exists (String a seg), tail. split; [done|].
    cbn [contains startswith]. by rewrite Hca.
Qed.

Lemma rollup_object P rest :
  contains "/" rest = false →
  rollup P (Some slash) (P +:+ rest) = Object (P +:+ rest).
Proof.
  intros Hrest. unfold rollup.
  by rewrite slice_from_app, (split_no_sep slash rest Hrest).
Qed.

Lemma rollup_prefix P seg tail :
  contains "/" seg = false →
  rollup P (Some slash) (P +:+ seg +:+ String slash tail)
    = CommonPrefix (P +:+ seg +:+ "/").
Proof.
  intros Hseg. unfold rollup.
  rewrite slice_from_app, split_app, (split_no_sep slash seg Hseg).
  pose proof (split_nonempty slash tail).
  by destruct (split slash tail).
Qed.

(** A listed key is shown as itself when nothing but a name follows the
    prefix, and is rolled up into the prefix of its first segment
    otherwise. *)
Lemma rollup_cases P k :
  startswith k P = true →
  (∃ rest, k = P +:+ rest ∧ contains "/" rest = false ∧
           rollup P (Some slash) k = Object k) ∨
  (∃ seg tail, k = P +:+ seg +:+ String slash tail ∧
               contains "/" seg = false ∧
               rollup P (Some slash) k = CommonPrefix (P +:+ seg +:+ "/")).
Proof.
  intros [rest ->]%under_app.
  destruct (contains "/" rest) eqn:Hrest.
  - right. apply (first_sep slash) in Hrest as (seg & tail & -> & Hseg).
    exists seg, tail. split_and!; [done..|]. by apply rollup_prefix.
  - left. exists rest. split_and!; [done..|]. by apply rollup_object.
Qed.

Lemma final_segment_under P rest :
  endswith P "/" = true → contains "/" rest = false →
  final_segment (P +:+ rest) = rest.
Proof.
  intros [Q ->]%endswith_spec Hrest. unfold final_segment.
  rewrite str_app_assoc. change ("/" +:+ rest) with (String slash rest).
  rewrite split_app, (split_no_sep slash rest Hrest).
  by rewrite last_piece_app.
Qed.

Lemma folder_entry_row P seg :
  endswith P "/" = true → seg ≠ "" → contains "/" seg = false →
  S3Manager.folder_entry (P +:+ seg +:+ "/") = folder_row P seg.
Proof.
  intros HP Hne Hseg. unfold S3Manager.folder_entry, folder_row. f_equal.
  replace (P +:+ seg +:+ "/") with ((P +:+ seg) +:+ String slash "")
    by (by rewrite !str_app_assoc).
  rewrite (rstrip_app_char slash).
  - by apply final_segment_under.
  - intros [_ ?]%str_app_eq_nil. done.
  - rewrite endswith_app_char by done. by apply no_slash_end.
Qed.

Lemma first_page_elem w P it :
  it ∈ first_page w P →
  ∃ k, is_Some (objects w !! k) ∧ startswith k P = true ∧
       it = rollup P (Some slash) k.
Proof.
  intros Hit%(subseteq_take (MaxKeys w)).
  apply (proj1 (dedup_adjacent_elem_of _ _)) in Hit.
  apply list_elem_of_fmap in Hit as (k & -> & Hk).
  apply elem_of_keys_under in Hk as (? & ? & _). eauto.
Qed.

Lemma first_page_length w P : (length (first_page w P) ≤ MaxKeys w)%nat.
Proof. unfold first_page. rewrite length_take. lia. Qed.

Lemma omap_length_le {A B} (f : A → option B) (xs : list A) :
  (length (omap f xs) ≤ length xs)%nat.
Proof.
  induction xs as [|x xs IH]; [done|]. simpl. destruct (f x); simpl;
    change (list_omap A B f xs) with (omap f xs); lia.
Qed.

(** A page has no more rows than entries: an entry is an object or a
    common prefix, not both. *)
Lemma page_rows m l :
  (length (omap (summary m) l) + length (omap common_prefix l)
   ≤ length l)%nat.
Proof.
  induction l as [|[k|p] l IH]; [done|..]; simpl;
    [destruct (m !! k); simpl|];
    change (list_omap ListItem ObjectSummary (summary m) l)
      with (omap (summary m) l);
    change (list_omap ListItem string common_prefix l)
      with (omap common_prefix l); lia.
Qed.

End delimiter_facts.

Section list_objects_facts.

Context (self : S3Manager.t) (w : World).
Hypothesis Hconn : S3Manager.connected self = true.

Implicit Types (P rel_path : string) (files : list Entry)
  (sums : list ObjectSummary).

Lemma listing_root_slash rel_path :
  endswith (listing_root self rel_path) "/" = true.
Proof.
  unfold listing_root, S3Manager.format_path.
  destruct (truthy rel_path);
    [apply format_path_rooted|apply endswith_app].
Qed.

Lemma listing_root_format rel_path :
  listing_root self rel_path = S3Manager.format_path self (Some rel_path).
Proof. by destruct rel_path. Qed.

Lemma fold_list_step P sums acc files :
  fold_outcome (list_step P) sums acc = Return files →
  files = acc ++ omap (file_row P) sums.
Proof.
  revert acc. induction sums as [|obj sums IH]; intros acc.
  - simpl. intros [= <-]. by rewrite List.app_nil_r.
  - cbn [fold_outcome omap list_omap]. unfold list_step at 1, file_row at 1.
    destruct (String.eqb (Key obj) P); [apply IH|].
    destruct (negb (truthy (final_segment (Key obj)))); [apply IH|].
    destruct (format_size (Size obj)) as [sz|]; [|done].
    intros ->%IH. cbn [fmap option_fmap option_map].
    by rewrite <- List.app_assoc.
Qed.

Lemma fold_list_step_sane P sums acc :
  Forall (λ obj, 0 ≤ Size obj < 2 ^ 1023) sums →
  fold_outcome (list_step P) sums acc
    = Return (acc ++ omap (file_row P) sums).
Proof.
  intros Hs. revert acc. induction Hs as [|obj sums Hobj _ IH]; intros acc.
  - simpl. by rewrite List.app_nil_r.
  - cbn [fold_outcome omap list_omap]. unfold list_step at 1, file_row at 1.
    destruct (String.eqb (Key obj) P); [apply IH|].
    destruct (negb (truthy (final_segment (Key obj)))); [apply IH|].
    destruct (format_size_total _ Hobj) as [sz ->].
    rewrite IH. cbn [fmap option_fmap option_map].
    by rewrite <- List.app_assoc.
Qed.

Lemma fold_list_step_ends P sums acc :
  fold_outcome (list_step P) sums acc ≠ OutOfFuel.
Proof.
  revert acc. induction sums as [|obj sums IH]; intros acc; [done|].
  cbn [fold_outcome]. unfold list_step at 1.
  destruct (String.eqb (Key obj) P); [apply IH|].
  destruct (negb _); [apply IH|].
  destruct (format_size (Size obj)); [apply IH|done].
Qed.

(** What a listing does: one request for the resolved prefix with the
    slash as delimiter, one folder row for each common prefix of the page
    and the loop over its objects; a fault in the loop empties the
    result. *)
Lemma list_objects_run rel_path :
  S3Manager.list_objects self rel_path w =
    (match fold_outcome (list_step (listing_root self rel_path))
             (omap (summary (objects w))
                   (first_page w (listing_root self rel_path))) [] with
     | Return files =>
         Return (S3Manager.folder_entry <$>
                   omap common_prefix
                        (first_page w (listing_root self rel_path)),
                 files)
     | Raise e => Return ([], [])
     | OutOfFuel => OutOfFuel
     end,
     with_request
       (ListObjectsV2 (listing_root self rel_path) (Some slash) None) w).
Proof.
  unfold S3Manager.list_objects. rewrite Hconn. cbn [negb]. cbv zeta.
  fold (listing_root self rel_path). set (P := listing_root self rel_path).
  unfold try_except. unfold bind at 1. rewrite list_objects_v2_run.
  set (w1 := with_request (ListObjectsV2 P (Some slash) None) w).
  change (Contents (list_page w P (Some slash) None))
    with (present (omap (summary (objects w)) (first_page w P))).
  change (CommonPrefixes (list_page w P (Some slash) None))
    with (present (omap common_prefix (first_page w P))).
  set (sums := omap (summary (objects w)) (first_page w P)).
  set (prefixes := omap common_prefix (first_page w P)).
  assert (match present prefixes with
          | Some prefixes => S3Manager.folder_entry <$> prefixes
          | None => []
          end = S3Manager.folder_entry <$> prefixes) as ->
    by (by destruct prefixes).
  unfold bind.
  match goal with
  | |- context [for_each _ _ ?step] =>
      assert (∀ acc obj w', step acc obj w' = (list_step P acc obj, w'))
        as Hstep;
      [|assert (match present sums with
                | Some contents => for_each contents [] step
                | None => ret []
                end w1 = (fold_outcome (list_step P) sums [], w1)) as ->
          by (destruct sums; [done|]; by apply for_each_pure)]
  end.
  { intros acc obj w'. unfold list_step, final_segment.
    destruct (String.eqb (Key obj) P); [done|].
    destruct (negb (truthy _)); [done|].
    unfold bind, S3Manager.format_size, of_option.
    by destruct (S3Manager_sizes.format_size (Size obj)). }
  by destruct (fold_outcome (list_step P) sums []).
Qed.

Lemma file_row_direct P obj e it :
  endswith P "/" = true → it ∈ first_page w P →
  summary (objects w) it = Some obj → file_row P obj = Some e →
  direct_file (objects w) P e.
Proof.
  intros HP Hit Hobj He.
  apply first_page_elem in Hit as (k & [o Ho] & Hk & ->).
  destruct (rollup_cases P k Hk)
    as [(rest & -> & Hrest & Hroll)|(seg & tail & _ & _ & Hroll)];
    rewrite Hroll in Hobj; [|done].
  cbn [summary] in Hobj. rewrite Ho in Hobj. injection Hobj as <-.
  unfold file_row in He. cbn [Key Size] in He.
  destruct (String.eqb (P +:+ rest) P); [done|].
  rewrite (final_segment_under P rest HP Hrest) in He.
  destruct (truthy rest) eqn:Ht; [|done]. cbn [negb] in He.
  destruct (format_size (ContentLength o)) as [sz|] eqn:Hsz; [|done].
  injection He as <-. unfold file_entry. cbn [Key Size SummaryLastModified].
  rewrite (final_segment_under P rest HP Hrest).
  split_and!; [done|by apply truthy_true|done|done|]. exists o. done.
Qed.

Lemma common_prefix_direct P p it :
  endswith P "/" = true → it ∈ first_page w P →
  common_prefix it = Some p →
  direct_folder (objects w) P (S3Manager.folder_entry p).
Proof.
  intros HP Hit Hp.
  apply first_page_elem in Hit as (k & Ho & Hk & ->).
  destruct (rollup_cases P k Hk)
    as [(rest & _ & _ & Hroll)|(seg & tail & -> & Hseg & Hroll)];
    rewrite Hroll in Hp; [done|].
  injection Hp as <-. split; [done|]. exists seg. cbn [path].
  split_and!; [done|done| |].
  - intros Hne. by rewrite folder_entry_row.
  - exists (P +:+ seg +:+ String slash tail). split; [done|].
    apply startswith_spec. exists tail. unfold S3Manager.folder_entry.
    cbn [path]. by rewrite !str_app_assoc.
Qed.

(** The rows of a listing by a connected manager. *)
Lemma list_objects_rows rel_path :
  ∃ folders files,
    (S3Manager.list_objects self rel_path w).1 = Return (folders, files) ∧
    Forall (direct_file (objects w) (listing_root self rel_path)) files ∧
    Forall (direct_folder (objects w) (listing_root self rel_path)) folders.
Proof.
  rewrite list_objects_run. set (P := listing_root self rel_path).
  pose proof (listing_root_slash rel_path) as HP. fold P in HP.
  destruct (fold_outcome (list_step P) _ []) as [files|e|] eqn:Hfold.
  - exists (S3Manager.folder_entry <$> omap common_prefix (first_page w P)),
      files.
    split; [done|]. split.
    + apply fold_list_step in Hfold. rewrite Hfold.
      apply Forall_forall. intros e (obj & Hobj & He)%list_elem_of_omap.
      apply list_elem_of_omap in Hobj as (it & Hit & Hobj).
      by eapply file_row_direct.
    + apply Forall_forall. intros e (p & -> & Hp)%list_elem_of_fmap.
      apply list_elem_of_omap in Hp as (it & Hit & Hp).
      by eapply common_prefix_direct.
  - exists [], []. by split_and!.
  - by apply fold_list_step_ends in Hfold.
Qed.

End list_objects_facts.

(** X17: what a listing shows lies directly below the listed prefix.
    Every file row stands for an object stored under the prefix followed
    by the row's name, a name that is not empty and has no slash, and
    carries the object's size and modification time; the listed prefix
    itself and keys that end with a slash get no file row. Every folder
    row stands for a prefix one segment below the listed one under which
    a key is stored, and is named after that segment. *)
Theorem list_objects_sound (self : S3Manager.t) (rel_path : string)
    (w : World) :
  ∃ folders files,
    (S3Manager.list_objects self rel_path w).1 = Return (folders, files) ∧
    Forall (direct_file (objects w) (listing_root self rel_path)) files ∧
    Forall (direct_folder (objects w) (listing_root self rel_path)) folders.
Proof.
  destruct (S3Manager.connected self) eqn:Hconn;
    [by apply list_objects_rows|].
  exists [], []. unfold S3Manager.list_objects. rewrite Hconn.
  by split_and!.
Qed.

(** X18: a listing is one page. It sends one listing request, without
    continuation, and shows at most as many rows, folders and files
    together, as the store returns entries in one page, however many keys
    lie under the prefix. *)
Theorem list_objects_one_page (self : S3Manager.t) (rel_path : string)
    (w : World) :
  S3Manager.connected self = true →
  ∃ folders files w1,
    S3Manager.list_objects self rel_path w = (Return (folders, files), w1) ∧
    (length folders + length files ≤ MaxKeys w)%nat ∧
    requests w1 = requests w ++
      [ListObjectsV2 (listing_root self rel_path) (Some slash) None].
Proof.
  intros Hconn. rewrite list_objects_run by done.
  set (P := listing_root self rel_path).
  destruct (fold_outcome (list_step P) _ []) as [files|e|] eqn:Hfold.
  - eexists _, files, _. split; [done|]. split; [|done].
    apply fold_list_step in Hfold. rewrite Hfold, length_fmap. simpl.
    pose proof (page_rows (objects w) (first_page w P)).
    pose proof (first_page_length w P).
    pose proof (omap_length_le (file_row P)
                  (omap (summary (objects w)) (first_page w P))).
    lia.
  - eexists [], [], _. split; [done|]. split; [simpl; lia|done].
  - by apply fold_list_step_ends in Hfold.
Qed.

Lemma list_objects_one_page_witness :
  ∃ folders files w1,
    S3Manager.list_objects Samples.manager "a" Samples.tree
      = (Return (folders, files), w1) ∧
    (length folders + length files ≤ 2)%nat ∧
    requests w1 = [ListObjectsV2 "streamlit-app/a/" (Some slash) None].
Proof.
  apply (list_objects_one_page Samples.manager "a" Samples.tree).
  reflexivity.
Defined.
(** ** What has been created is listed *)

Section listed_after.

Context (self : S3Manager.t) (w : World).
Hypothesis Hconn : S3Manager.connected self = true.

Implicit Types (P K rel_path : string) (m : gmap string S3Object).

Lemma keys_under_insert_length m P K o :
  (length (keys_under (<[K := o]> m) P None)
   ≤ S (length (keys_under m P None)))%nat.
Proof.
  change (S (length (keys_under m P None)))
    with (length (K :: keys_under m P None)).
  apply submseteq_length, NoDup_submseteq; [apply keys_under_NoDup|].
  intros k (Hk & ? & ?)%elem_of_keys_under.
  destruct (decide (k = K)) as [->|Hne]; [by left|right].
  rewrite lookup_insert_ne in Hk by done. by apply elem_of_keys_under.
Qed.

Lemma page_sizes m (l : list ListItem) :
  sane_sizes m →
  Forall (λ obj, 0 ≤ Size obj < 2 ^ 1023) (omap (summary m) l).
Proof.
  intros Hm. apply Forall_forall.
  intros obj ([k|p] & _ & Hobj)%list_elem_of_omap; [|done].
  cbn [summary] in Hobj. destruct (m !! k) as [o|] eqn:Ho; [|done].
  injection Hobj as <-. by apply (Hm k o).
Qed.

(** A listing of a folder that fits in one page, of objects of sane size,
    has a folder row for every common prefix and a file row for every
    object that has one. *)
Lemma list_objects_full rel_path :
  sane_sizes (objects w) →
  (length (keys_under (objects w) (listing_root self rel_path) None)
   ≤ MaxKeys w)%nat →
  (S3Manager.list_objects self rel_path w).1 =
    Return
      (S3Manager.folder_entry <$>
         omap common_prefix
           (dedup_adjacent
              (rollup (listing_root self rel_path) (Some slash) <$>
                 keys_under (objects w) (listing_root self rel_path) None)),
       omap (file_row (listing_root self rel_path))
         (omap (summary (objects w))
            (dedup_adjacent
               (rollup (listing_root self rel_path) (Some slash) <$>
                  keys_under (objects w) (listing_root self rel_path)
                    None)))).
Proof.
  intros Hsane Hlen. rewrite list_objects_run by done.
  set (P := listing_root self rel_path) in *.
  assert (first_page w P =
          dedup_adjacent
            (rollup P (Some slash) <$> keys_under (objects w) P None)) as ->.
  { unfold first_page. apply take_ge.
    etrans; [apply dedup_adjacent_length|]. by rewrite length_fmap. }
  by rewrite fold_list_step_sane by (by apply page_sizes).
Qed.

End listed_after.

(** X19: a folder that has been created is listed. When the parent
    folder fits in one page and its objects have sane sizes, creating a
    folder whose name is one non-empty segment succeeds, and the next
    listing of the parent has a folder row of that name for the new
    prefix. *)
Theorem create_folder_listed (self : S3Manager.t)
    (folder_name rel_path : string) (w : World) :
  S3Manager.connected self = true →
  folder_name ≠ "" → contains "/" folder_name = false →
  sane_sizes (objects w) →
  (length (keys_under (objects w) (listing_root self rel_path) None)
   < MaxKeys w)%nat →
  ∃ w1 folders files,
    S3Manager.create_folder self folder_name rel_path w
      = (Return (true,
                 "Folder '" +:+ folder_name +:+ "' created successfully"),
         w1) ∧
    (S3Manager.list_objects self rel_path w1).1 = Return (folders, files) ∧
    folder_row (listing_root self rel_path) folder_name ∈ folders.
Proof.
  intros Hconn Hne Hfree Hsane Hlen.
  rewrite create_folder_run by done.
  set (P := listing_root self rel_path) in *.
  set (K := P +:+ folder_name +:+ "/").
  eexists _, _, _. split; [reflexivity|].
  split.
  - apply list_objects_full; [done|..];
      cbn [objects with_objects with_request MaxKeys].
    + apply map_Forall_insert_2; [|done]. simpl.
      split; [done|]. by apply Z.pow_pos_nonneg.
    + fold P. pose proof (keys_under_insert_length (objects w) P K
                            (new_object w "")). lia.
  - cbn [objects with_objects]. fold P.
    rewrite <- (folder_entry_row P folder_name)
      by (done || apply listing_root_slash).
    apply list_elem_of_fmap_2, list_elem_of_omap.
    exists (CommonPrefix K). split; [|done].
    apply dedup_adjacent_elem_of, list_elem_of_fmap.
    exists K. split.
    + symmetry. apply (rollup_prefix P folder_name ""). done.
    + apply elem_of_keys_under. split_and!; [|apply startswith_app|done].
      fold K. by rewrite lookup_insert_eq.
Qed.

Lemma create_folder_listed_witness :
  ∃ w1 folders files,
    S3Manager.create_folder Samples.manager "drafts" "b" Samples.nested
      = (Return (true, "Folder 'drafts' created successfully"), w1) ∧
    (S3Manager.list_objects Samples.manager "b" w1).1
      = Return (folders, files) ∧
    folder_row "streamlit-app/b/" "drafts" ∈ folders.
Proof.
  apply (create_folder_listed Samples.manager "drafts" "b" Samples.nested).
  - reflexivity.
  - discriminate.
  - reflexivity.
  - unfold sane_sizes. apply (bool_decide_unpack _). vm_compute. exact I.
  - vm_compute. lia.
Defined.

(** X20: a file that has been uploaded is listed. When the folder fits
    in one page, its objects have sane sizes and so has the new content,
    uploading a file whose name is one non-empty segment succeeds, and
    the next listing of the folder has a file row with that name, the
    key it was stored under, the length of the content as size and the
    time of the upload as modification time. *)
Theorem upload_then_listed (self : S3Manager.t) (file : UploadedFile)
    (rel_path : string) (w : World) :
  S3Manager.connected self = true →
  file_name file ≠ "" → contains "/" (file_name file) = false →
  sane_sizes (objects w) →
  Z.of_nat (String.length (file_content file)) < 2 ^ 1023 →
  (length (keys_under (objects w) (listing_root self rel_path) None)
   < MaxKeys w)%nat →
  ∃ w1 folders files formatted,
    S3Manager.upload_file self file rel_path w
      = (Return (true,
                 "File '" +:+ file_name file +:+ "' uploaded successfully"),
         w1) ∧
    (S3Manager.list_objects self rel_path w1).1 = Return (folders, files) ∧
    format_size (Z.of_nat (String.length (file_content file)))
      = Some formatted ∧
    {| name := file_name file;
       path := listing_root self rel_path +:+ file_name file;
       type := File; size := formatted;
       size_bytes := Some (Z.of_nat (String.length (file_content file)));
       modified := strftime (now w) |} ∈ files.
Proof.
  intros Hconn Hne Hfree Hsane Hsize Hlen.
  rewrite upload_file_run by done. rewrite <- listing_root_format.
  set (P := listing_root self rel_path) in *.
  set (K := P +:+ file_name file).
  set (n := Z.of_nat (String.length (file_content file))) in *.
  destruct (format_size_total n) as [sz Hsz]; [lia|].
  eexists _, _, _, sz. split; [reflexivity|].
  pose proof (listing_root_slash self rel_path) as HP. fold P in HP.
  split_and!; [|done|].
  - apply list_objects_full; [done|..];
      cbn [objects with_objects with_request MaxKeys].
    + apply map_Forall_insert_2; [|done]. simpl. fold n. lia.
    + fold P. pose proof (keys_under_insert_length (objects w) P K
                            (new_object w (file_content file))). lia.
  - cbn [objects with_objects]. fold P.
    apply list_elem_of_omap.
    exists {| Key := K; Size := n; SummaryLastModified := now w |}. split.
    + apply list_elem_of_omap. exists (Object K). split.
      * apply dedup_adjacent_elem_of, list_elem_of_fmap.
        exists K. split; [symmetry; by apply rollup_object|].
        apply elem_of_keys_under. split_and!; [|apply startswith_app|done].
        by rewrite lookup_insert_eq.
      * cbn [summary]. by rewrite lookup_insert_eq.
    + unfold file_row. cbn [Key Size].
      assert (String.eqb K P = false) as ->.
      { apply String.eqb_neq. unfold K. intros Heq.
        rewrite <- (str_app_nil_r P) in Heq at 2.
        by apply str_app_inv_head in Heq. }
      unfold K. rewrite (final_segment_under P _ HP Hfree).
      apply truthy_true in Hne as ->. cbn [negb]. rewrite Hsz.
      unfold file_entry. cbn [fmap option_fmap option_map Key Size
                                SummaryLastModified].
      by rewrite (final_segment_under P _ HP Hfree).
Qed.

Lemma upload_then_listed_witness :
  ∃ w1 folders files formatted,
    S3Manager.upload_file Samples.manager
      {| file_name := "notes.txt"; file_content := "hello" |} "b"
      Samples.nested
      = (Return (true, "File 'notes.txt' uploaded successfully"), w1) ∧
    (S3Manager.list_objects Samples.manager "b" w1).1
      = Return (folders, files) ∧
    format_size 5 = Some formatted ∧
    {| name := "notes.txt"; path := "streamlit-app/b/notes.txt";
       type := File; size := formatted; size_bytes := Some 5;
       modified := strftime Samples.stamp |} ∈ files.
Proof.
  apply (upload_then_listed Samples.manager
           {| file_name := "notes.txt"; file_content := "hello" |} "b"
           Samples.nested).
  - reflexivity.
  - discriminate.
  - reflexivity.
  - unfold sane_sizes. apply (bool_decide_unpack _). vm_compute. exact I.
  - vm_compute. reflexivity.
  - vm_compute. lia.
Defined.
(** ** A folder that has just been created *)

Section fresh_folder_facts.

Implicit Types (m : gmap string S3Object) (K : string).

(** Under a prefix that no stored key starts with, the marker is the
    only key once it is stored. *)
Lemma keys_under_fresh m K o :
  (∀ k, is_Some (m !! k) → startswith k K = false) →
  keys_under (<[K := o]> m) K None = [K].
Proof.
  intros Hfresh. apply keys_under_unique.
  - repeat constructor.
  - apply NoDup_singleton.
  - intros k. rewrite list_elem_of_singleton. split.
    + intros ->. rewrite lookup_insert_eq. split_and!; [by eexists| |done].
      apply startswith_refl.
    + intros (Hk & Hst & _). destruct (decide (k = K)) as [|Hne]; [done|].
      rewrite lookup_insert_ne in Hk by done.
      apply Hfresh in Hk. congruence.
Qed.

End fresh_folder_facts.

(** X21: a folder that has just been created is shown as empty. When no
    stored key starts with the new prefix, a listing that resolves to
    the new prefix after the creation has no folder row and no file row:
    the marker object that stands for the folder is not shown. *)
Theorem fresh_folder_listed_empty (self : S3Manager.t)
    (folder_name rel_path current_path : string) (w : World) :
  S3Manager.connected self = true →
  (∀ k, is_Some (objects w !! k) →
        startswith k (listing_root self rel_path +:+ folder_name +:+ "/")
          = false) →
  listing_root self current_path
    = listing_root self rel_path +:+ folder_name +:+ "/" →
  (S3Manager.list_objects self current_path
     (S3Manager.create_folder self folder_name rel_path w).2).1
    = Return ([], []).
Proof.
  intros Hconn Hfresh Hcur. rewrite create_folder_run by done. cbn [snd].
  rewrite list_objects_run by done. rewrite Hcur.
  set (K := listing_root self rel_path +:+ folder_name +:+ "/") in *.
  unfold first_page. cbn [objects with_objects with_request MaxKeys].
  rewrite keys_under_fresh by done.
  assert (rollup K (Some slash) K = Object K) as Hroll.
  { rewrite <- (str_app_nil_r K) at 2 3. by apply rollup_object. }
  cbn [fmap list_fmap]. rewrite Hroll. cbn [dedup_adjacent].
  destruct (MaxKeys w) as [|n]; [done|].
  cbn [take]. rewrite take_nil. cbn [omap list_omap summary].
  rewrite lookup_insert_eq.
  cbn [omap list_omap fold_outcome common_prefix fmap list_fmap].
  unfold list_step. cbn [Key]. by rewrite String.eqb_refl.
Qed.

Lemma fresh_folder_listed_empty_witness :
  (S3Manager.list_objects Samples.manager "b/drafts"
     (S3Manager.create_folder Samples.manager "drafts" "b"
        Samples.nested).2).1
  = Return ([], []).
Proof.
  apply (fresh_folder_listed_empty Samples.manager "drafts" "b" "b/drafts"
           Samples.nested); [reflexivity| |reflexivity].
  intros k Hk.
  assert (k ∈ (map_to_list (objects Samples.nested)).*1) as Hin.
  { destruct Hk as [o Ho]. apply list_elem_of_fmap. exists (k, o).
    split; [done|]. by apply elem_of_map_to_list. }
  assert ((map_to_list (objects Samples.nested)).*1
          = ["streamlit-app/b/a"; "streamlit-app/b/z/a"]) as Hkeys
    by (vm_compute; reflexivity).
  rewrite Hkeys in Hin.
  apply elem_of_cons in Hin as [->|Hin]; [reflexivity|].
  apply list_elem_of_singleton in Hin as ->. reflexivity.
Defined.

(** X22: the marker of a folder counts as a file. For a folder that has
    just been created under a prefix that no stored key starts with,
    [get_folder_size] reports a total of 0 bytes, shown as "0.0 B", and
    a file count of 1. *)
Theorem fresh_folder_size (fuel : nat) (self : S3Manager.t)
    (adv : S3AdvancedManager.t) (folder_name rel_path : string)
    (w : World) :
  S3Manager.connected self = true →
  (0 < MaxKeys w)%nat → (1 < fuel)%nat →
  (∀ k, is_Some (objects w !! k) →
        startswith k (listing_root self rel_path +:+ folder_name +:+ "/")
          = false) →
  (S3AdvancedManager.get_folder_size fuel adv
     (listing_root self rel_path +:+ folder_name +:+ "/")
     (S3Manager.create_folder self folder_name rel_path w).2).1
    = Return {| total_size := 0; file_count := 1;
                formatted_size := "0.0 B"; error := None |}.
Proof.
  intros Hconn Hmax Hfuel Hfresh. rewrite create_folder_run by done.
  cbn [snd].
  set (K := listing_root self rel_path +:+ folder_name +:+ "/") in *.
  set (w1 := with_objects _ _).
  assert (folder_prefix K = K) as HK.
  { unfold folder_prefix, K. by rewrite <- !str_app_assoc, endswith_app. }
  assert (keys_under (objects w1) K None = [K]) as Hkeys
    by (by apply keys_under_fresh).
  destruct (get_folder_size_run fuel adv K w1) as (reqs & Hrun & _).
  - done.
  - rewrite HK, Hkeys. simpl. lia.
  - rewrite Hrun. cbn [fst]. rewrite HK.
    unfold total_under, sizes_under. rewrite Hkeys.
    cbn [omap list_omap]. unfold w1. cbn [objects with_objects].
    rewrite lookup_insert_eq. reflexivity.
Qed.

Lemma fresh_folder_size_witness :
  (S3AdvancedManager.get_folder_size 2 Samples.advanced
     "streamlit-app/b/drafts/"
     (S3Manager.create_folder Samples.manager "drafts" "b"
        Samples.nested).2).1
  = Return {| total_size := 0; file_count := 1;
              formatted_size := "0.0 B"; error := None |}.
Proof.
  apply (fresh_folder_size 2 Samples.manager Samples.advanced "drafts" "b"
           Samples.nested); [reflexivity|vm_compute; lia|lia|].
  intros k Hk.
  assert (k ∈ (map_to_list (objects Samples.nested)).*1) as Hin.
  { destruct Hk as [o Ho]. apply list_elem_of_fmap. exists (k, o).
    split; [done|]. by apply elem_of_map_to_list. }
  assert ((map_to_list (objects Samples.nested)).*1
          = ["streamlit-app/b/a"; "streamlit-app/b/z/a"]) as Hkeys
    by (vm_compute; reflexivity).
  rewrite Hkeys in Hin.
  apply elem_of_cons in Hin as [->|Hin]; [reflexivity|].
  apply list_elem_of_singleton in Hin as ->. reflexivity.
Defined.

(** ** What has been deleted is no longer listed *)

(** X23: after a delete, no row of any listing has the deleted path: a
    deleted file has no file row, and a deleted folder that fitted in one
    page has no folder row. *)
Theorem deleted_not_listed (self : S3Manager.t) (key rel_path : string)
    (w : World) :
  S3Manager.connected self = true →
  (endswith key "/" = true →
   (length (keys_under (objects w) key None) ≤ MaxKeys w)%nat) →
  ∃ folders files,
    (S3Manager.list_objects self rel_path
       (S3Manager.delete_object self key w).2).1 = Return (folders, files) ∧
    Forall (λ e, path e ≠ key) (folders ++ files).
Proof.
  intros Hconn Hpage.
  set (w1 := (S3Manager.delete_object self key w).2).
  destruct (list_objects_rows self w1 Hconn rel_path)
    as (folders & files & Hrun & Hfiles & Hfolders).
  exists folders, files. split; [done|].
  set (P := listing_root self rel_path) in *.
  rewrite Forall_forall in Hfiles, Hfolders.
  apply Forall_forall. intros e He. apply elem_of_app in He.
  destruct (endswith key "/") eqn:Hend.
  - assert (∀ k, startswith k key = true → objects w1 !! k = None) as Hgone.
    { intros k Hk. unfold w1.
      destruct (delete_folder_run self w key Hconn Hend)
        as (w' & Hdel & Hobjs & _).
      rewrite Hdel. cbn [snd]. rewrite Hobjs, take_ge by auto.
      destruct (objects w !! k) as [o|] eqn:Ho.
      + apply lookup_foldr_delete, elem_of_keys_under. eauto.
      + destruct (foldr delete (objects w) _ !! k) as [o|] eqn:Hf; [|done].
        apply lookup_foldr_delete_Some in Hf as [_ Hf]. congruence. }
    destruct He as [He|He].
    + destruct (Hfolders e He) as (_ & seg & _ & _ & _ & k & [o Ho] & Hk).
      intros Heq. rewrite Heq in Hk. apply Hgone in Hk. congruence.
    + destruct (Hfiles e He) as (_ & Hne & Hfree & Hpath & _).
      intros Heq. rewrite <- Heq, Hpath in Hend.
      rewrite endswith_app_char in Hend by done.
      apply no_slash_end in Hfree. congruence.
  - destruct He as [He|He].
    + destruct (Hfolders e He) as (_ & seg & Hpath & _).
      intros Heq. rewrite <- Heq, Hpath in Hend.
      by rewrite <- !str_app_assoc, endswith_app in Hend.
    + destruct (Hfiles e He) as (_ & Hname & _ & Hpath & o & Ho & _).
      intros Heq. destruct (decide (key = "")) as [->|Hne].
      * rewrite Hpath in Heq. by apply str_app_eq_nil in Heq as [_ ?].
      * assert (objects w1 !! key = None) as Hgone.
        { unfold w1. rewrite delete_file_run by done.
          cbn [snd objects with_objects]. apply lookup_delete_eq. }
        congruence.
Qed.

Lemma deleted_not_listed_witness :
  ∃ folders files,
    (S3Manager.list_objects Samples.manager "a"
       (S3Manager.delete_object Samples.manager "streamlit-app/a/other.txt"
          Samples.tree).2).1 = Return (folders, files) ∧
    Forall (λ e, path e ≠ "streamlit-app/a/other.txt") (folders ++ files).
Proof.
  apply (deleted_not_listed Samples.manager "streamlit-app/a/other.txt" "a"
           Samples.tree); [reflexivity|discriminate].
Defined.
